(** * RiceGuard: the rice-disease classifier service

    A shallow embedding of [backend/app/services/ml_service.py]
    (class [RiceDiseaseClassifier]) and of the settings it reads from
    [backend/app/core/config.py].

    Conventions of the embedding.
    - A finite Python [float] or numpy [float32] is represented by its
      value, a rational ([Q]); only finite scores are considered.
      Comparisons, maxima and sorting are exact on these values.  The
      subtraction of the two best scores, whose result the code tests,
      rounds to the nearest [float32] (ties to even).  The quotients of the
      8-bit samples by 255.0 are kept exact: rounding them to [float32]
      changes neither the shape of the array nor the range [0, 1] of its
      elements, which is all that is stated about them.
    - Python dictionaries are finite maps from string keys ([gmap string value]).
    - The methods of the classifier mutate [self] and consult the file system;
      they are functions in a state-and-exception monad [M] over a [World]
      holding the classifier object and an instrumentation trace of the
      file-system and model calls that were made.
    - The libraries the module calls (os.path, PIL, Keras) are not part of the
      repository: they are gathered in an environment record [Env].
    - Calls to [logger] have no influence on results and are left out. *)

From Stdlib Require Import QArith ZArith Lia String Ascii List Strings.Byte.
From Stdlib Require Import Qround Qpower Lqa.
From stdpp Require Import gmap strings list sorting.

Set Warnings "-register-all".
Open Scope string_scope.
Open Scope Z_scope.
Open Scope list_scope.

(** ** Python values, exceptions *)

Inductive value : Type :=
  | VNone
  | VBool (b : bool)
  | VInt (z : Z)
  | VFloat (q : Q)
  | VStr (s : string)
  | VTuple (l : list value)
  | VList (l : list value)
  | VDict (d : gmap string value).

(** A dictionary display [{k1: v1, ...}]. *)
Definition mkdict (items : list (string * value)) : gmap string value :=
  list_to_map items.

Inductive exc_class : Type :=
  | AttributeError | KeyError | IndexError | OSError | ValueError | TypeError
  | RuntimeError.

Record exn : Type := Exn { exn_class : exc_class; exn_str : string }.

Inductive Result (A : Type) : Type :=
  | Ok (a : A)
  | Raise (e : exn).
Arguments Ok {A} a.
Arguments Raise {A} e.

Definition rbind {A B} (r : Result A) (k : A -> Result B) : Result B :=
  match r with
  | Ok a => k a
  | Raise e => Raise e
  end.

Declare Scope r_scope.
Delimit Scope r_scope with r.
Notation "x <- c1 ;; c2" := (rbind c1 (fun x => c2))
  (at level 100, c1 at next level, right associativity) : r_scope.

Fixpoint rmapM {A B} (f : A -> Result B) (l : list A) : Result (list B) :=
  match l with
  | [] => Ok []
  | x :: r => (y <- f x ;; ys <- rmapM f r ;; Ok (y :: ys))%r
  end.

(** [d[k]] on a dictionary: raises [KeyError] when the key is missing. *)
Definition getitem {V} (d : gmap string V) (k : string) : Result V :=
  match d !! k with
  | Some v => Ok v
  | None => Raise (Exn KeyError ("'" +:+ k +:+ "'"))
  end.

(** [l[i]] on a list: negative indices count from the end, [IndexError]
    outside the range. *)
Definition list_getitem {A} (l : list A) (i : Z) : Result A :=
  let j := if i <? 0 then i + Z.of_nat (length l) else i in
  match (if j <? 0 then None else l !! Z.to_nat j) with
  | Some x => Ok x
  | None => Raise (Exn IndexError "list index out of range")
  end.

(** Truth value of a Python object. *)
Definition truthy (v : value) : bool :=
  match v with
  | VNone => false
  | VBool b => b
  | VInt z => negb (z =? 0)
  | VFloat q => negb (Qeq_bool q 0)
  | VStr s => negb (String.eqb s "")
  | VTuple l | VList l => match l with [] => false | _ => true end
  | VDict d => match map_to_list d with [] => false | _ => true end
  end.

(** [str(v)] for the values that are formatted into messages (strings,
    [None] and booleans). *)
Definition py_str (v : value) : string :=
  match v with
  | VStr s => s
  | VNone => "None"
  | VBool true => "True"
  | VBool false => "False"
  | _ => "<object>"
  end.

(** ** Settings (app/core/config.py, the part the classifier reads) *)

Record Settings : Type := {
  MODEL_PATH : string;
  CONFIDENCE_THRESHOLD : Q;
  CONFIDENCE_MARGIN : Q
}.

Definition default_settings : Settings :=
  {| MODEL_PATH := "ml/model.h5";
     CONFIDENCE_THRESHOLD := 0.50%Q;
     CONFIDENCE_MARGIN := 0.30%Q |}.

(** ** Arrays, images *)

(** ** float32 arithmetic

    IEEE 754 binary32: 24 significant bits, exponents from -126 to 127,
    subnormal numbers below [2^-126]; rounding to nearest, ties to even. *)

Definition pow2 (e : Z) : Q := (2 ^ e)%Q.

(** [floor (log2 q)] for [q > 0]. *)
Definition Qlog2 (q : Q) : Z :=
  let k := Z.log2 (Qnum q) - Z.log2 (Zpos (Qden q)) in
  if negb (Qle_bool (pow2 k) q) then k - 1 else k.

(** The nearest integer, the even one when two are equally near. *)
Definition round_half_even (q : Q) : Z :=
  let f := Qfloor q in
  match (q - inject_Z f ?= 1 # 2)%Q with
  | Lt => f
  | Gt => f + 1
  | Eq => if Z.even f then f else f + 1
  end.

(** The multiple of the unit in the last place of [q > 0] nearest to [q]. *)
Definition float32_nearest_pos (q : Q) : Q :=
  let e := Z.max (Qlog2 q) (-126) in
  let ulp := pow2 (e - 23) in
  (inject_Z (round_half_even (q / ulp)) * ulp)%Q.

(** The value of the float32 nearest to [q], as long as it is finite. *)
Definition float32_nearest (q : Q) : Q :=
  let q := Qred q in
  match Qnum q with
  | 0 => 0%Q
  | Zpos _ => float32_nearest_pos q
  | Zneg _ => (- float32_nearest_pos (- q))%Q
  end.

(** The result of a float32 operation: a finite value or an infinity. *)
Inductive float32 : Type := F32 (q : Q) | F32_inf | F32_neg_inf.

(** Rounding of an exact result, with overflow to the infinities. *)
Definition float32_round (q : Q) : float32 :=
  let v := float32_nearest q in
  if Qle_bool (pow2 128) v then F32_inf
  else if Qle_bool v (- pow2 128) then F32_neg_inf
  else F32 v.

(** [a - b] on float32 scalars. *)
Definition float32_sub (a b : Q) : float32 := float32_round (a - b).

(** [d >= m] for a float32 [d] and a Python float [m], compared by value. *)
Definition float32_ge (d : float32) (m : Q) : bool :=
  match d with
  | F32 v => Qle_bool m v
  | F32_inf => true
  | F32_neg_inf => false
  end.

(** A numpy array: its shape and its flat buffer. *)
Record ndarray : Type := { shape : list Z; data : list Q }.

(** A PIL image: container format, mode, size [(width, height)] and the
    raster buffer (one byte per band sample in the 8-bit modes). *)
Record Image : Type := {
  format : option string;
  mode : string;
  size : Z * Z;
  pixels : list byte
}.

(** [len(image.getbands())]. *)
Definition mode_bands (m : string) : Z :=
  if bool_decide (m ∈ ["RGB"; "YCbCr"; "LAB"; "HSV"]) then 3
  else if bool_decide (m ∈ ["RGBA"; "CMYK"; "RGBX"; "RGBa"]) then 4
  else if bool_decide (m ∈ ["LA"; "PA"; "La"]) then 2
  else 1.

Definition byte_to_Q (b : byte) : Q := inject_Z (Z.of_N (Byte.to_N b)).

(** [np.array(image, dtype=np.float32)]: shape [(height, width, bands)], or
    [(height, width)] for a single band. *)
Definition np_array (img : Image) : ndarray :=
  let '(w, h) := size img in
  let b := mode_bands (mode img) in
  {| shape := if b =? 1 then [h; w] else [h; w; b];
     data := map byte_to_Q (pixels img) |}.

(** [a / 255.0] *)
Definition np_div (a : ndarray) (d : Q) : ndarray :=
  {| shape := shape a; data := map (fun x => (x / d)%Q) (data a) |}.

(** [np.expand_dims(a, axis=0)] *)
Definition np_expand_dims0 (a : ndarray) : ndarray :=
  {| shape := 1 :: shape a; data := data a |}.

(** The loaded Keras model, seen through its [predict] method: it raises, or
    returns [None] or a batch of score rows. *)
Record Model : Type := {
  model_predict : ndarray -> Result (option (list (list Q)))
}.

(** ** The classifier object and the world it runs in *)

Record Classifier : Type := {
  model : option Model;
  model_loaded : bool;
  load_error : option string
}.

(** [RiceDiseaseClassifier.__init__] ([class_names] and [disease_info] are
    never reassigned and are the constants below). *)
Definition __init__ : Classifier :=
  {| model := None; model_loaded := false; load_error := None |}.

Definition class_names : list string :=
  ["bacterial_blight"; "brown_spot"; "healthy"; "leaf_blast"; "tungro"].

Record disease_entry : Type := { name : string; description : string }.

Definition disease_info : gmap string disease_entry :=
  list_to_map
    [("bacterial_blight",
      {| name := "Bacterial Blight";
         description := "Bacterial disease causing water-soaked lesions on leaf margins" |});
     ("brown_spot",
      {| name := "Brown Spot";
         description := "Fungal disease causing brown, oval spots with gray centers" |});
     ("healthy",
      {| name := "Healthy Leaf";
         description := "No disease detected - leaf appears healthy" |});
     ("leaf_blast",
      {| name := "Leaf Blast";
         description := "Fungal disease causing diamond-shaped lesions with gray centers" |});
     ("tungro",
      {| name := "Tungro";
         description := "Viral disease causing yellow-orange discoloration and stunting" |})].

(** Instrumentation: the calls that reach outside the process. *)
Inductive event : Type :=
  | EvGetcwd
  | EvExists (p : string)
  | EvGetsize (p : string)
  | EvLoadModel (p : string)
  | EvModelPredict.

Record World : Type := { self : Classifier; trace : list event }.

Definition M (A : Type) : Type := World -> Result A * World.

Definition ret {A} (a : A) : M A := fun w => (Ok a, w).

Definition raise {A} (e : exn) : M A := fun w => (Raise e, w).

Definition bind {A B} (m : M A) (k : A -> M B) : M B :=
  fun w =>
    match m w with
    | (Ok a, w') => k a w'
    | (Raise e, w') => (Raise e, w')
    end.

Definition lift {A} (r : Result A) : M A := fun w => (r, w).

(** [try: body  except Exception as e: handler e] *)
Definition try_except {A} (body : M A) (handler : exn -> M A) : M A :=
  fun w =>
    match body w with
    | (Ok a, w') => (Ok a, w')
    | (Raise e, w') => handler e w'
    end.

Definition emit (ev : event) : M unit :=
  fun w => (Ok tt, {| self := self w; trace := trace w ++ [ev] |}).

Definition get_self : M Classifier := fun w => (Ok (self w), w).

Definition set_self (c : Classifier) : M unit :=
  fun w => (Ok tt, {| self := c; trace := trace w |}).

Declare Scope m_scope.
Delimit Scope m_scope with m.
Notation "x <- c1 ;; c2" := (bind c1 (fun x => c2))
  (at level 100, c1 at next level, right associativity) : m_scope.
Notation "c1 ;;; c2" := (bind c1 (fun _ => c2))
  (at level 100, right associativity) : m_scope.

(** ** _get_fallback_prediction *)

Definition _get_fallback_prediction (reason : string) : Result value :=
  (all_predictions <-
     rmapM (fun disease =>
              info <- getitem disease_info disease ;;
              Ok (VDict (mkdict
                    [("disease", VStr disease);
                     ("confidence",
                      VFloat (if negb (String.eqb disease "healthy")
                              then 0.2 else 0.5)%Q);
                     ("disease_name", VStr (name info))])))
           class_names ;;
   Ok (VDict (mkdict
         [("disease", VStr "healthy");
          ("disease_name", VStr "Healthy Leaf");
          ("confidence", VFloat 0.5%Q);
          ("description",
           VStr "Unable to process image - defaulting to healthy classification");
          ("success", VBool false);
          ("fallback_reason", VStr reason);
          ("model_status", VStr "unavailable");
          ("confidence_threshold_met", VBool false);
          ("all_predictions", VList all_predictions)])))%r.

(** ** os.path (POSIX flavour) *)

Definition startswith_sep (s : string) : bool :=
  match s with
  | String c _ => Ascii.eqb c "/"
  | EmptyString => false
  end.

Fixpoint endswith_sep (s : string) : bool :=
  match s with
  | EmptyString => false
  | String c EmptyString => Ascii.eqb c "/"
  | String _ r => endswith_sep r
  end.

(** One step of [posixpath.join]: a component starting with a slash discards
    what came before it. *)
Definition join_step (path b : string) : string :=
  if startswith_sep b then b
  else if String.eqb path "" || endswith_sep path then path +:+ b
  else path +:+ "/" +:+ b.

Definition os_path_join (a : string) (p : list string) : string :=
  foldl join_step a p.

Definition os_path_isabs (s : string) : bool := startswith_sep s.

Fixpoint drop_while {A} (f : A -> bool) (l : list A) : list A :=
  match l with
  | [] => []
  | x :: r => if f x then drop_while f r else x :: r
  end.

Definition rstrip_sep (l : list ascii) : list ascii :=
  rev (drop_while (fun c => Ascii.eqb c "/") (rev l)).

(** [posixpath.dirname]: everything up to the last slash, trailing slashes
    removed unless the head consists of slashes only. *)
Definition os_path_dirname (p : string) : string :=
  let head := rev (drop_while (fun c => negb (Ascii.eqb c "/"))
                             (rev (list_ascii_of_string p))) in
  string_of_list_ascii
    (if forallb (fun c => Ascii.eqb c "/") head then head else rstrip_sep head).

(** ** The environment: settings, file system, PIL, Keras *)

Record Env : Type := {
  settings : Settings;
  module_file : string;                    (* __file__ of ml_service.py *)
  os_getcwd : Result string;
  os_path_exists : string -> bool;
  os_path_getsize : string -> Result Z;
  os_path_normpath : string -> string;
  keras_load_model : string -> Result Model;
  Image_open : list byte -> Result Image;
  Image_verify : Image -> Result unit;
  Image_convert : Image -> string -> Result Image;
  Image_resize : Image -> Z * Z -> Result Image;
  Image_has_Resampling : bool              (* Pillow >= 9.1.0 *)
}.

Definition len {A} (l : list A) : Z := Z.of_nat (length l).

Definition Qlt_bool (x y : Q) : bool := negb (Qle_bool y x).

(** Python's two-argument [min] and [max]: the first argument is kept unless
    the second is strictly smaller (resp. larger). *)
Definition py_min (a b : Q) : Q := if Qlt_bool b a then b else a.
Definition py_max (a b : Q) : Q := if Qlt_bool a b then b else a.

(** [np.max] and [np.argmax] of a one-dimensional array; [ValueError] on an
    empty one.  [np.argmax] returns the first index of the maximum. *)
Definition np_max (l : list Q) : Result Q :=
  match l with
  | [] => Raise (Exn ValueError "zero-size array to reduction operation maximum which has no identity")
  | x :: r => Ok (foldl (fun m y => if Qlt_bool m y then y else m) x r)
  end.

Fixpoint argmax_from (best : Z) (m : Q) (i : Z) (l : list Q) : Z :=
  match l with
  | [] => best
  | y :: r => if Qlt_bool m y then argmax_from i y (i + 1) r
              else argmax_from best m (i + 1) r
  end.

Definition np_argmax (l : list Q) : Result Z :=
  match l with
  | [] => Raise (Exn ValueError "attempt to get argmax of an empty sequence")
  | x :: r => Ok (argmax_from 0 x 1 r)
  end.

(** [np.sort]: ascending order. *)
Fixpoint sort_insert (x : Q) (l : list Q) : list Q :=
  match l with
  | [] => [x]
  | y :: r => if Qle_bool x y then x :: y :: r else y :: sort_insert x r
  end.

Definition np_sort (l : list Q) : list Q := foldr sort_insert [] l.

(** [s.replace("_", " ").title()] on ASCII strings. *)
Definition is_lower (c : ascii) : bool := (97 <=? nat_of_ascii c)%nat && (nat_of_ascii c <=? 122)%nat.
Definition is_upper (c : ascii) : bool := (65 <=? nat_of_ascii c)%nat && (nat_of_ascii c <=? 90)%nat.
Definition to_upper (c : ascii) : ascii :=
  if is_lower c then ascii_of_nat (nat_of_ascii c - 32) else c.
Definition to_lower (c : ascii) : ascii :=
  if is_upper c then ascii_of_nat (nat_of_ascii c + 32) else c.

Fixpoint title_from (prev_cased : bool) (s : string) : string :=
  match s with
  | EmptyString => EmptyString
  | String c r =>
      let cased := is_lower c || is_upper c in
      String (if prev_cased then to_lower c else to_upper c) (title_from cased r)
  end.

Fixpoint replace_underscore (s : string) : string :=
  match s with
  | EmptyString => EmptyString
  | String c r => String (if Ascii.eqb c "_" then " "%char else c) (replace_underscore r)
  end.

Definition py_title (s : string) : string := title_from false s.

(** ** The methods of RiceDiseaseClassifier *)

Section Classifier.

Variable env : Env.

Local Open Scope m_scope.

Definition getcwd : M string :=
  emit EvGetcwd ;;; lift (os_getcwd env).

Definition path_exists (p : string) : M bool :=
  emit (EvExists p) ;;; ret (os_path_exists env p).

Definition getsize (p : string) : M Z :=
  emit (EvGetsize p) ;;; lift (os_path_getsize env p).

(** [os.path.abspath]: a relative path is joined to the working directory,
    then normalised. *)
Definition abspath (p : string) : M string :=
  if os_path_isabs p then ret (os_path_normpath env p)
  else cwd <- getcwd ;; ret (os_path_normpath env (os_path_join cwd [p])).

(** The candidate locations of the model file, in the order of the source
    ([possible_paths], lines 55-71, after the [None] entries are dropped);
    [cwd1] and [cwd2] are the results of the two calls of [os.getcwd()]. *)
Definition possible_paths (cwd1 cwd2 : string) : list string :=
  let here := os_path_dirname (module_file env) in
  let model_path := MODEL_PATH (settings env) in
  omap id
    [ Some (os_path_join cwd1 ["ml"; "model.h5"]);
      Some (os_path_join (os_path_dirname cwd2) ["ml"; "model.h5"]);
      Some (os_path_join here [".."; ".."; "ml"; "model.h5"]);
      Some (os_path_join here [".."; ".."; model_path]);
      Some (os_path_join here [".."; ".."; ".."; "riceguard"; "ml"; "model.h5"]);
      if os_path_isabs model_path then Some model_path else None ].

(** The [for model_path in possible_paths] loop. *)
Fixpoint first_existing (paths : list string) : M (option string) :=
  match paths with
  | [] => ret None
  | model_path :: rest =>
      found <- path_exists model_path ;;
      if found then (p <- abspath model_path ;; ret (Some p))
      else first_existing rest
  end.

Definition _resolve_model_path : M (option string) :=
  cwd1 <- getcwd ;;
  cwd2 <- getcwd ;;
  first_existing (possible_paths cwd1 cwd2).

Definition set_model (m : option Model) : M unit :=
  c <- get_self ;;
  set_self {| model := m; model_loaded := model_loaded c; load_error := load_error c |}.

Definition set_model_loaded (b : bool) : M unit :=
  c <- get_self ;;
  set_self {| model := model c; model_loaded := b; load_error := load_error c |}.

Definition set_load_error (e : option string) : M unit :=
  c <- get_self ;;
  set_self {| model := model c; model_loaded := model_loaded c; load_error := e |}.

Definition load_keras (p : string) : M Model :=
  emit (EvLoadModel p) ;;; lift (keras_load_model env p).

Definition load_model : M bool :=
  c <- get_self ;;
  if model_loaded c then ret true
  else
    try_except
      (model_path <- _resolve_model_path ;;
       match model_path with
       | None =>
           set_load_error (Some "Model file not found in any expected location") ;;;
           set_model_loaded false ;;;
           ret false
       | Some model_path =>
           found <- path_exists model_path ;;
           if negb found then
             set_load_error
               (Some ("Model path resolved but file not found: " +:+ model_path)) ;;;
             set_model_loaded false ;;;
             ret false
           else
             file_size <- getsize model_path ;;
             m <- load_keras model_path ;;
             set_model (Some m) ;;;
             set_model_loaded true ;;;
             set_load_error None ;;;
             ret true
       end)
      (fun e =>
         set_load_error (Some ("Failed to load ML model: " +:+ exn_str e)) ;;;
         set_model None ;;;
         set_model_loaded false ;;;
         ret false).

Definition is_model_available (c : Classifier) : bool :=
  model_loaded c && match model c with Some _ => true | None => false end.

(** *** preprocess_image *)

Definition target_size : Z * Z := (224, 224).

(** [image.resize(target_size, Image.Resampling.LANCZOS)], and on
    [AttributeError] the spelling of older Pillow versions,
    [image.resize(target_size, Image.LANCZOS)]. *)
Definition resize_lanczos (image : Image) : Result Image :=
  match (if Image_has_Resampling env then Image_resize env image target_size
         else Raise (Exn AttributeError "module 'PIL.Image' has no attribute 'Resampling'")) with
  | Ok img => Ok img
  | Raise e =>
      match exn_class e with
      | AttributeError => Image_resize env image target_size
      | _ => Raise e
      end
  end.

(** Lines 185-187: [if image.mode != 'RGB': image = image.convert('RGB')]. *)
Definition to_rgb (image : Image) : Result Image :=
  if negb (String.eqb (mode image) "RGB") then Image_convert env image "RGB"
  else Ok image.

(** [Image.open], and on failure a second attempt with [verify]; [None] when
    both fail (lines 163-176). *)
Definition open_image (image_data : list byte) : option Image :=
  match Image_open env image_data with
  | Ok image => Some image
  | Raise first_error =>
      match (image <- Image_open env image_data ;;
             _ <- Image_verify env image ;;
             Image_open env image_data)%r with
      | Ok image => Some image
      | Raise second_error => None
      end
  end.

Definition preprocess_image (image_data : list byte) : option ndarray :=
  match image_data with
  | [] => None
  | _ =>
    match
      (if len image_data <? 100 then Ok None
       else
         match open_image image_data with
         | None => Ok None
         | Some image =>
             (image <- to_rgb image ;;
              image <- resize_lanczos image ;;
              let image_array := np_array image in
              if negb (bool_decide (shape image_array = [224; 224; 3])) then Ok None
              else
                let image_array := np_div image_array 255.0%Q in
                let image_array := np_expand_dims0 image_array in
                Ok (Some image_array))%r
         end)
    with
    | Ok r => r
    | Raise e => None
    end
  end.

(** *** validate_image_data *)

(** The formats of line 259 ([image.format] may be [None]). *)
Definition supported_formats : list (option string) :=
  [Some "JPEG"; Some "JPG"; Some "PNG"; Some "BMP"; Some "TIFF"].

Definition format_value (f : option string) : value :=
  match f with Some s => VStr s | None => VNone end.

Definition validate_image_data (image_data : list byte) : gmap string value :=
  match image_data with
  | [] =>
      mkdict [("valid", VBool false);
              ("error", VStr "No image data provided");
              ("size", VInt 0)]
  | _ =>
    match Image_open env image_data with
    | Ok image =>
        let info := mkdict [("valid", VBool true);
                            ("format", format_value (format image));
                            ("mode", VStr (mode image));
                            ("size", VTuple [VInt (fst (size image)); VInt (snd (size image))]);
                            ("file_size", VInt (len image_data))] in
        if 50 * 1024 * 1024 <? len image_data then
          <["error" := VStr "Image too large (>50MB)"]> (<["valid" := VBool false]> info)
        else if (fst (size image) <? 50) || (snd (size image) <? 50) then
          <["error" := VStr "Image too small (<50x50 pixels)"]> (<["valid" := VBool false]> info)
        else if negb (bool_decide (format image ∈ supported_formats)) then
          <["warning" := VStr ("Unusual image format: " +:+ py_str (format_value (format image)))]> info
        else info
    | Raise e =>
        mkdict [("valid", VBool false);
                ("error", VStr ("Invalid image data: " +:+ exn_str e));
                ("size", VInt (len image_data))]
    end
  end.

(** *** predict *)

(** The dictionary returned for empty input (lines 278-283). *)
Definition error_result_no_data : value :=
  VDict (mkdict [("disease", VStr "error");
                 ("confidence", VFloat 0.0%Q);
                 ("error", VStr "No image data provided");
                 ("success", VBool false)]).

(** The dictionary returned when validation fails (lines 297-303). *)
Definition error_result_invalid (validation_result : gmap string value) : value :=
  VDict (mkdict
    [("disease", VStr "error");
     ("confidence", VFloat 0.0%Q);
     ("error",
      VStr ("Invalid image: " +:+
            py_str (default (VStr "Unknown error") (validation_result !! "error"))));
     ("success", VBool false);
     ("validation_info", VDict validation_result)]).

(** The dictionary of a successful inference (lines 360-376). *)
Definition success_result (disease_key : string) (info : disease_entry)
    (confidence : Q) (meets_threshold : bool) (all_predictions : list value) : value :=
  VDict (mkdict
    [("disease", VStr disease_key);
     ("disease_name", VStr (name info));
     ("confidence", VFloat confidence);
     ("description", VStr (description info));
     ("success", VBool true);
     ("model_status", VStr "loaded");
     ("confidence_threshold_met", VBool meets_threshold);
     ("all_predictions", VList all_predictions)]).

(** One entry of the [all_predictions] comprehension (lines 369-374). *)
Definition prediction_entry (prediction_array : list Q) (i : Z) : Result value :=
  (cls <- list_getitem class_names i ;;
   score <- list_getitem prediction_array i ;;
   cls' <- list_getitem class_names i ;;
   entry <- getitem disease_info cls' ;;
   Ok (VDict (mkdict [("disease", VStr cls);
                      ("confidence", VFloat score);
                      ("disease_name", VStr (name entry))])))%r.

Definition fallback (reason : string) : M (value * bool) :=
  fb <- lift (_get_fallback_prediction reason) ;; ret (fb, false).

(** [self.model.predict(processed_image, verbose=0)] *)
Definition call_model (processed_image : ndarray) : M (option (list (list Q))) :=
  c <- get_self ;;
  match model c with
  | None => raise (Exn AttributeError "'NoneType' object has no attribute 'predict'")
  | Some m => emit EvModelPredict ;;; lift (model_predict m processed_image)
  end.

(** The clamp of lines 335-337. *)
Definition clamp_confidence (confidence : Q) : Q :=
  if negb (Qle_bool 0.0 confidence && Qle_bool confidence 1.0)
  then py_max 0.0 (py_min 1.0 confidence)
  else confidence.

(** Lines 350-358: the threshold test, then the margin between the two
    largest scores, a float32 difference that is compared with the setting
    ([settings] always has the attribute CONFIDENCE_MARGIN). *)
Definition threshold_and_margin (confidence : Q) (prediction_array : list Q) : bool :=
  let meets_threshold := Qle_bool (CONFIDENCE_THRESHOLD (settings env)) confidence in
  if meets_threshold then
    let sorted_predictions := rev (np_sort prediction_array) in
    match sorted_predictions with
    | s0 :: s1 :: _ =>
        let confidence_margin := float32_sub s0 s1 in
        meets_threshold &&
        float32_ge confidence_margin (CONFIDENCE_MARGIN (settings env))
    | _ => meets_threshold
    end
  else meets_threshold.

(** Lines 320-379: from the model's output to the result dictionary. *)
Definition interpret_predictions (predictions : option (list (list Q))) : M (value * bool) :=
  match predictions with
  | None | Some [] => fallback "No predictions from model"
  | Some (prediction_array :: _) =>
      if negb (len prediction_array =? len class_names) then
        fallback "Model output format mismatch"
      else
        predicted_class_idx <- lift (np_argmax prediction_array) ;;
        top <- lift (np_max prediction_array) ;;
        let confidence := clamp_confidence top in
        if (0 <=? predicted_class_idx) && (predicted_class_idx <? len class_names) then
          disease_key <- lift (list_getitem class_names predicted_class_idx) ;;
          let info :=
            default {| name := py_title (replace_underscore disease_key);
                       description := "Unknown disease" |}
                    (disease_info !! disease_key) in
          let meets_threshold := threshold_and_margin confidence prediction_array in
          all_predictions <-
            lift (rmapM (prediction_entry prediction_array)
                        (seqZ 0 (len class_names))) ;;
          ret (success_result disease_key info confidence meets_threshold
                              all_predictions,
               meets_threshold)
        else fallback "Invalid prediction result"
  end.

(** The body of the [try] of lines 306-379. *)
Definition predict_try (image_data : list byte) : M (value * bool) :=
  match preprocess_image image_data with
  | None => fallback "Image preprocessing failed"
  | Some processed_image =>
      r <- try_except
             (predictions <- call_model processed_image ;; ret (inl predictions))
             (fun predict_error =>
                out <- fallback "Model prediction failed" ;; ret (inr out)) ;;
      match r with
      | inr out => ret out
      | inl predictions => interpret_predictions predictions
      end
  end.

Definition predict (image_data : list byte) : M (value * bool) :=
  match image_data with
  | [] =>
      ret (error_result_no_data, false)
  | _ =>
      c <- get_self ;;
      loaded <- (if negb (is_model_available c) then load_model else ret true) ;;
      if negb loaded then fallback "Model not available"
      else
        let validation_result := validate_image_data image_data in
        valid <- lift (getitem validation_result "valid") ;;
        if negb (truthy valid) then
          ret (error_result_invalid validation_result, false)
        else
          try_except (predict_try image_data)
            (fun e => fallback ("Prediction error: " +:+ exn_str e))
  end.

End Classifier.

(** ** Test doubles

    A small concrete environment on which the definitions can be run: a
    file system holding one model file, a toy image decoder and a model with
    a fixed output. *)

Module Demo.

(** A mid-grey image of the given mode and size, held in memory. *)
Definition grey (fmt : option string) (m : string) (sz : Z * Z) : Image :=
  {| format := fmt;
     mode := m;
     size := sz;
     pixels := repeat x80 (Z.to_nat (fst sz * snd sz * mode_bands m)) |}.

(** The toy container: a tag, the width and the height, one byte each.
    Tag 0 is an RGB JPEG, 1 an RGB PNG, 2 a palette GIF, 3 a greyscale PNG. *)
Definition toy_open (image_data : list byte) : Result Image :=
  match image_data with
  | tag :: w :: h :: _ =>
      let sz := (Z.of_N (Byte.to_N w), Z.of_N (Byte.to_N h)) in
      match Byte.to_N tag with
      | 0%N => Ok (grey (Some "JPEG") "RGB" sz)
      | 1%N => Ok (grey (Some "PNG") "RGB" sz)
      | 2%N => Ok (grey (Some "GIF") "P" sz)
      | 3%N => Ok (grey (Some "PNG") "L" sz)
      | _ => Raise (Exn OSError "cannot identify image file")
      end
  | _ => Raise (Exn OSError "cannot identify image file")
  end.

Definition toy_convert (image : Image) (m : string) : Result Image :=
  if (0 <=? fst (size image)) && (0 <=? snd (size image))
  then Ok (grey None m (size image))
  else Raise (Exn ValueError "negative image size").

Definition toy_resize (image : Image) (sz : Z * Z) : Result Image :=
  if (0 <? fst sz) && (0 <? snd sz)
  then Ok (grey None (mode image) sz)
  else Raise (Exn ValueError "height and width must be > 0").

Definition fixed_model (row : list Q) : Model :=
  {| model_predict := fun _ => Ok (Some [row]) |}.

Definition model_file : string := "/srv/riceguard/backend/ml/model.h5".

(** An environment whose file system holds the files listed in [files] and
    whose model file deserialises to a model answering [row]. *)
Definition env_with (cfg : Settings) (files : list string) (row : list Q) : Env :=
  {| settings := cfg;
     module_file := "/srv/riceguard/backend/app/services/ml_service.py";
     os_getcwd := Ok "/srv/riceguard/backend";
     os_path_exists := fun p => bool_decide (p ∈ files);
     os_path_getsize := fun p => Ok 4194304;
     os_path_normpath := fun p => p;
     keras_load_model := fun p => Ok (fixed_model row);
     Image_open := toy_open;
     Image_verify := fun _ => Ok tt;
     Image_convert := toy_convert;
     Image_resize := toy_resize;
     Image_has_Resampling := true |}.

Definition env0 : Env :=
  env_with default_settings [model_file] [0.1; 0.1; 0.6; 0.1; 0.1]%Q.

(** No model file anywhere. *)
Definition env_absent : Env :=
  env_with default_settings [] [0.1; 0.1; 0.6; 0.1; 0.1]%Q.

(** The model path is configured explicitly and absolutely, and both the
    configured file and the built-in guess under the working directory exist. *)
Definition configured_file : string := "/opt/models/rice.h5".

Definition env_configured : Env :=
  env_with {| MODEL_PATH := configured_file;
              CONFIDENCE_THRESHOLD := 0.50%Q;
              CONFIDENCE_MARGIN := 0.30%Q |}
           [model_file; configured_file] [0.1; 0.1; 0.6; 0.1; 0.1]%Q.

(** The upload opens, but its data is cut short: Pillow decodes lazily and
    raises only when the pixels are needed, here in [resize]. *)
Definition env_truncated : Env :=
  {| settings := default_settings;
     module_file := "/srv/riceguard/backend/app/services/ml_service.py";
     os_getcwd := Ok "/srv/riceguard/backend";
     os_path_exists := fun p => bool_decide (p ∈ [model_file]);
     os_path_getsize := fun p => Ok 4194304;
     os_path_normpath := fun p => p;
     keras_load_model := fun p => Ok (fixed_model [0.1; 0.1; 0.6; 0.1; 0.1]%Q);
     Image_open := toy_open;
     Image_verify := fun _ => Ok tt;
     Image_convert := toy_convert;
     Image_resize := fun _ _ => Raise (Exn OSError "image file is truncated");
     Image_has_Resampling := true |}.

Definition world0 : World := {| self := __init__; trace := [] |}.

(** A 100-byte upload in the toy container. *)
Definition upload (tag w h : byte) : list byte :=
  tag :: w :: h :: repeat x00 97.

Definition jpeg_200x200 : list byte := upload x00 xc8 xc8.
Definition gif_200x200 : list byte := upload x02 xc8 xc8.
Definition jpeg_40x200 : list byte := upload x00 x28 xc8.
Definition grey_png_60x60 : list byte := upload x03 x3c x3c.
Definition garbage : list byte := upload x09 xc8 xc8.

(** Result, flag and final world of a run of predict on a fresh classifier. *)
Definition run (env : Env) (image_data : list byte) : Result (value * bool) * World :=
  predict env image_data world0.

Definition result_of (env : Env) (image_data : list byte) : value :=
  match fst (run env image_data) with
  | Ok (res, _) => res
  | Raise _ => VNone
  end.

Definition flag_of (env : Env) (image_data : list byte) : bool :=
  match fst (run env image_data) with
  | Ok (_, flag) => flag
  | Raise _ => false
  end.

Definition world_of (env : Env) (image_data : list byte) : World :=
  snd (run env image_data).

End Demo.

(** * Specification vocabulary

    Readers of result dictionaries, the outcomes of the methods and the
    notions the statements below are phrased in. *)

(** The entry [k] of a result dictionary, if present. *)
Definition field (k : string) (v : value) : option value :=
  match v with
  | VDict d => d !! k
  | _ => None
  end.

(** The [(disease, confidence)] pairs of a list of per-class entries. *)
Definition score_pairs (entries : list value) : option (list (string * Q)) :=
  mapM (fun e =>
          match field "disease" e, field "confidence" e with
          | Some (VStr d), Some (VFloat q) => Some (d, q)
          | _, _ => None
          end) entries.

(** The score table of a result: its [all_predictions] entry, read as
    [(disease, confidence)] pairs. *)
Definition all_scores (res : value) : option (list (string * Q)) :=
  match field "all_predictions" res with
  | Some (VList entries) => score_pairs entries
  | _ => None
  end.

(** [os.path.abspath] when the working directory is [cwd]. *)
Definition abspath_in (env : Env) (cwd p : string) : string :=
  os_path_normpath env (if os_path_isabs p then p else os_path_join cwd [p]).

(** The file system holds no model file at all. *)
Definition no_model_file (env : Env) : Prop :=
  forall p, os_path_exists env p = false.

(** The candidate list of the source, written out. *)
Definition candidates (env : Env) (cwd : string) : list string :=
  let here := os_path_dirname (module_file env) in
  let model_path := MODEL_PATH (settings env) in
  [ os_path_join cwd ["ml"; "model.h5"];
    os_path_join (os_path_dirname cwd) ["ml"; "model.h5"];
    os_path_join here [".."; ".."; "ml"; "model.h5"];
    os_path_join here [".."; ".."; model_path];
    os_path_join here [".."; ".."; ".."; "riceguard"; "ml"; "model.h5"] ]
  ++ (if os_path_isabs model_path then [model_path] else []).

(** What a call of load_model does when the model is not yet loaded, read
    off the outcome of the path resolution and of the library calls. *)
Inductive load_outcome (env : Env) (w : World) : bool -> World -> Prop :=
  | load_resolve_raised e w1 :
      _resolve_model_path env w = (Raise e, w1) ->
      load_outcome env w false
        {| self := {| model := None; model_loaded := false;
                      load_error := Some ("Failed to load ML model: " +:+ exn_str e) |};
           trace := trace w1 |}
  | load_not_found w1 :
      _resolve_model_path env w = (Ok None, w1) ->
      load_outcome env w false
        {| self := {| model := model (self w); model_loaded := false;
                      load_error := Some "Model file not found in any expected location" |};
           trace := trace w1 |}
  | load_vanished p w1 :
      _resolve_model_path env w = (Ok (Some p), w1) ->
      os_path_exists env p = false ->
      load_outcome env w false
        {| self := {| model := model (self w); model_loaded := false;
                      load_error :=
                        Some ("Model path resolved but file not found: " +:+ p) |};
           trace := trace w1 ++ [EvExists p] |}
  | load_getsize_raised p w1 e :
      _resolve_model_path env w = (Ok (Some p), w1) ->
      os_path_exists env p = true ->
      os_path_getsize env p = Raise e ->
      load_outcome env w false
        {| self := {| model := None; model_loaded := false;
                      load_error := Some ("Failed to load ML model: " +:+ exn_str e) |};
           trace := trace w1 ++ [EvExists p; EvGetsize p] |}
  | load_deserialize_raised p w1 sz e :
      _resolve_model_path env w = (Ok (Some p), w1) ->
      os_path_exists env p = true ->
      os_path_getsize env p = Ok sz ->
      keras_load_model env p = Raise e ->
      load_outcome env w false
        {| self := {| model := None; model_loaded := false;
                      load_error := Some ("Failed to load ML model: " +:+ exn_str e) |};
           trace := trace w1 ++ [EvExists p; EvGetsize p; EvLoadModel p] |}
  | load_success p w1 sz m :
      _resolve_model_path env w = (Ok (Some p), w1) ->
      os_path_exists env p = true ->
      os_path_getsize env p = Ok sz ->
      keras_load_model env p = Ok m ->
      load_outcome env w true
        {| self := {| model := Some m; model_loaded := true; load_error := None |};
           trace := trace w1 ++ [EvExists p; EvGetsize p; EvLoadModel p] |}.

(** The state invariant: a classifier flagged as loaded holds a model. *)
Definition loaded_has_model (c : Classifier) : Prop :=
  model_loaded c = true -> model c <> None.

(** The dictionary the fallback generator returns for [reason]. *)
Definition fallback_result (reason : string) : value :=
  match _get_fallback_prediction reason with
  | Ok res => res
  | Raise _ => VNone
  end.

(** Result and flag of a successful inference on the score row [row]. *)
Definition success_outcome (env : Env) (row : list Q) (key : string) (top : Q)
    (entries : list value) : value * bool :=
  let confidence := clamp_confidence top in
  let meets_threshold := threshold_and_margin env confidence row in
  (success_result key
     (default {| name := py_title (replace_underscore key);
                 description := "Unknown disease" |}
              (disease_info !! key))
     confidence meets_threshold entries,
   meets_threshold).

(** The verdict of the coarse validation on non-empty input: the bytes must
    open as an image, be at most 50MB, and be at least 50 pixels wide and
    high.  The format does not enter the verdict. *)
Definition coarse_verdict (env : Env) (image_data : list byte) : bool :=
  match Image_open env image_data with
  | Ok image =>
      negb (50 * 1024 * 1024 <? len image_data) &&
      negb ((fst (size image) <? 50) || (snd (size image) <? 50))
  | Raise _ => false
  end.

(** The outcomes of the [try] block: a fallback, with or without a call of
    the model, or a successful inference. *)
Inductive try_outcome (env : Env) (image_data : list byte) (w : World)
    : value * bool -> World -> Prop :=
  | try_fallback_before reason :
      try_outcome env image_data w (fallback_result reason, false) w
  | try_fallback_after reason x :
      preprocess_image env image_data = Some x ->
      try_outcome env image_data w (fallback_result reason, false)
        {| self := self w; trace := trace w ++ [EvModelPredict] |}
  | try_success x m row rest idx key top entries :
      preprocess_image env image_data = Some x ->
      model (self w) = Some m ->
      model_predict m x = Ok (Some (row :: rest)) ->
      len row = len class_names ->
      np_argmax row = Ok idx ->
      class_names !! Z.to_nat idx = Some key ->
      np_max row = Ok top ->
      score_pairs entries = Some (zip class_names row) ->
      try_outcome env image_data w (success_outcome env row key top entries)
        {| self := self w; trace := trace w ++ [EvModelPredict] |}.

(** The model is available for this call: it was already, or loading it
    succeeded now. *)
Definition model_ready (env : Env) (w w1 : World) : Prop :=
  (is_model_available (self w) = true /\ w1 = w) \/
  (is_model_available (self w) = false /\ load_model env w = (Ok true, w1)).

(** The outcomes of predict: the empty-input error, the fallback for an
    unavailable model, the validation error, or the outcome of the [try]
    block. *)
Inductive predict_outcome (env : Env) (image_data : list byte) (w : World)
    : value * bool -> World -> Prop :=
  | out_no_data :
      image_data = [] ->
      predict_outcome env image_data w (error_result_no_data, false) w
  | out_unavailable w1 :
      image_data <> [] ->
      is_model_available (self w) = false ->
      load_model env w = (Ok false, w1) ->
      predict_outcome env image_data w
        (fallback_result "Model not available", false) w1
  | out_invalid w1 :
      image_data <> [] ->
      model_ready env w w1 ->
      coarse_verdict env image_data = false ->
      predict_outcome env image_data w
        (error_result_invalid (validate_image_data env image_data), false) w1
  | out_inference w1 out w2 :
      image_data <> [] ->
      model_ready env w w1 ->
      coarse_verdict env image_data = true ->
      try_outcome env image_data w1 out w2 ->
      predict_outcome env image_data w out w2.

(** The result is one of the two error dictionaries. *)
Definition error_flavoured (res : value) : Prop :=
  field "disease" res = Some (VStr "error") /\
  field "success" res = Some (VBool false) /\
  (exists msg, field "error" res = Some (VStr msg)) /\
  field "fallback_reason" res = None /\
  field "all_predictions" res = None.

(** The result is a successful inference or a fallback, with the full
    per-class breakdown. *)
Definition full_breakdown (res : value) : Prop :=
  (field "success" res = Some (VBool true) \/
   exists reason, field "success" res = Some (VBool false) /\
                  field "fallback_reason" res = Some (VStr reason)) /\
  (exists d, field "disease" res = Some (VStr d) /\ d ∈ class_names) /\
  exists scores, all_scores res = Some scores /\
                 length scores = length class_names /\
                 scores.*1 = class_names.

(** The classifier states that can arise: after construction, and after any
    call of load_model or predict, in any environment. *)
Inductive reachable : Classifier -> Prop :=
  | reach_init : reachable __init__
  | reach_load_model env w :
      reachable (self w) -> reachable (self (snd (load_model env w)))
  | reach_predict env image_data w :
      reachable (self w) -> reachable (self (snd (predict env image_data w))).

(** No call of the model among the events. *)
Definition no_model_call (evs : list event) : Prop :=
  Forall (fun ev => ev <> EvModelPredict) evs.

(** The message of the coarse validation, if it refuses the input. *)
Definition coarse_error (env : Env) (image_data : list byte) : option string :=
  match Image_open env image_data with
  | Raise e => Some ("Invalid image data: " +:+ exn_str e)
  | Ok image =>
      if 50 * 1024 * 1024 <? len image_data then Some "Image too large (>50MB)"
      else if (fst (size image) <? 50) || (snd (size image) <? 50)
           then Some "Image too small (<50x50 pixels)"
           else None
  end.

(** predict refuses the input with the validation message [msg]: the flag is
    false, the result is unsuccessful and carries the message, and the world
    is the one left by the model-availability step, [w1]: the model was not
    called. *)
Definition refused (env : Env) (image_data : list byte) (w w1 : World)
    (msg : string) : Prop :=
  exists res,
    predict env image_data w = (Ok (res, false), w1) /\
    field "success" res = Some (VBool false) /\
    field "error" res = Some (VStr ("Invalid image: " +:+ msg)) /\
    exists evs, trace w1 = trace w ++ evs /\ no_model_call evs.

(** predict, called in world [w] with the model ready in world [w1], goes
    through preprocessing and inference: the result is settled by
    preprocess_image, the model held in [w1] and the output of the model,
    which is called exactly when preprocessing gave an array. *)
Definition inference (env : Env) (image_data : list byte) (w w1 : World) : Prop :=
  let called := {| self := self w1; trace := trace w1 ++ [EvModelPredict] |} in
  let falls_back reason w' :=
    predict env image_data w = (Ok (fallback_result reason, false), w') in
  (preprocess_image env image_data = None ->
     falls_back "Image preprocessing failed" w1) /\
  forall x, preprocess_image env image_data = Some x ->
    (model (self w1) = None -> falls_back "Model prediction failed" w1) /\
    forall m, model (self w1) = Some m ->
      (forall e, model_predict m x = Raise e ->
         falls_back "Model prediction failed" called) /\
      (model_predict m x = Ok None \/ model_predict m x = Ok (Some []) ->
         falls_back "No predictions from model" called) /\
      (forall row rest, model_predict m x = Ok (Some (row :: rest)) ->
         len row <> len class_names ->
         falls_back "Model output format mismatch" called) /\
      (forall row rest, model_predict m x = Ok (Some (row :: rest)) ->
         len row = len class_names ->
         exists res flag,
           predict env image_data w = (Ok (res, flag), called) /\
           field "success" res = Some (VBool true) /\
           all_scores res = Some (zip class_names row)).

(** The raster holds one sample per pixel and band. *)
Definition raster_ok (image : Image) : Prop :=
  len (pixels image) = fst (size image) * snd (size image) * mode_bands (mode image).

(** What the code relies on from Pillow: [convert] yields an image of the
    requested mode, [resize] one of the requested size and of the same mode,
    both with a complete raster. *)
Record PIL_contract (env : Env) : Prop := {
  convert_ok : forall image m image',
    Image_convert env image m = Ok image' ->
    mode image' = m /\ size image' = size image /\ raster_ok image';
  resize_ok : forall image sz image',
    Image_resize env image sz = Ok image' ->
    mode image' = mode image /\ size image' = sz /\ raster_ok image'
}.


(** * Further code of the repository *)

(** ** ml_service.py: get_model_status and get_service_health *)

Section Status.

Variable env : Env.

(** [str(os.path.getmtime(path))]; the call is not recorded in the trace. *)
Variable getmtime_str : string -> Result string.

Local Open Scope m_scope.

Definition get_model_status : M (gmap string value) :=
  c <- get_self ;;
  model_path <-
    (if negb (model_loaded c)
     then p <- _resolve_model_path env ;; ret (format_value p)
     else ret (VStr "Loaded")) ;;
  ret (mkdict [("model_loaded", VBool (model_loaded c));
               ("model_available", VBool (is_model_available c));
               ("load_error", format_value (load_error c));
               ("model_path", model_path)]).

Definition get_service_health : M (gmap string value) :=
  model_status <- get_model_status ;;
  available <- lift (getitem model_status "model_available") ;;
  timestamp <- lift (getmtime_str (module_file env)) ;;
  let health_status :=
    mkdict [("service", VStr "ml_classifier");
            ("status", VStr (if truthy available then "healthy" else "degraded"));
            ("model", VDict model_status);
            ("class_count", VInt (len class_names));
            ("supported_formats",
             VList [VStr "JPEG"; VStr "JPG"; VStr "PNG"; VStr "BMP"; VStr "TIFF"]);
            ("target_image_size", VTuple [VInt 224; VInt 224]);
            ("confidence_threshold", VFloat (CONFIDENCE_THRESHOLD (settings env)));
            ("timestamp", VStr timestamp)] in
  ret (<["confidence_margin" := VFloat (CONFIDENCE_MARGIN (settings env))]>
         health_status).

End Status.

(** ** Vocabulary for the further properties *)

(** What a load attempt yields, read off the environment and the result [r]
    of the path resolution: the returned flag and the new load_error. *)
Definition load_verdict (env : Env) (r : Result (option string))
    : bool * option string :=
  match r with
  | Raise e => (false, Some ("Failed to load ML model: " +:+ exn_str e))
  | Ok None => (false, Some "Model file not found in any expected location")
  | Ok (Some p) =>
      if os_path_exists env p then
        match os_path_getsize env p with
        | Raise e => (false, Some ("Failed to load ML model: " +:+ exn_str e))
        | Ok _ =>
            match keras_load_model env p with
            | Raise e => (false, Some ("Failed to load ML model: " +:+ exn_str e))
            | Ok _ => (true, None)
            end
        end
      else (false, Some ("Model path resolved but file not found: " +:+ p))
  end.

(** ** ml_service_simple.py: the classifier the API imports

    [TENSORFLOW_AVAILABLE] is the module constant set by the guarded import
    at the top of the file. *)

Module Simple.

Section Classifier.

Variable TENSORFLOW_AVAILABLE : bool.
Variable settings : Settings.

Local Open Scope m_scope.

Definition load_model : M bool :=
  if negb TENSORFLOW_AVAILABLE then
    set_load_error (Some "TensorFlow not available") ;;;
    set_model_loaded false ;;;
    ret false
  else
    set_model_loaded false ;;;
    set_load_error (Some "Model loading not implemented in fallback mode") ;;;
    ret false.

Definition is_model_available (c : Classifier) : bool :=
  TENSORFLOW_AVAILABLE && model_loaded c &&
  match model c with Some _ => true | None => false end.

Definition _get_fallback_prediction (reason : string) : Result value :=
  (all_predictions <-
     rmapM (fun disease =>
              info <- getitem disease_info disease ;;
              Ok (VDict (mkdict
                    [("disease", VStr disease);
                     ("confidence",
                      VFloat (if negb (String.eqb disease "healthy")
                              then 0.2 else 0.5)%Q);
                     ("disease_name", VStr (name info))])))
           class_names ;;
   Ok (VDict (mkdict
         [("disease", VStr "healthy");
          ("disease_name", VStr "Healthy Leaf");
          ("confidence", VFloat 0.5%Q);
          ("description",
           VStr "ML model not available - defaulting to healthy classification");
          ("success", VBool false);
          ("fallback_reason", VStr reason);
          ("model_status", VStr "unavailable");
          ("confidence_threshold_met", VBool false);
          ("all_predictions", VList all_predictions)])))%r.

Definition predict (image_data : list byte) : M (value * bool) :=
  c <- get_self ;;
  if negb TENSORFLOW_AVAILABLE || negb (is_model_available c) then
    fb <- lift (_get_fallback_prediction "ML model not available") ;;
    ret (fb, false)
  else
    fb <- lift (_get_fallback_prediction "Model prediction not implemented") ;;
    ret (fb, false).

Definition get_service_health : M (gmap string value) :=
  c <- get_self ;;
  ret (mkdict
         [("service", VStr "ml_classifier");
          ("status", VStr (if negb TENSORFLOW_AVAILABLE then "degraded" else "healthy"));
          ("tensorflow_available", VBool TENSORFLOW_AVAILABLE);
          ("model_loaded", VBool (model_loaded c));
          ("load_error", format_value (load_error c));
          ("class_count", VInt (len class_names));
          ("confidence_threshold", VFloat (CONFIDENCE_THRESHOLD settings))]).

End Classifier.

(** The states of the simple classifier that can arise. *)
Inductive reachable (tf : bool) : Classifier -> Prop :=
  | reach_init : reachable tf __init__
  | reach_load_model w :
      reachable tf (self w) -> reachable tf (self (snd (load_model tf w)))
  | reach_predict image_data w :
      reachable tf (self w) -> reachable tf (self (snd (predict tf image_data w))).

End Simple.

(** ** api/v1/scans.py: from a prediction result to the stored predictions
    (create_scan, lines 143-151) *)

Record DiseasePrediction : Type := {
  dp_disease : string;
  dp_confidence : Q;
  dp_description : option string
}.

(** [type(v).__name__] *)
Definition type_name (v : value) : string :=
  match v with
  | VNone => "NoneType"
  | VBool _ => "bool"
  | VInt _ => "int"
  | VFloat _ => "float"
  | VStr _ => "str"
  | VTuple _ => "tuple"
  | VList _ => "list"
  | VDict _ => "dict"
  end.

(** [v[k]] for a string key [k]: only a dictionary can be indexed so. *)
Definition subscript (v : value) (k : string) : Result value :=
  match v with
  | VDict d => getitem d k
  | VStr _ => Raise (Exn TypeError "string indices must be integers, not 'str'")
  | VList _ | VTuple _ =>
      Raise (Exn TypeError (type_name v +:+ " indices must be integers or slices, not str"))
  | _ => Raise (Exn TypeError ("'" +:+ type_name v +:+ "' object is not subscriptable"))
  end.

(** The elements a [for] loop sees.  A dictionary yields its keys (here in
    the order of the finite map, not of insertion). *)
Definition iterate (v : value) : Result (list value) :=
  match v with
  | VList l | VTuple l => Ok l
  | VStr s => Ok ((fun c => VStr (String c EmptyString)) <$> list_ascii_of_string s)
  | VDict d => Ok ((fun kv => VStr (fst kv)) <$> map_to_list d)
  | _ => Raise (Exn TypeError ("'" +:+ type_name v +:+ "' object is not iterable"))
  end.

(** The bound method [v.get] of a dictionary. *)
Definition get_method (v : value) : Result (string -> value -> value) :=
  match v with
  | VDict d => Ok (fun k dflt => default dflt (d !! k))
  | _ => Raise (Exn AttributeError
                  ("'" +:+ type_name v +:+ "' object has no attribute 'get'"))
  end.

(** [s.replace("_", " ").title()] as a method call on a value. *)
Definition title_of (v : value) : Result value :=
  match v with
  | VStr s => Ok (VStr (py_title (replace_underscore s)))
  | _ => Raise (Exn AttributeError
                  ("'" +:+ type_name v +:+ "' object has no attribute 'replace'"))
  end.

Section Scans.

(** The constructor of the pydantic model, [DiseasePrediction(disease=...,
    confidence=..., description=...)], with its validation. *)
Variable make_prediction : value -> value -> value -> Result DiseasePrediction.

Definition build_predictions (prediction_result : value)
    : Result (list DiseasePrediction) :=
  (all_predictions <- subscript prediction_result "all_predictions" ;;
   preds <- iterate all_predictions ;;
   rmapM (fun pred =>
            disease <- subscript pred "disease" ;;
            confidence <- subscript pred "confidence" ;;
            get <- get_method pred ;;
            disease' <- subscript pred "disease" ;;
            fallback_name <- title_of disease' ;;
            make_prediction disease confidence (get "disease_name" fallback_name))
         preds)%r.

End Scans.

(** What the code relies on from pydantic: a string, a float and a string
    are accepted as they are. *)
Definition pydantic_contract
    (make_prediction : value -> value -> value -> Result DiseasePrediction) : Prop :=
  forall d c s,
    make_prediction (VStr d) (VFloat c) (VStr s) =
      Ok {| dp_disease := d; dp_confidence := c; dp_description := Some s |}.

(** The stored prediction of one class. *)
Definition class_prediction (d : string) (q : Q) : DiseasePrediction :=
  {| dp_disease := d;
     dp_confidence := q;
     dp_description := name <$> disease_info !! d |}.

(** One entry of a score table, as both classifiers build it. *)
Definition table_entry (d : string) (q : Q) : value :=
  VDict (mkdict [("disease", VStr d);
                 ("confidence", VFloat q);
                 ("disease_name",
                  VStr (default "" (name <$> disease_info !! d)))]).

(** The result carries the score table of the row [row]. *)
Definition class_table (res : value) (row : list Q) : Prop :=
  length row = length class_names /\
  field "all_predictions" res = Some (VList (zip_with table_entry class_names row)).

(** A stand-in for the pydantic constructor, for concrete runs. *)
Module ScanDemo.

Definition make_prediction (disease confidence description : value)
    : Result DiseasePrediction :=
  match disease, confidence, description with
  | VStr d, VFloat c, VStr s =>
      Ok {| dp_disease := d; dp_confidence := c; dp_description := Some s |}
  | VStr d, VFloat c, VNone =>
      Ok {| dp_disease := d; dp_confidence := c; dp_description := None |}
  | _, _, _ => Raise (Exn ValueError "validation error for DiseasePrediction")
  end.

End ScanDemo.

(** ** api/v1/scans.py: checks on the upload's name, type and notes

    A string stands for the Python string with the same code points, all
    below 256; the helpers below are [str] methods and [re.sub] patterns on
    such strings. *)

Record HTTPException : Type := { status_code : Z; detail : string }.

Definition HTTP_400_BAD_REQUEST : Z := 400.

(** The double quote, which the patterns of this file mention. *)
Definition dquote : ascii := ascii_of_nat 34.

(** [c.isspace()] *)
Definition isspace (c : ascii) : bool :=
  let n := nat_of_ascii c in
  ((9 <=? n) && (n <=? 13) || (28 <=? n) && (n <=? 32) || (n =? 133) || (n =? 160))%nat.

(** [s.strip()] *)
Definition py_strip (s : string) : string :=
  string_of_list_ascii
    (rev (drop_while isspace (rev (drop_while isspace (list_ascii_of_string s))))).

(** [c.lower()]: the letters A-Z and the capital letters of Latin-1. *)
Definition lower_char (c : ascii) : ascii :=
  let n := nat_of_ascii c in
  if ((65 <=? n) && (n <=? 90) ||
      (192 <=? n) && (n <=? 222) && negb (n =? 215))%nat
  then ascii_of_nat (n + 32) else c.

Fixpoint py_lower (s : string) : string :=
  match s with
  | EmptyString => EmptyString
  | String c r => String (lower_char c) (py_lower r)
  end.

(** [re.sub('[...]', repl, s)] for a class of single characters: every
    character of the class is replaced by [repl]. *)
Fixpoint re_sub_class (class : list ascii) (repl : string) (s : string) : string :=
  match s with
  | EmptyString => EmptyString
  | String c r =>
      if bool_decide (c ∈ class) then repl +:+ re_sub_class class repl r
      else String c (re_sub_class class repl r)
  end.

(** The second substitution of validate_filename: the occurrences of two
    dots are replaced by an underscore, from the left, without overlap. *)
Fixpoint re_sub_dotdot (s : string) : string :=
  match s with
  | EmptyString => EmptyString
  | String c r =>
      match r with
      | String c' r' =>
          if Ascii.eqb c "." && Ascii.eqb c' "."
          then String "_" (re_sub_dotdot r')
          else String c (re_sub_dotdot r)
      | EmptyString => String c EmptyString
      end
  end.

(** [s.rfind(c)]: the last index of [c], or -1. *)
Fixpoint rfind_from (c : ascii) (i : Z) (found : Z) (s : string) : Z :=
  match s with
  | EmptyString => found
  | String x r => rfind_from c (i + 1) (if Ascii.eqb x c then i else found) r
  end.

Definition rfind (c : ascii) (s : string) : Z := rfind_from c 0 (-1) s.

(** The loop of [genericpath._splitext]: is there a character other than a
    dot among [l]? *)
Fixpoint skip_leading_dots (l : list ascii) : bool :=
  match l with
  | [] => false
  | c :: r => if negb (Ascii.eqb c ".") then true else skip_leading_dots r
  end.

(** [os.path.splitext] (POSIX flavour). *)
Definition os_path_splitext (p : string) : string * string :=
  let sepIndex := rfind "/" p in
  let dotIndex := rfind "." p in
  let chars := list_ascii_of_string p in
  if (sepIndex <? dotIndex) &&
     skip_leading_dots
       (take (Z.to_nat (dotIndex - (sepIndex + 1))) (drop (Z.to_nat (sepIndex + 1)) chars))
  then (string_of_list_ascii (take (Z.to_nat dotIndex) chars),
        string_of_list_ascii (drop (Z.to_nat dotIndex) chars))
  else (p, "").

(** [sep.join(l)] *)
Fixpoint str_join (sep : string) (l : list string) : string :=
  match l with
  | [] => ""
  | [x] => x
  | x :: r => x +:+ sep +:+ str_join sep r
  end.

Definition ALLOWED_EXTENSIONS : list string :=
  [".jpg"; ".jpeg"; ".png"; ".gif"; ".bmp"; ".webp"].

(** The character class of the first substitution of validate_filename:
    angle brackets, colon, double quote, slash, backslash, bar, question
    mark and star. *)
Definition filename_specials : list ascii :=
  ["<"; ">"; ":"; dquote; "/"; "\"; "|"; "?"; "*"]%char.

(** The character class removed from the notes: angle brackets, double
    quote and single quote. *)
Definition notes_specials : list ascii := ["<"; ">"; dquote; "'"]%char.

Section Uploads.

(** The order in which the set ALLOWED_EXTENSIONS is iterated; it varies
    from one interpreter run to the next. *)
Variable extensions_in_set_order : list string.

Definition validate_filename (filename : option string) : HTTPException + string :=
  match filename with
  | None | Some EmptyString =>
      inl {| status_code := HTTP_400_BAD_REQUEST; detail := "Filename is required" |}
  | Some filename =>
      let file_extension := py_lower (snd (os_path_splitext filename)) in
      if negb (bool_decide (file_extension ∈ ALLOWED_EXTENSIONS)) then
        inl {| status_code := HTTP_400_BAD_REQUEST;
               detail := "File type " +:+ file_extension +:+
                         " not allowed. Allowed types: " +:+
                         str_join ", " extensions_in_set_order |}
      else
        let sanitized_name := re_sub_class filename_specials "_" filename in
        let sanitized_name := re_sub_dotdot sanitized_name in
        if 255 <? len (list_ascii_of_string sanitized_name) then
          inl {| status_code := HTTP_400_BAD_REQUEST;
                 detail := "Filename too long (max 255 characters)" |}
        else inr sanitized_name
  end.

End Uploads.

(** create_scan, lines 102-113: the notes of the request. *)
Definition create_scan_notes (notes : option string) : HTTPException + option string :=
  match notes with
  | None => inr None
  | Some notes =>
      let notes := py_strip notes in
      if 1000 <? len (list_ascii_of_string notes) then
        inl {| status_code := HTTP_400_BAD_REQUEST;
               detail := "Notes too long (max 1000 characters)" |}
      else
        let notes := re_sub_class notes_specials "" notes in
        if negb (truthy (VStr notes)) then inr None else inr (Some notes)
  end.

(** The string has no two dots in a row. *)
Fixpoint no_dotdot (s : string) : bool :=
  match s with
  | EmptyString => true
  | String c r =>
      match r with
      | String c' _ => negb (Ascii.eqb c "." && Ascii.eqb c' ".") && no_dotdot r
      | EmptyString => true
      end
  end.

(** No character of the string is in [class]. *)
Definition free_of (class : list ascii) (s : string) : Prop :=
  forall c, c ∈ list_ascii_of_string s -> c ∉ class.

(** * Properties *)

(** ** Sanity checks of the library models *)

Example title_ex : py_title (replace_underscore "leaf_blast") = "Leaf Blast".
Proof. reflexivity. Qed.
Example dirname_ex : os_path_dirname "/srv/app/backend" = "/srv/app"
  /\ os_path_dirname "/x" = "/" /\ os_path_dirname "x" = "" /\ os_path_dirname "//x//y" = "//x".
Proof. repeat split; reflexivity. Qed.
Example join_ex : os_path_join "/a/b" ["..";"..";"/abs/m.h5"] = "/abs/m.h5"
 /\ os_path_join "/a/b" ["..";"ml"] = "/a/b/../ml" /\ os_path_join "" ["..";"ml"] = "../ml".
Proof. repeat split; reflexivity. Qed.
Example sort_ex : np_sort [0.1;0.6;0.1;0.3]%Q = [0.1;0.1;0.3;0.6]%Q /\ np_argmax [0.1;0.6;0.6]%Q = Ok 1.
Proof. split; reflexivity. Qed.

(** ** float32 rounding *)
























Example float32_ex :
  float32_nearest (1 # 10) = (13421773 # 134217728)%Q /\
  float32_sub (1 # 2) (13421773 # 67108864) = F32 (10066330 # 33554432) /\
  float32_round (inject_Z (2 ^ 128 - 2 ^ 103)) = F32_inf /\
  float32_nearest (3 # 2 ^ 151) = (1 # 2 ^ 149)%Q.
Proof. repeat split; vm_compute; reflexivity. Qed.

(** ** Reading result dictionaries *)

(** ** The fallback generator *)

(** C5. For every reason string the fallback generator returns, without
    raising and without touching the world (it is a function of the reason
    alone), a result with disease "healthy", confidence 0.5, success false,
    confidence_threshold_met false, fallback_reason equal to the reason, and a
    full score table in which healthy has 0.5 and every other class 0.2; two
    calls with the same reason give the same result: the result is one fixed
    dictionary [base] with the reason stored under fallback_reason. *)
Theorem fallback_prediction_pure :
  exists base : gmap string value,
    base !! "fallback_reason" = None /\
    forall reason : string,
      let res := VDict (<["fallback_reason" := VStr reason]> base) in
      _get_fallback_prediction reason = Ok res /\
      field "disease" res = Some (VStr "healthy") /\
      field "confidence" res = Some (VFloat 0.5%Q) /\
      field "success" res = Some (VBool false) /\
      field "confidence_threshold_met" res = Some (VBool false) /\
      field "fallback_reason" res = Some (VStr reason) /\
      all_scores res =
        Some [("bacterial_blight", 0.2%Q); ("brown_spot", 0.2%Q);
              ("healthy", 0.5%Q); ("leaf_blast", 0.2%Q); ("tungro", 0.2%Q)].
Proof.
  exists (delete "fallback_reason"
            match _get_fallback_prediction "" with
            | Ok (VDict d) => d
            | _ => ∅
            end).
  split; [apply lookup_delete_eq|].
  intros reason res; subst res.
  repeat split; vm_compute; reflexivity.
Qed.

(** ** Model path resolution *)

Arguments first_existing : simpl never.
Arguments possible_paths : simpl never.
Arguments abspath : simpl never.

Ltac unfold_m :=
  repeat progress
    (unfold getcwd, path_exists, getsize, load_keras,
            set_model, set_model_loaded, set_load_error,
            bind, ret, lift, raise, try_except, emit, get_self, set_self in *);
  cbn beta iota in *.

Lemma abspath_ok env cwd p w :
  os_getcwd env = Ok cwd ->
  fst (abspath env p w) = Ok (abspath_in env cwd p).
Proof.
  intros Hcwd. unfold abspath, abspath_in.
  destruct (os_path_isabs p); unfold_m; simpl; [done|].
  by rewrite Hcwd.
Qed.

Lemma abspath_self env p w : self (snd (abspath env p w)) = self w.
Proof.
  unfold abspath. destruct (os_path_isabs p); unfold_m; simpl; [done|].
  by destruct (os_getcwd env).
Qed.

Lemma first_existing_cons env p rest w :
  first_existing env (p :: rest) w =
    let w1 := {| self := self w; trace := trace w ++ [EvExists p] |} in
    if os_path_exists env p then
      match abspath env p w1 with
      | (Ok q, w2) => (Ok (Some q), w2)
      | (Raise e, w2) => (Raise e, w2)
      end
    else first_existing env rest w1.
Proof.
  unfold first_existing at 1; fold first_existing. unfold_m.
  by destruct (os_path_exists env p).
Qed.

Lemma first_existing_find env cwd paths w :
  os_getcwd env = Ok cwd ->
  fst (first_existing env paths w) =
    Ok (match list_find (fun p => os_path_exists env p = true) paths with
        | Some (_, p) => Some (abspath_in env cwd p)
        | None => None
        end).
Proof.
  intros Hcwd. revert w.
  induction paths as [|p rest IH]; intros w; [done|].
  rewrite first_existing_cons. cbn [list_find]. cbn zeta.
  destruct (os_path_exists env p) eqn:Hp.
  - rewrite decide_True by done.
    match goal with |- context [abspath env p ?w1] =>
      pose proof (abspath_ok env cwd p w1 Hcwd) as Habs;
      destruct (abspath env p w1) as [[q|e] w2] end;
      simpl in Habs; by simplify_eq.
  - rewrite decide_False by done. rewrite IH.
    by destruct (list_find _ rest) as [[??]|].
Qed.

Lemma first_existing_self env paths w :
  self (snd (first_existing env paths w)) = self w.
Proof.
  revert w. induction paths as [|p rest IH]; intros w; [done|].
  rewrite first_existing_cons. cbn zeta.
  destruct (os_path_exists env p).
  - match goal with |- context [abspath env p ?w1] =>
      pose proof (abspath_self env p w1) as Habs;
      destruct (abspath env p w1) as [[q|e] w2] end; done.
  - by rewrite IH.
Qed.

Lemma resolve_model_path_self env w :
  self (snd (_resolve_model_path env w)) = self w.
Proof.
  unfold _resolve_model_path. unfold_m. simpl.
  destruct (os_getcwd env); simpl; [|done].
  by rewrite first_existing_self.
Qed.

Lemma resolve_model_path_find env cwd w :
  os_getcwd env = Ok cwd ->
  fst (_resolve_model_path env w) =
    Ok (match list_find (fun p => os_path_exists env p = true)
                        (possible_paths env cwd cwd) with
        | Some (_, p) => Some (abspath_in env cwd p)
        | None => None
        end).
Proof.
  intros Hcwd. unfold _resolve_model_path. unfold_m.
  rewrite Hcwd. cbn beta iota. exact (first_existing_find env cwd _ _ Hcwd).
Qed.

Lemma first_existing_absent env paths w :
  no_model_file env -> fst (first_existing env paths w) = Ok None.
Proof.
  intros Habs. revert w. induction paths as [|p rest IH]; intros w; [done|].
  rewrite first_existing_cons. cbn zeta. rewrite Habs. apply IH.
Qed.

Lemma resolve_model_path_absent env w :
  no_model_file env ->
  (exists w1, _resolve_model_path env w = (Ok None, w1)) \/
  (exists e w1, _resolve_model_path env w = (Raise e, w1)).
Proof.
  intros Habs. unfold _resolve_model_path. unfold_m. simpl.
  destruct (os_getcwd env) as [cwd|e]; simpl; [|eauto].
  left.
  match goal with |- context [first_existing env ?l ?w1] =>
    pose proof (first_existing_absent env l w1 Habs) as H;
    destruct (first_existing env l w1) as [r w2] end.
  simpl in H; subst. eauto.
Qed.

Lemma join_absolute a b : os_path_isabs b = true -> join_step a b = b.
Proof. unfold os_path_isabs, join_step. by intros ->. Qed.

Lemma possible_paths_candidates env cwd :
  possible_paths env cwd cwd = candidates env cwd.
Proof.
  unfold possible_paths, candidates.
  by destruct (os_path_isabs (MODEL_PATH (settings env))).
Qed.

(** C6, as stated, fails: with an absolute MODEL_PATH that exists and a model
    file under the working directory, the working-directory guess is
    returned, not the configured path. *)
Lemma resolve_model_path_configured_not_first :
  os_path_isabs (MODEL_PATH (settings Demo.env_configured)) = true /\
  os_path_exists Demo.env_configured (MODEL_PATH (settings Demo.env_configured)) = true /\
  fst (_resolve_model_path Demo.env_configured Demo.world0) = Ok (Some Demo.model_file) /\
  fst (_resolve_model_path Demo.env_configured Demo.world0) <>
    Ok (Some (abspath_in Demo.env_configured "/srv/riceguard/backend"
                (MODEL_PATH (settings Demo.env_configured)))).
Proof. repeat split; vm_compute; congruence. Qed.

(** C6, amended. With working directory [cwd], _resolve_model_path returns
    the absolute form of the first existing path of the candidate list, in
    the order: cwd/ml/model.h5, parent(cwd)/ml/model.h5,
    here/../../ml/model.h5, here/../../MODEL_PATH (which is MODEL_PATH itself
    when that is absolute), here/../../../riceguard/ml/model.h5 and, when
    MODEL_PATH is absolute, MODEL_PATH once more ([here] is the directory of
    the module); the configured path therefore comes after the three
    ml/model.h5 guesses.  It returns None, without raising, when no candidate
    exists. *)
Theorem resolve_model_path_first_existing env w cwd :
  os_getcwd env = Ok cwd ->
  (os_path_isabs (MODEL_PATH (settings env)) = true ->
     candidates env cwd !! 3%nat = Some (MODEL_PATH (settings env)) /\
     candidates env cwd !! 5%nat = Some (MODEL_PATH (settings env))) /\
  (forall (i : nat) p,
     candidates env cwd !! i = Some p ->
     os_path_exists env p = true ->
     (forall (j : nat) q, (j < i)%nat -> candidates env cwd !! j = Some q ->
                          os_path_exists env q = false) ->
     fst (_resolve_model_path env w) = Ok (Some (abspath_in env cwd p))) /\
  ((forall p, p ∈ candidates env cwd -> os_path_exists env p = false) ->
     fst (_resolve_model_path env w) = Ok None).
Proof.
  intros Hcwd. rewrite (resolve_model_path_find env cwd w Hcwd).
  rewrite possible_paths_candidates. split; [|split].
  - intros Habs. unfold candidates. rewrite Habs. cbn.
    by rewrite join_absolute.
  - intros i p Hi Hp Hbefore.
    assert (list_find (fun p => os_path_exists env p = true) (candidates env cwd)
            = Some (i, p)) as ->; [|done].
    apply list_find_Some. split_and!; [done..|].
    intros j q Hq Hlt. rewrite (Hbefore j q Hlt Hq). done.
  - intros Hnone.
    assert (list_find (fun p => os_path_exists env p = true) (candidates env cwd)
            = None) as ->; [|done].
    apply list_find_None, Forall_forall. intros p Hp.
    rewrite (Hnone p Hp). done.
Qed.

Lemma resolve_model_path_first_existing_witness :
  fst (_resolve_model_path Demo.env_configured Demo.world0) = Ok (Some Demo.model_file).
Proof.
  apply (proj1 (proj2 (resolve_model_path_first_existing
                         Demo.env_configured Demo.world0 "/srv/riceguard/backend"
                         eq_refl)) 0%nat Demo.model_file).
  - reflexivity.
  - reflexivity.
  - intros j q Hj. lia.
Defined.

(** ** load_model *)

Arguments _resolve_model_path : simpl never.

Lemma load_model_loaded env w :
  model_loaded (self w) = true -> load_model env w = (Ok true, w).
Proof. intros H. unfold load_model. unfold_m. by rewrite H. Qed.

Lemma load_model_not_loaded env w :
  model_loaded (self w) = false ->
  exists b w', load_model env w = (Ok b, w') /\ load_outcome env w b w'.
Proof.
  intros Hnl. unfold load_model. unfold_m. rewrite Hnl.
  pose proof (resolve_model_path_self env w) as Hself.
  destruct (_resolve_model_path env w) as [[[p|]|e] w1] eqn:Hres;
    simpl in Hself; rewrite ?Hself.
  - destruct (os_path_exists env p) eqn:Hex; simpl.
    + destruct (os_path_getsize env p) as [sz|e] eqn:Hsz; simpl.
      * destruct (keras_load_model env p) as [m|e] eqn:Hk; simpl.
        -- do 2 eexists; split; [reflexivity|].
           rewrite <- !app_assoc. simpl. by eapply load_success.
        -- do 2 eexists; split; [reflexivity|].
           rewrite <- !app_assoc. simpl. by eapply load_deserialize_raised.
      * do 2 eexists; split; [reflexivity|].
        rewrite <- !app_assoc. simpl. by eapply load_getsize_raised.
    + do 2 eexists; split; [reflexivity|]. by eapply load_vanished.
  - simpl. do 2 eexists; split; [reflexivity|]. by eapply load_not_found.
  - simpl. do 2 eexists; split; [reflexivity|]. by eapply load_resolve_raised.
Qed.

Lemma load_model_total env w : exists b w', load_model env w = (Ok b, w').
Proof.
  destruct (model_loaded (self w)) eqn:Hl.
  - rewrite load_model_loaded by done. eauto.
  - destruct (load_model_not_loaded env w Hl) as (b & w' & -> & _). eauto.
Qed.

Lemma load_outcome_state env w b w' :
  load_outcome env w b w' ->
  model_loaded (self w') = b /\
  (b = true -> load_error (self w') = None /\ model (self w') <> None) /\
  (b = false -> load_error (self w') <> None).
Proof. destruct 1; simpl; split_and!; intros; try done. Qed.

Lemma load_model_preserves env w :
  loaded_has_model (self w) -> loaded_has_model (self (snd (load_model env w))).
Proof.
  intros Hinv. destruct (model_loaded (self w)) eqn:Hl.
  - by rewrite load_model_loaded.
  - destruct (load_model_not_loaded env w Hl) as (b & w' & -> & Hout).
    apply load_outcome_state in Hout as (Hb & Hok & _). simpl.
    intros Hl'. rewrite Hl' in Hb. subst b. by apply Hok.
Qed.

Lemma load_model_true_available env w w' :
  load_model env w = (Ok true, w') ->
  loaded_has_model (self w) ->
  is_model_available (self w') = true.
Proof.
  intros Hload Hinv. unfold is_model_available.
  pose proof (load_model_preserves env w Hinv) as Hinv'.
  destruct (model_loaded (self w)) eqn:Hl.
  - rewrite load_model_loaded in Hload by done. simplify_eq.
    rewrite Hl. specialize (Hinv Hl). by destruct (model (self w')).
  - destruct (load_model_not_loaded env w Hl) as (b & w2 & Heq & Hout).
    rewrite Hload in Heq. simplify_eq.
    apply load_outcome_state in Hout as (-> & Hok & _).
    destruct (Hok eq_refl) as [_ Hm]. by destruct (model (self w2)).
Qed.

Lemma load_model_absent env w :
  model_loaded (self w) = false ->
  no_model_file env ->
  exists w', load_model env w = (Ok false, w') /\ model_loaded (self w') = false.
Proof.
  intros Hnl Habs.
  destruct (load_model_not_loaded env w Hnl) as (b & w' & Heq & Hout).
  pose proof (load_outcome_state _ _ _ _ Hout) as [Hb _].
  assert (b = false) as ->; [|eauto].
  destruct (resolve_model_path_absent env w Habs) as [[w1 Hr]|(e & w1 & Hr)];
    destruct Hout; congruence.
Qed.



(** ** predict: the possible outcomes *)

Lemma fallback_prediction_ok reason :
  _get_fallback_prediction reason = Ok (fallback_result reason).
Proof. vm_compute. reflexivity. Qed.

Lemma fallback_run reason w :
  fallback reason w = (Ok (fallback_result reason, false), w).
Proof. unfold fallback. unfold_m. by rewrite fallback_prediction_ok. Qed.

Lemma fallback_result_fields reason :
  field "disease" (fallback_result reason) = Some (VStr "healthy") /\
  field "confidence" (fallback_result reason) = Some (VFloat 0.5%Q) /\
  field "success" (fallback_result reason) = Some (VBool false) /\
  field "fallback_reason" (fallback_result reason) = Some (VStr reason) /\
  field "confidence_threshold_met" (fallback_result reason) = Some (VBool false) /\
  all_scores (fallback_result reason) =
    Some (zip class_names [0.2; 0.2; 0.5; 0.2; 0.2]%Q).
Proof. repeat split; vm_compute; reflexivity. Qed.

Lemma len_nil_iff {A} (l : list A) : len l = 0 <-> l = [].
Proof. unfold len. destruct l; simpl; split; intros; try done; lia. Qed.

Lemma len_cons {A} (x : A) (l : list A) : len (x :: l) = 1 + len l.
Proof. unfold len. simpl length. lia. Qed.

Lemma len_nonneg {A} (l : list A) : 0 <= len l.
Proof. unfold len. lia. Qed.

Lemma argmax_from_bounds l : forall best m i,
  0 <= best < i -> 0 <= argmax_from best m i l < i + len l.
Proof.
  induction l as [|y r IH]; intros best m i Hb; simpl.
  - pose proof (len_nonneg (@nil Q)). lia.
  - rewrite len_cons. pose proof (len_nonneg r).
    destruct (Qlt_bool m y).
    + specialize (IH i y (i + 1)). lia.
    + specialize (IH best m (i + 1)). lia.
Qed.

Lemma np_argmax_bounds l idx :
  np_argmax l = Ok idx -> 0 <= idx < len l.
Proof.
  destruct l as [|x r]; simpl; [done|]. intros [= <-].
  rewrite len_cons. pose proof (argmax_from_bounds r 0 x 1). lia.
Qed.

Lemma list_getitem_ok {A} (l : list A) i :
  0 <= i < len l ->
  exists x, list_getitem l i = Ok x /\ l !! Z.to_nat i = Some x.
Proof.
  intros Hi. unfold list_getitem, len in *.
  destruct (i <? 0) eqn:Hneg; [lia|]. rewrite Hneg.
  destruct (l !! Z.to_nat i) as [x|] eqn:Hx; [eauto|].
  apply lookup_ge_None in Hx. lia.
Qed.

Lemma len_five {A} (l : list A) :
  len l = 5 -> exists a b c d e, l = [a; b; c; d; e].
Proof.
  unfold len. intros H.
  destruct l as [|a [|b [|c [|d [|e [|f r]]]]]]; simpl in H; try lia.
  eauto 6.
Qed.

(** The per-class entries built on the success path carry the class names,
    in order, paired with the model's scores. *)
Lemma prediction_entries_ok row :
  len row = len class_names ->
  exists entries,
    rmapM (prediction_entry row) (seqZ 0 (len class_names)) = Ok entries /\
    score_pairs entries = Some (zip class_names row).
Proof.
  intros Hlen. destruct (len_five row Hlen) as (a & b & c & d & e & ->).
  eexists. split; vm_compute; reflexivity.
Qed.

Lemma interpret_predictions_outcome env predictions w :
  (exists reason,
     interpret_predictions env predictions w = (Ok (fallback_result reason, false), w)) \/
  (exists row rest idx key top entries,
     predictions = Some (row :: rest) /\
     len row = len class_names /\
     np_argmax row = Ok idx /\
     class_names !! Z.to_nat idx = Some key /\
     np_max row = Ok top /\
     score_pairs entries = Some (zip class_names row) /\
     interpret_predictions env predictions w =
       (Ok (success_outcome env row key top entries), w)).
Proof.
  destruct predictions as [[|row rest]|]; cbn [interpret_predictions];
    try (left; eexists; apply fallback_run).
  destruct (len row =? len class_names) eqn:Hlen; cbn [negb];
    [|left; eexists; apply fallback_run].
  apply Z.eqb_eq in Hlen.
  destruct (np_argmax row) as [idx|e] eqn:Hidx.
  2: { destruct row; [|done]. by vm_compute in Hlen. }
  destruct (np_max row) as [top|e] eqn:Htop.
  2: { destruct row; [|done]. by vm_compute in Hlen. }
  pose proof (np_argmax_bounds row idx Hidx) as Hb. rewrite Hlen in Hb.
  destruct (list_getitem_ok class_names idx Hb) as (key & Hget & Hkey).
  destruct (prediction_entries_ok row Hlen) as (entries & Hent & Hsc).
  right. exists row, rest, idx, key, top, entries.
  split_and!; try done.
  unfold_m. rewrite Hget, Hent.
  destruct (0 <=? idx) eqn:H0; [|lia].
  destruct (idx <? len class_names) eqn:H1; [|lia].
  reflexivity.
Qed.

Lemma validate_image_data_valid env image_data :
  image_data <> [] ->
  validate_image_data env image_data !! "valid" =
    Some (VBool (coarse_verdict env image_data)).
Proof.
  intros Hne. unfold validate_image_data, coarse_verdict.
  destruct image_data as [|b rest]; [done|].
  destruct (Image_open env (b :: rest)) as [image|e]; [|reflexivity].
  destruct (50 * 1024 * 1024 <? len (b :: rest)); [reflexivity|].
  destruct ((fst (size image) <? 50) || (snd (size image) <? 50)); [reflexivity|].
  destruct (negb _); reflexivity.
Qed.

Lemma call_model_cases x w :
  (exists e, call_model x w = (Raise e, w) /\ model (self w) = None) \/
  (exists m e, model (self w) = Some m /\ model_predict m x = Raise e /\
     call_model x w =
       (Raise e, {| self := self w; trace := trace w ++ [EvModelPredict] |})) \/
  (exists m predictions, model (self w) = Some m /\
     model_predict m x = Ok predictions /\
     call_model x w =
       (Ok predictions, {| self := self w; trace := trace w ++ [EvModelPredict] |})).
Proof.
  unfold call_model. unfold_m.
  destruct (model (self w)) as [m|]; [|left; eauto].
  destruct (model_predict m x) as [predictions|e] eqn:Hp; right; [right|left];
    do 2 eexists; split_and!; try done; by rewrite Hp.
Qed.

Lemma predict_try_outcome env image_data w :
  exists out w', predict_try env image_data w = (Ok out, w') /\
                 try_outcome env image_data w out w'.
Proof.
  unfold predict_try.
  destruct (preprocess_image env image_data) as [x|] eqn:Hpre.
  2: { rewrite fallback_run. do 2 eexists; split; [done|]. constructor. }
  unfold bind at 1. unfold try_except, bind at 1.
  destruct (call_model_cases x w)
    as [(e & -> & Hm)|[(m & e & Hm & Hp & ->)|(m & predictions & Hm & Hp & ->)]].
  - unfold bind at 1. rewrite fallback_run. unfold ret.
    do 2 eexists; split; [done|]. constructor.
  - unfold bind at 1. rewrite fallback_run. unfold ret.
    do 2 eexists; split; [done|]. by eapply try_fallback_after.
  - unfold ret at 1. cbn beta iota.
    match goal with |- context [interpret_predictions env predictions ?w1] =>
      destruct (interpret_predictions_outcome env predictions w1)
        as [(reason & ->)
           |(row & rest & idx & key & top & entries & -> & Hlen & Hidx & Hkey
             & Htop & Hsc & ->)] end.
    + do 2 eexists; split; [done|]. by eapply try_fallback_after.
    + do 2 eexists; split; [done|]. by eapply try_success.
Qed.

Lemma predict_outcomes env image_data w :
  exists out w', predict env image_data w = (Ok out, w') /\
                 predict_outcome env image_data w out w'.
Proof.
  unfold predict. destruct image_data as [|b rest] eqn:Hdata.
  { do 2 eexists; split; [reflexivity|]. by constructor. }
  rewrite <- Hdata. assert (image_data <> []) as Hne by (by subst).
  clear Hdata b rest.
  unfold bind at 1, get_self. unfold bind at 1.
  assert (exists loaded w1,
    (if negb (is_model_available (self w)) then load_model env else ret true) w
      = (Ok loaded, w1) /\
    (loaded = true -> model_ready env w w1) /\
    (loaded = false ->
       is_model_available (self w) = false /\ load_model env w = (Ok false, w1)))
    as (loaded & w1 & -> & Hready & Hunav).
  { destruct (is_model_available (self w)) eqn:Hav; cbn [negb].
    - exists true, w. split_and!; [done| |done]. intros _. by left.
    - destruct (load_model_total env w) as (b & w1 & Hload).
      exists b, w1. split_and!; [done| |].
      + intros ->. by right.
      + intros ->. done. }
  destruct loaded; cbn [negb].
  2: { rewrite fallback_run. do 2 eexists; split; [done|].
       destruct (Hunav eq_refl). by apply out_unavailable. }
  specialize (Hready eq_refl).
  unfold bind at 1, lift, getitem.
  rewrite validate_image_data_valid by done.
  destruct (coarse_verdict env image_data) eqn:Hv; cbn [truthy negb].
  2: { do 2 eexists; split; [reflexivity|]. by apply out_invalid. }
  unfold try_except.
  destruct (predict_try_outcome env image_data w1) as (out & w2 & -> & Hout).
  do 2 eexists; split; [done|]. by eapply out_inference.
Qed.

Lemma predict_never_raises env image_data w :
  exists res flag w', predict env image_data w = (Ok (res, flag), w').
Proof.
  destruct (predict_outcomes env image_data w) as ([res flag] & w' & Heq & _).
  eauto.
Qed.

Lemma demo_run_ok env image_data :
  predict env image_data Demo.world0 =
    (Ok (Demo.result_of env image_data, Demo.flag_of env image_data),
     Demo.world_of env image_data).
Proof.
  unfold Demo.result_of, Demo.flag_of, Demo.world_of, Demo.run.
  destruct (predict_never_raises env image_data Demo.world0)
    as (res & flag & w' & ->). reflexivity.
Qed.

Lemma error_result_no_data_fields :
  field "disease" error_result_no_data = Some (VStr "error") /\
  field "confidence" error_result_no_data = Some (VFloat 0.0%Q) /\
  field "error" error_result_no_data = Some (VStr "No image data provided") /\
  field "success" error_result_no_data = Some (VBool false) /\
  field "fallback_reason" error_result_no_data = None /\
  field "all_predictions" error_result_no_data = None.
Proof. repeat split; vm_compute; reflexivity. Qed.

Lemma error_result_invalid_fields v :
  field "disease" (error_result_invalid v) = Some (VStr "error") /\
  field "confidence" (error_result_invalid v) = Some (VFloat 0.0%Q) /\
  field "error" (error_result_invalid v) =
    Some (VStr ("Invalid image: " +:+
                py_str (default (VStr "Unknown error") (v !! "error")))) /\
  field "success" (error_result_invalid v) = Some (VBool false) /\
  field "fallback_reason" (error_result_invalid v) = None /\
  field "all_predictions" (error_result_invalid v) = None.
Proof. repeat split; reflexivity. Qed.

Lemma success_outcome_fields env row key top entries :
  let res := fst (success_outcome env row key top entries) in
  let flag := snd (success_outcome env row key top entries) in
  field "disease" res = Some (VStr key) /\
  field "confidence" res = Some (VFloat (clamp_confidence top)) /\
  field "success" res = Some (VBool true) /\
  field "confidence_threshold_met" res = Some (VBool flag) /\
  field "all_predictions" res = Some (VList entries) /\
  flag = threshold_and_margin env (clamp_confidence top) row.
Proof. repeat split; reflexivity. Qed.

(** ** Empty input *)

(** C4, as stated, fails: on empty bytes the disease key is "error", not
    "healthy", and there is no fallback_reason entry. *)
Lemma predict_empty_is_error_not_fallback :
  predict Demo.env0 [] Demo.world0 = (Ok (error_result_no_data, false), Demo.world0) /\
  field "disease" error_result_no_data <> Some (VStr "healthy") /\
  field "fallback_reason" error_result_no_data = None.
Proof. split; [reflexivity|]. split; vm_compute; congruence. Qed.

(** C4, amended. On empty bytes predict returns at once: the classifier and
    the trace of file-system and model calls are unchanged (the model is
    neither loaded nor invoked); the flag is false and the result has
    success=false, an [error] entry "No image data provided", disease
    "error", confidence 0.0, and neither fallback_reason nor all_predictions. *)
Theorem predict_empty_input env w :
  exists res,
    predict env [] w = (Ok (res, false), w) /\
    field "success" res = Some (VBool false) /\
    field "error" res = Some (VStr "No image data provided") /\
    field "disease" res = Some (VStr "error") /\
    field "confidence" res = Some (VFloat 0.0%Q) /\
    field "fallback_reason" res = None /\
    field "all_predictions" res = None.
Proof.
  exists error_result_no_data. split; [reflexivity|].
  destruct error_result_no_data_fields as (? & ? & ? & ? & ? & ?). done.
Qed.

(** ** Shape of the result on every path *)

Lemma fallback_full_breakdown reason : full_breakdown (fallback_result reason).
Proof.
  destruct (fallback_result_fields reason) as (Hd & _ & Hs & Hr & _ & Hsc).
  split_and!.
  - right. eauto.
  - exists "healthy". split; [done|].
    apply list_elem_of_In. simpl. auto.
  - eexists. split; [exact Hsc|]. split; reflexivity.
Qed.

Lemma try_outcome_full_breakdown env image_data w out w' :
  try_outcome env image_data w out w' -> full_breakdown (fst out).
Proof.
  destruct 1 as [reason|reason x Hpre
                |x m row rest idx key top entries Hpre Hm Hp Hlen Hidx Hkey Htop Hsc].
  1, 2: exact (fallback_full_breakdown reason).
  destruct (success_outcome_fields env row key top entries)
    as (Hd & _ & Hs & _ & Hall & _).
  split_and!.
  - by left.
  - exists key. split; [done|]. by eapply list_elem_of_lookup_2.
  - exists (zip class_names row). unfold all_scores. rewrite Hall.
    split; [done|].
    assert (length row = length class_names) as Hl by (unfold len in Hlen; lia).
    split; [by rewrite length_zip_with, Hl, Nat.min_id|].
    apply fst_zip. lia.
Qed.

Lemma predict_outcome_shape env image_data w out w' :
  predict_outcome env image_data w out w' ->
  (full_breakdown (fst out) /\ image_data <> []) \/
  (error_flavoured (fst out) /\ snd out = false /\
   (image_data = [] \/ coarse_verdict env image_data = false)).
Proof.
  destruct 1 as [Hnil|w1 Hne Hav Hload|w1 Hne Hready Hv|w1 out w2 Hne Hready Hv Htry];
    cbn [fst snd].
  - right. split_and!; [|done|by left].
    destruct error_result_no_data_fields as (? & ? & ? & ? & ? & ?).
    unfold error_flavoured. eauto 10.
  - left. split; [apply fallback_full_breakdown|done].
  - right. split_and!; [|done|by right].
    destruct (error_result_invalid_fields (validate_image_data env image_data))
      as (? & ? & ? & ? & ? & ?).
    unfold error_flavoured. eauto 10.
  - left. split; [|done]. by eapply try_outcome_full_breakdown.
Qed.

Lemma predict_result_shape env image_data w :
  exists res flag w',
    predict env image_data w = (Ok (res, flag), w') /\
    ((full_breakdown res /\ image_data <> []) \/
     (error_flavoured res /\ flag = false /\
      (image_data = [] \/ coarse_verdict env image_data = false))).
Proof.
  destruct (predict_outcomes env image_data w) as ([res flag] & w' & Heq & Hout).
  exists res, flag, w'. split; [done|].
  exact (predict_outcome_shape _ _ _ _ _ Hout).
Qed.

(** C1, as stated, fails: a 40x200 image is refused by the coarse validation
    and the returned dictionary has no all_predictions entry at all. *)
Lemma predict_invalid_image_no_all_predictions :
  exists res flag w',
    predict Demo.env0 Demo.jpeg_40x200 Demo.world0 = (Ok (res, flag), w') /\
    field "all_predictions" res = None /\
    all_scores res = None.
Proof.
  eexists _, _, _. split; [apply demo_run_ok|].
  split; vm_compute; reflexivity.
Qed.

(** C1, amended. predict never raises.  On the successful-inference path and
    on every fallback path (model unavailable, preprocessing failed, model
    call failed, unusable model output) the result's all_predictions has one
    entry per class label, five in all, in the order of the labels.  On the
    two error branches (empty input; input refused by the coarse validation)
    the result is the error dictionary, which has no all_predictions entry. *)
Theorem predict_all_predictions_length env image_data w :
  exists res flag w',
    predict env image_data w = (Ok (res, flag), w') /\
    ((image_data <> [] /\
      (field "success" res = Some (VBool true) \/
       exists reason, field "success" res = Some (VBool false) /\
                      field "fallback_reason" res = Some (VStr reason)) /\
      exists scores, all_scores res = Some scores /\
                     length scores = 5%nat /\
                     scores.*1 = class_names)
     \/
     ((image_data = [] \/ coarse_verdict env image_data = false) /\
      field "success" res = Some (VBool false) /\
      field "fallback_reason" res = None /\
      field "all_predictions" res = None)).
Proof.
  destruct (predict_result_shape env image_data w)
    as (res & flag & w' & Heq & [[Hfull Hne]|(Herr & _ & Hwhy)]).
  - exists res, flag, w'. split; [done|]. left.
    destruct Hfull as (Hkind & _ & scores & Hsc & Hlen & Hnames). eauto 10.
  - exists res, flag, w'. split; [done|]. right.
    destruct Herr as (_ & Hs & _ & Hfr & Hall). done.
Qed.

(** ** The disease key *)

(** C3, as stated, fails: on bytes that do not open as an image the disease
    key is "error", which is not a class label. *)
Lemma predict_undecodable_disease_error :
  exists res flag w',
    predict Demo.env0 Demo.garbage Demo.world0 = (Ok (res, flag), w') /\
    field "disease" res = Some (VStr "error") /\
    "error" ∉ class_names.
Proof.
  eexists _, _, _. split; [apply demo_run_ok|].
  split; [vm_compute; reflexivity|].
  rewrite list_elem_of_In. simpl. intuition congruence.
Qed.

(** C3, amended. predict always returns a result with a disease key.  On the
    successful-inference path and on every fallback path the key is one of
    the five class labels; on the two error branches (empty input; input
    refused by the coarse validation) it is the string "error". *)
Theorem predict_disease_key env image_data w :
  exists res flag w' d,
    predict env image_data w = (Ok (res, flag), w') /\
    field "disease" res = Some (VStr d) /\
    ((d ∈ class_names /\ image_data <> [] /\
      (field "success" res = Some (VBool true) \/
       exists reason, field "success" res = Some (VBool false) /\
                      field "fallback_reason" res = Some (VStr reason)))
     \/
     (d = "error" /\ field "success" res = Some (VBool false) /\
      field "fallback_reason" res = None /\
      (image_data = [] \/ coarse_verdict env image_data = false))).
Proof.
  destruct (predict_result_shape env image_data w)
    as (res & flag & w' & Heq & [[Hfull Hne]|(Herr & _ & Hwhy)]).
  - destruct Hfull as (Hkind & (d & Hd & Hin) & _).
    exists res, flag, w', d. split_and!; [done..|]. left. done.
  - destruct Herr as (Hd & Hs & _ & Hfr & _).
    exists res, flag, w', "error". split_and!; [done..|]. right. done.
Qed.

(** ** The state invariant *)

Lemma try_outcome_self env image_data w out w' :
  try_outcome env image_data w out w' -> self w' = self w.
Proof. by destruct 1. Qed.

Lemma predict_outcome_self env image_data w out w' :
  predict_outcome env image_data w out w' ->
  self w' = self w \/ self w' = self (snd (load_model env w)).
Proof.
  assert (forall w1, model_ready env w w1 ->
            self w1 = self w \/ self w1 = self (snd (load_model env w))) as Hready.
  { intros w1 [[_ ->]|[_ Hl]]; [by left|right]. by rewrite Hl. }
  destruct 1 as [Hnil|w1 Hne Hav Hload|w1 Hne Hr Hv|w1 out w2 Hne Hr Hv Htry].
  - by left.
  - right. by rewrite Hload.
  - by apply Hready.
  - rewrite (try_outcome_self _ _ _ _ _ Htry). by apply Hready.
Qed.

Lemma predict_preserves env image_data w :
  loaded_has_model (self w) ->
  loaded_has_model (self (snd (predict env image_data w))).
Proof.
  intros Hinv.
  destruct (predict_outcomes env image_data w) as (out & w' & -> & Hout).
  cbn [snd].
  destruct (predict_outcome_self _ _ _ _ _ Hout) as [->| ->]; [done|].
  by apply load_model_preserves.
Qed.

Lemma invariant_available c :
  loaded_has_model c -> is_model_available c = model_loaded c.
Proof.
  unfold loaded_has_model, is_model_available. intros H.
  destruct (model_loaded c); [|done].
  specialize (H eq_refl). by destruct (model c).
Qed.

(** C10. The invariant "model_loaded implies the model reference is not
    None" holds after construction and is preserved by every call of
    load_model, whatever its outcome; hence on every reachable state it
    holds and is_model_available agrees with model_loaded. *)
Theorem loaded_implies_model_invariant :
  loaded_has_model __init__ /\
  (forall env w, loaded_has_model (self w) ->
                 loaded_has_model (self (snd (load_model env w)))) /\
  (forall c, reachable c ->
             loaded_has_model c /\ is_model_available c = model_loaded c).
Proof.
  split_and!.
  - done.
  - apply load_model_preserves.
  - intros c Hc.
    assert (loaded_has_model c) as Hinv.
    { induction Hc as [|env w _ IH|env image_data w _ IH].
      - done.
      - by apply load_model_preserves.
      - by apply predict_preserves. }
    split; [done|]. by apply invariant_available.
Qed.

Lemma loaded_implies_model_invariant_witness :
  let c := self (snd (load_model Demo.env0 Demo.world0)) in
  model_loaded c = true /\ is_model_available c = model_loaded c.
Proof.
  split; [reflexivity|].
  apply (proj2 (proj2 loaded_implies_model_invariant)).
  apply (reach_load_model Demo.env0 Demo.world0). apply reach_init.
Defined.

(** ** Coarse validation *)

Lemma abspath_trace env p w :
  exists evs, trace (snd (abspath env p w)) = trace w ++ evs /\ no_model_call evs.
Proof.
  unfold abspath. destruct (os_path_isabs p); unfold_m.
  - exists []. split; [by rewrite app_nil_r|constructor].
  - exists [EvGetcwd]. split; [by destruct (os_getcwd env)|].
    by repeat constructor.
Qed.

Lemma first_existing_trace env paths w :
  exists evs, trace (snd (first_existing env paths w)) = trace w ++ evs /\
              no_model_call evs.
Proof.
  revert w. induction paths as [|p rest IH]; intros w.
  - exists []. split; [by rewrite app_nil_r|constructor].
  - rewrite first_existing_cons. cbn zeta.
    destruct (os_path_exists env p).
    + match goal with |- context [abspath env p ?w1] =>
        destruct (abspath_trace env p w1) as (evs & Ht & Hev);
        destruct (abspath env p w1) as [[q|e] w2] end;
        simpl in *; exists (EvExists p :: evs);
        (split; [by rewrite Ht, <- app_assoc|by constructor]).
    + match goal with |- context [first_existing env rest ?w1] =>
        destruct (IH w1) as (evs & Ht & Hev) end.
      exists (EvExists p :: evs). simpl in *.
      split; [by rewrite Ht, <- app_assoc|by constructor].
Qed.

Lemma resolve_model_path_trace env w :
  exists evs, trace (snd (_resolve_model_path env w)) = trace w ++ evs /\
              no_model_call evs.
Proof.
  unfold _resolve_model_path. unfold_m.
  destruct (os_getcwd env) as [cwd|e]; cbn beta iota.
  - match goal with |- context [first_existing env ?l ?w1] =>
      destruct (first_existing_trace env l w1) as (evs & Ht & Hev) end.
    exists (EvGetcwd :: EvGetcwd :: evs). simpl in *.
    split; [by rewrite Ht, <- !app_assoc|by repeat constructor].
  - exists [EvGetcwd]. split; [done|by repeat constructor].
Qed.

Lemma load_model_trace env w :
  exists evs, trace (snd (load_model env w)) = trace w ++ evs /\ no_model_call evs.
Proof.
  destruct (model_loaded (self w)) eqn:Hl.
  - rewrite load_model_loaded by done.
    exists []. split; [by rewrite app_nil_r|constructor].
  - destruct (load_model_not_loaded env w Hl) as (b & w' & -> & Hout).
    destruct (resolve_model_path_trace env w) as (evs & Ht & Hev).
    destruct Hout as [e w1 Hr|w1 Hr|p w1 Hr|p w1 e Hr|p w1 sz e Hr|p w1 sz m Hr];
      rewrite Hr in Ht; simpl in *; rewrite Ht.
    1, 2: exists evs; done.
    all: rewrite <- app_assoc; eexists; split; [reflexivity|];
      apply Forall_app; split; [done|by repeat constructor].
Qed.

Lemma model_ready_trace env w w1 :
  model_ready env w w1 ->
  exists evs, trace w1 = trace w ++ evs /\ no_model_call evs.
Proof.
  intros [[_ ->]|[_ Hl]].
  - exists []. split; [by rewrite app_nil_r|constructor].
  - pose proof (load_model_trace env w) as H. by rewrite Hl in H.
Qed.

Lemma validate_image_data_error env image_data :
  image_data <> [] ->
  validate_image_data env image_data !! "error" = VStr <$> coarse_error env image_data.
Proof.
  intros Hne. unfold validate_image_data, coarse_error.
  destruct image_data as [|b rest]; [done|].
  destruct (Image_open env (b :: rest)) as [image|e]; [|reflexivity].
  destruct (50 * 1024 * 1024 <? len (b :: rest)); [reflexivity|].
  destruct ((fst (size image) <? 50) || (snd (size image) <? 50)); [reflexivity|].
  destruct (negb _); reflexivity.
Qed.

Lemma coarse_error_verdict env image_data :
  coarse_verdict env image_data = true <-> coarse_error env image_data = None.
Proof.
  unfold coarse_verdict, coarse_error.
  destruct (Image_open env image_data) as [image|e]; [|done].
  destruct (50 * 1024 * 1024 <? len image_data); [done|].
  destruct ((fst (size image) <? 50) || (snd (size image) <? 50)); done.
Qed.

Lemma model_ready_fun env w wa wb :
  model_ready env w wa -> model_ready env w wb -> wa = wb.
Proof. intros [[Ha ->]|[Ha Hla]] [[Hb ->]|[Hb Hlb]]; congruence. Qed.

Lemma predict_refused env image_data w w1 msg :
  image_data <> [] ->
  model_ready env w w1 ->
  coarse_error env image_data = Some msg ->
  refused env image_data w w1 msg.
Proof.
  intros Hne Hready Hmsg.
  destruct (predict_outcomes env image_data w) as (out & w' & Heq & Hout).
  assert (coarse_verdict env image_data = false) as Hv.
  { destruct (coarse_verdict env image_data) eqn:Hv; [|done].
    apply coarse_error_verdict in Hv. congruence. }
  exists (error_result_invalid (validate_image_data env image_data)).
  destruct (error_result_invalid_fields (validate_image_data env image_data))
    as (_ & _ & Herr & Hs & _ & _).
  rewrite validate_image_data_error, Hmsg in Herr by done.
  split_and!; [|done|done|by eapply model_ready_trace].
  rewrite Heq.
  destruct Hout as [Hnil|w2 _ Hav Hload|w2 _ Hr _|w2 out w3 _ Hr Hv' _].
  - done.
  - destruct Hready as [[Ha _]|[_ Hl]]; congruence.
  - by rewrite (model_ready_fun _ _ _ _ Hr Hready).
  - congruence.
Qed.

Lemma predict_accepted env image_data w w1 :
  image_data <> [] ->
  model_ready env w w1 ->
  coarse_verdict env image_data = true ->
  exists out w2, predict env image_data w = (Ok out, w2) /\
                 try_outcome env image_data w1 out w2.
Proof.
  intros Hne Hready Hv.
  destruct (predict_outcomes env image_data w) as (out & w' & Heq & Hout).
  exists out, w'. split; [done|].
  destruct Hout as [Hnil|w2 _ Hav Hload|w2 _ Hr Hv'|w2 out w3 _ Hr _ Htry].
  - done.
  - destruct Hready as [[Ha _]|[_ Hl]]; congruence.
  - congruence.
  - by rewrite (model_ready_fun _ _ _ _ Hready Hr).
Qed.

Lemma validate_image_data_warning env image_data image :
  image_data <> [] ->
  Image_open env image_data = Ok image ->
  len image_data <= 50 * 1024 * 1024 ->
  50 <= fst (size image) -> 50 <= snd (size image) ->
  format image ∉ supported_formats ->
  validate_image_data env image_data !! "warning" =
    Some (VStr ("Unusual image format: " +:+ py_str (format_value (format image)))).
Proof.
  intros Hne Hopen Hlen Hw Hh Hfmt. unfold validate_image_data.
  destruct image_data as [|b rest]; [done|].
  - rewrite Hopen.
    destruct (50 * 1024 * 1024 <? len (b :: rest)) eqn:H1; [lia|].
    destruct (fst (size image) <? 50) eqn:H2; [lia|].
    destruct (snd (size image) <? 50) eqn:H3; [lia|].
    cbn [orb].
    rewrite bool_decide_eq_false_2 by done. cbn [negb].
    apply lookup_insert_eq.
Qed.

Lemma predict_step_ready env image_data w w1 :
  image_data <> [] ->
  model_ready env w w1 ->
  predict env image_data w =
    (if coarse_verdict env image_data
     then predict_try env image_data w1
     else (Ok (error_result_invalid (validate_image_data env image_data), false), w1)).
Proof.
  intros Hne Hready. unfold predict.
  destruct image_data as [|b rest] eqn:Hdata; [done|].
  rewrite <- Hdata in *. clear Hdata b rest.
  unfold bind at 1, get_self. unfold bind at 1.
  assert ((if negb (is_model_available (self w)) then load_model env else ret true) w
          = (Ok true, w1)) as ->.
  { destruct Hready as [[-> ->]|[-> Hl]]; cbn [negb]; done. }
  cbn [negb]. unfold bind at 1, lift, getitem.
  rewrite validate_image_data_valid by done.
  destruct (coarse_verdict env image_data); cbn [truthy negb]; [|done].
  unfold try_except.
  by destruct (predict_try_outcome env image_data w1) as (out & w2 & -> & _).
Qed.

Lemma interpret_predictions_success env row rest w :
  len row = len class_names ->
  exists key top entries,
    score_pairs entries = Some (zip class_names row) /\
    interpret_predictions env (Some (row :: rest)) w =
      (Ok (success_outcome env row key top entries), w).
Proof.
  intros Hlen. cbn [interpret_predictions].
  destruct (len row =? len class_names) eqn:Hb; cbn [negb];
    [|apply Z.eqb_neq in Hb; done].
  destruct (np_argmax row) as [idx|e] eqn:Hidx.
  2: { destruct row; [|done]. by vm_compute in Hlen. }
  destruct (np_max row) as [top|e] eqn:Htop.
  2: { destruct row; [|done]. by vm_compute in Hlen. }
  pose proof (np_argmax_bounds row idx Hidx) as Hbd. rewrite Hlen in Hbd.
  destruct (list_getitem_ok class_names idx Hbd) as (key & Hget & Hkey).
  destruct (prediction_entries_ok row Hlen) as (entries & Hent & Hsc).
  exists key, top, entries. split; [done|].
  unfold_m. rewrite Hget, Hent.
  destruct (0 <=? idx) eqn:H0; [|lia].
  destruct (idx <? len class_names) eqn:H1; [|lia].
  reflexivity.
Qed.

Lemma interpret_predictions_mismatch env row rest w :
  len row <> len class_names ->
  interpret_predictions env (Some (row :: rest)) w =
    (Ok (fallback_result "Model output format mismatch", false), w).
Proof.
  intros Hlen. cbn [interpret_predictions].
  destruct (len row =? len class_names) eqn:Hb; cbn [negb];
    [apply Z.eqb_eq in Hb; done|]. apply fallback_run.
Qed.

Lemma predict_try_run env image_data w :
  predict_try env image_data w =
    match preprocess_image env image_data with
    | None => (Ok (fallback_result "Image preprocessing failed", false), w)
    | Some x =>
        match model (self w) with
        | None => (Ok (fallback_result "Model prediction failed", false), w)
        | Some m =>
            let called := {| self := self w; trace := trace w ++ [EvModelPredict] |} in
            match model_predict m x with
            | Raise _ =>
                (Ok (fallback_result "Model prediction failed", false), called)
            | Ok predictions => interpret_predictions env predictions called
            end
        end
    end.
Proof.
  unfold predict_try.
  destruct (preprocess_image env image_data) as [x|]; [|apply fallback_run].
  unfold bind at 1. unfold try_except, bind at 1.
  destruct (call_model_cases x w)
    as [(e & -> & Hm)|[(m & e & Hm & Hp & ->)|(m & predictions & Hm & Hp & ->)]];
    rewrite Hm.
  - unfold bind at 1. by rewrite fallback_run.
  - rewrite Hp. unfold bind at 1. by rewrite fallback_run.
  - rewrite Hp. reflexivity.
Qed.

Lemma predict_inference env image_data w w1 :
  image_data <> [] ->
  model_ready env w w1 ->
  coarse_verdict env image_data = true ->
  inference env image_data w w1.
Proof.
  intros Hne Hready Hv.
  pose proof (predict_step_ready env image_data w w1 Hne Hready) as Hstep.
  rewrite Hv, predict_try_run in Hstep. unfold inference. cbv zeta. split.
  - intros Hpre. by rewrite Hpre in Hstep.
  - intros x Hpre. rewrite Hpre in Hstep. split.
    + intros Hm. by rewrite Hm in Hstep.
    + intros m Hm. rewrite Hm in Hstep. cbv zeta in Hstep. split_and!.
      * intros e Hp. by rewrite Hp in Hstep.
      * intros [Hp|Hp]; rewrite Hp in Hstep; rewrite Hstep; apply fallback_run.
      * intros row rest Hp Hlen. rewrite Hp in Hstep. rewrite Hstep.
        by apply interpret_predictions_mismatch.
      * intros row rest Hp Hlen. rewrite Hp in Hstep.
        destruct (interpret_predictions_success env row rest
                    {| self := self w1; trace := trace w1 ++ [EvModelPredict] |} Hlen)
          as (key & top & entries & Hsc & Heq).
        rewrite Heq in Hstep.
        destruct (success_outcome_fields env row key top entries)
          as (_ & _ & Hsucc & _ & Hall & _).
        exists (fst (success_outcome env row key top entries)),
               (snd (success_outcome env row key top entries)).
        split_and!; [exact Hstep|exact Hsucc|].
        unfold all_scores. by rewrite Hall.
Qed.

(** C7, as stated, fails: a 200x200 GIF is outside the format list, yet it
    passes the coarse validation and is preprocessed and classified. *)
Lemma predict_unlisted_format_classified :
  exists image res flag w',
    Image_open Demo.env0 Demo.gif_200x200 = Ok image /\
    (format image ∉ supported_formats) /\
    predict Demo.env0 Demo.gif_200x200 Demo.world0 = (Ok (res, flag), w') /\
    field "success" res = Some (VBool true) /\
    EvModelPredict ∈ trace w'.
Proof.
  exists (Demo.grey (Some "GIF") "P" (200, 200)).
  eexists _, _, _. split; [reflexivity|]. split.
  { cbn. rewrite list_elem_of_In. simpl. intuition congruence. }
  split; [apply demo_run_ok|]. split; [vm_compute; reflexivity|].
  rewrite list_elem_of_In. vm_compute. tauto.
Qed.

(** C7, amended. Once the model is available, and before any preprocessing,
    predict validates the non-empty image bytes and refuses, with
    success=false and a descriptive "Invalid image: ..." message and without
    calling the model, any input that does not open as an image, or exceeds
    the 50MB ceiling, or is less than 50 pixels wide or high.  An input that
    opens, is at most 50MB and at least 50x50 goes on to preprocessing and
    inference whatever its format: the result is the fallback for
    "Image preprocessing failed" when preprocess_image gives None, and
    otherwise the model is called on the preprocessed array and its output
    decides (a row of five scores gives a successful result with these
    scores).  A format outside JPEG, JPG, PNG, BMP, TIFF only adds a warning
    to the validation record. *)
Theorem predict_coarse_validation env image_data w w1 :
  image_data <> [] ->
  model_ready env w w1 ->
  (forall e, Image_open env image_data = Raise e ->
     refused env image_data w w1 ("Invalid image data: " +:+ exn_str e)) /\
  (forall image, Image_open env image_data = Ok image ->
     50 * 1024 * 1024 < len image_data ->
     refused env image_data w w1 "Image too large (>50MB)") /\
  (forall image, Image_open env image_data = Ok image ->
     len image_data <= 50 * 1024 * 1024 ->
     fst (size image) < 50 \/ snd (size image) < 50 ->
     refused env image_data w w1 "Image too small (<50x50 pixels)") /\
  (forall image, Image_open env image_data = Ok image ->
     len image_data <= 50 * 1024 * 1024 ->
     50 <= fst (size image) -> 50 <= snd (size image) ->
     validate_image_data env image_data !! "valid" = Some (VBool true) /\
     (format image ∉ supported_formats ->
        validate_image_data env image_data !! "warning" =
          Some (VStr ("Unusual image format: " +:+
                      py_str (format_value (format image))))) /\
     (exists out w2, predict env image_data w = (Ok out, w2) /\
                     try_outcome env image_data w1 out w2) /\
     inference env image_data w w1).
Proof.
  intros Hne Hready. split_and!.
  - intros e Hopen. apply predict_refused; [done..|].
    unfold coarse_error. by rewrite Hopen.
  - intros image Hopen Hlen. apply predict_refused; [done..|].
    unfold coarse_error. rewrite Hopen.
    destruct (50 * 1024 * 1024 <? len image_data) eqn:H1; [done|lia].
  - intros image Hopen Hlen Hdim. apply predict_refused; [done..|].
    unfold coarse_error. rewrite Hopen.
    destruct (50 * 1024 * 1024 <? len image_data) eqn:H1; [lia|].
    destruct (fst (size image) <? 50) eqn:H2;
      destruct (snd (size image) <? 50) eqn:H3; try done; lia.
  - intros image Hopen Hlen Hw Hh.
    assert (coarse_verdict env image_data = true) as Hv.
    { unfold coarse_verdict. rewrite Hopen.
      destruct (50 * 1024 * 1024 <? len image_data) eqn:H1; [lia|].
      destruct (fst (size image) <? 50) eqn:H2; [lia|].
      destruct (snd (size image) <? 50) eqn:H3; [lia|]. done. }
    split_and!.
    + by rewrite validate_image_data_valid, Hv.
    + by apply validate_image_data_warning.
    + by apply predict_accepted.
    + by apply predict_inference.
Qed.

Lemma predict_coarse_validation_witness :
  refused Demo.env0 Demo.jpeg_40x200 Demo.world0
    (snd (load_model Demo.env0 Demo.world0)) "Image too small (<50x50 pixels)".
Proof.
  refine (proj1 (proj2 (proj2
            (predict_coarse_validation Demo.env0 Demo.jpeg_40x200 Demo.world0
               (snd (load_model Demo.env0 Demo.world0)) _ _)))
            (Demo.grey (Some "JPEG") "RGB" (40, 200)) _ _ _).
  - discriminate.
  - right. split; reflexivity.
  - reflexivity.
  - vm_compute. discriminate.
  - left. reflexivity.
Defined.

(** ** preprocess_image *)

Lemma resize_lanczos_eq env image :
  resize_lanczos env image = Image_resize env image target_size.
Proof.
  unfold resize_lanczos. destruct (Image_has_Resampling env); [|done].
  destruct (Image_resize env image target_size) as [out|[[] msg]]; done.
Qed.

Lemma to_rgb_mode env image rgb :
  PIL_contract env -> to_rgb env image = Ok rgb -> mode rgb = "RGB".
Proof.
  intros Hpil. unfold to_rgb.
  destruct (String.eqb (mode image) "RGB") eqn:Hm; cbn [negb].
  - intros [= <-]. by apply String.eqb_eq.
  - intros Hc. by apply (convert_ok env Hpil) in Hc as (? & _).
Qed.

Lemma byte_to_Q_range b : (0 <= byte_to_Q b / 255.0 <= 1)%Q.
Proof.
  unfold byte_to_Q. pose proof (Byte.to_N_bounded b) as Hb.
  set (z := Z.of_N (Byte.to_N b)). assert (0 <= z <= 255) as Hz by lia.
  clearbody z. clear Hb.
  split.
  - apply Qle_shift_div_l; [done|]. unfold Qle. simpl. lia.
  - apply Qle_shift_div_r; [done|]. unfold Qle. simpl. lia.
Qed.

Lemma open_image_Ok env image_data image :
  Image_open env image_data = Ok image -> open_image env image_data = Some image.
Proof. intros H. unfold open_image. by rewrite H. Qed.

Lemma preprocess_image_Some env image_data arr :
  preprocess_image env image_data = Some arr ->
  exists out,
    shape (np_array out) = [224; 224; 3] /\
    arr = np_expand_dims0 (np_div (np_array out) 255.0%Q).
Proof.
  unfold preprocess_image.
  destruct image_data as [|b rest] eqn:Hdata; [done|].
  rewrite <- Hdata. clear Hdata.
  destruct (len image_data <? 100); [done|].
  destruct (open_image env image_data) as [image|]; [|done].
  cbn [rbind].
  destruct (to_rgb env image) as [rgb|e]; [|done]. cbn [rbind].
  destruct (resize_lanczos env rgb) as [out|e]; [|done]. cbn [rbind].
  case_bool_decide as Hshape; cbn [negb]; [|done].
  intros [= <-]. by exists out.
Qed.

Lemma np_div_range a :
  Forall (fun x => (0 <= x <= 1)%Q)
         (data (np_expand_dims0 (np_div (np_array a) 255.0%Q))).
Proof.
  cbn [np_expand_dims0 np_div data]. unfold np_array.
  destruct (size a). cbn [data]. rewrite map_map.
  apply Forall_forall. intros x Hx.
  apply list_elem_of_fmap in Hx as (b & -> & _). apply byte_to_Q_range.
Qed.

(** C9, as stated, fails: a 100-byte upload that opens as a 200x200 JPEG
    gives None, not an array, when the resize raises. *)
Lemma preprocess_image_decoded_but_none :
  100 <= len Demo.jpeg_200x200 /\
  Image_open Demo.env_truncated Demo.jpeg_200x200 =
    Ok (Demo.grey (Some "JPEG") "RGB" (200, 200)) /\
  preprocess_image Demo.env_truncated Demo.jpeg_200x200 = None.
Proof. split; [by vm_compute|]. split; reflexivity. Qed.

(** C9, amended.  Whenever preprocess_image returns an array, the array has
    shape (1, 224, 224, 3), that is with a leading batch dimension of size 1,
    and every element lies in [0.0, 1.0].  It returns such an array for
    every input of at least 100 bytes that opens as an image and whose
    conversion to RGB and resize succeed, provided Pillow keeps its contract;
    the array then has 150528 elements, one per sample of the resized image.
    That the bytes open as an image is not enough: when the conversion or
    the resize raises, preprocess_image returns None. *)
Theorem preprocess_image_shape_range env image_data :
  (forall arr, preprocess_image env image_data = Some arr ->
     shape arr = [1; 224; 224; 3] /\
     Forall (fun x => (0 <= x <= 1)%Q) (data arr)) /\
  (forall image rgb out,
     PIL_contract env ->
     100 <= len image_data ->
     Image_open env image_data = Ok image ->
     to_rgb env image = Ok rgb ->
     Image_resize env rgb target_size = Ok out ->
     exists arr,
       preprocess_image env image_data = Some arr /\
       shape arr = [1; 224; 224; 3] /\
       len (data arr) = 1 * 224 * 224 * 3 /\
       length (data arr) = length (pixels out) /\
       Forall (fun x => (0 <= x <= 1)%Q) (data arr)) /\
  (forall image,
     Image_open env image_data = Ok image ->
     (exists e, to_rgb env image = Raise e) \/
     (exists rgb e, to_rgb env image = Ok rgb /\
                    Image_resize env rgb target_size = Raise e) ->
     preprocess_image env image_data = None).
Proof.
  split_and!.
  - intros arr Heq.
    destruct (preprocess_image_Some env image_data arr Heq) as (out & Hshape & ->).
    split; [|apply np_div_range].
    cbn [np_expand_dims0 np_div shape]. by rewrite Hshape.
  - intros image rgb out Hpil Hlen Hopen Hrgb Hres.
    pose proof (to_rgb_mode env image rgb Hpil Hrgb) as Hmode.
    destruct (resize_ok env Hpil _ _ _ Hres) as (Hm & Hsz & Hraster).
    rewrite Hmode in Hm.
    exists (np_expand_dims0 (np_div (np_array out) 255.0%Q)).
    assert (shape (np_array out) = [224; 224; 3]) as Hshape.
    { unfold np_array. rewrite Hsz, Hm. reflexivity. }
    split_and!.
    + unfold preprocess_image.
      destruct image_data as [|b rest]; [by vm_compute in Hlen|].
      destruct (len (b :: rest) <? 100) eqn:Hfloor; [lia|].
      rewrite (open_image_Ok _ _ _ Hopen).
      cbn [rbind]. rewrite Hrgb. cbn [rbind].
      rewrite resize_lanczos_eq, Hres. cbn [rbind].
      rewrite bool_decide_eq_true_2 by done. reflexivity.
    + cbn [np_expand_dims0 np_div shape]. by rewrite Hshape.
    + cbn [np_expand_dims0 np_div data]. unfold np_array.
      destruct (size out) as [w h] eqn:Hs. cbn [data].
      unfold len. rewrite !length_map. unfold raster_ok, len in Hraster.
      rewrite Hraster, Hs, Hm. inversion Hsz. reflexivity.
    + cbn [np_expand_dims0 np_div data]. unfold np_array.
      destruct (size out). cbn [data]. by rewrite !length_map.
    + apply np_div_range.
  - intros image Hopen Hfail. unfold preprocess_image.
    destruct image_data as [|b rest]; [done|].
    destruct (len (b :: rest) <? 100); [done|].
    rewrite (open_image_Ok _ _ _ Hopen). cbn [rbind].
    destruct Hfail as [[e Hrgb]|(rgb & e & Hrgb & Hres)]; rewrite Hrgb; [done|].
    cbn [rbind]. by rewrite resize_lanczos_eq, Hres.
Qed.

Lemma mode_bands_nonneg m : 0 <= mode_bands m.
Proof. unfold mode_bands. repeat case_bool_decide; lia. Qed.

Lemma grey_raster_ok fmt m sz :
  0 <= fst sz -> 0 <= snd sz -> raster_ok (Demo.grey fmt m sz).
Proof.
  intros Hw Hh. unfold raster_ok, Demo.grey, len. cbn [pixels size mode].
  rewrite repeat_length. pose proof (mode_bands_nonneg m). nia.
Qed.

Lemma toy_contract cfg files row : PIL_contract (Demo.env_with cfg files row).
Proof.
  split; cbn [Image_convert Image_resize Demo.env_with].
  - intros image m image'. unfold Demo.toy_convert.
    destruct (0 <=? fst (size image)) eqn:Hw; [|done].
    destruct (0 <=? snd (size image)) eqn:Hh; [|done].
    intros [= <-]. split_and!; [done..|]. apply grey_raster_ok; lia.
  - intros image sz image'. unfold Demo.toy_resize.
    destruct (0 <? fst sz) eqn:Hw; [|done].
    destruct (0 <? snd sz) eqn:Hh; [|done].
    intros [= <-]. split_and!; [done..|]. apply grey_raster_ok; lia.
Qed.

Lemma preprocess_image_shape_range_witness :
  exists arr,
    preprocess_image Demo.env0 Demo.grey_png_60x60 = Some arr /\
    shape arr = [1; 224; 224; 3] /\
    len (data arr) = 1 * 224 * 224 * 3 /\
    length (data arr) = length (pixels (Demo.grey None "RGB" (224, 224))) /\
    Forall (fun x => (0 <= x <= 1)%Q) (data arr).
Proof.
  apply (proj1 (proj2 (preprocess_image_shape_range Demo.env0 Demo.grey_png_60x60))
           (Demo.grey (Some "PNG") "L" (60, 60))
           (Demo.grey None "RGB" (60, 60))
           (Demo.grey None "RGB" (224, 224))).
  - apply toy_contract.
  - vm_compute. discriminate.
  - reflexivity.
  - reflexivity.
  - reflexivity.
Defined.

(** ** The confidence decision *)

Lemma Qle_bool_true x y : Qle_bool x y = true <-> (x <= y)%Q.
Proof. apply Qle_bool_iff. Qed.

Lemma Qle_bool_false x y : Qle_bool x y = false <-> (y < x)%Q.
Proof.
  split.
  - intros H. apply Qnot_le_lt. intros Hle. apply Qle_bool_iff in Hle. congruence.
  - intros Hlt. destruct (Qle_bool x y) eqn:E; [|done].
    apply Qle_bool_iff in E. by apply Qlt_not_le in Hlt.
Qed.











Lemma Qlt_bool_true x y : Qlt_bool x y = true <-> (x < y)%Q.
Proof. unfold Qlt_bool. by rewrite negb_true_iff, Qle_bool_false. Qed.

Lemma Qlt_bool_false x y : Qlt_bool x y = false <-> (y <= x)%Q.
Proof. unfold Qlt_bool. by rewrite negb_false_iff, Qle_bool_true. Qed.




Ltac q_lia := unfold Qle, Qlt in *; simpl in *; lia.

Lemma clamp_confidence_range c : (0 <= clamp_confidence c <= 1)%Q.
Proof.
  unfold clamp_confidence, py_max, py_min.
  destruct (Qle_bool 0.0 c) eqn:H0;
    [apply Qle_bool_true in H0|apply Qle_bool_false in H0];
    (destruct (Qle_bool c 1.0) eqn:H1;
      [apply Qle_bool_true in H1|apply Qle_bool_false in H1]);
    cbn [andb negb];
    try (destruct (Qlt_bool c 1.0) eqn:H2;
          [apply Qlt_bool_true in H2|apply Qlt_bool_false in H2]);
    try (destruct (Qlt_bool 0.0 c) eqn:H3;
          [apply Qlt_bool_true in H3|apply Qlt_bool_false in H3]);
    try (destruct (Qlt_bool 0.0 1.0) eqn:H4;
          [apply Qlt_bool_true in H4|apply Qlt_bool_false in H4]);
    q_lia.
Qed.

Lemma clamp_confidence_id c : (0 <= c <= 1)%Q -> clamp_confidence c = c.
Proof.
  intros [H0 H1]. unfold clamp_confidence.
  assert (Qle_bool 0.0 c = true) as -> by (apply Qle_bool_true; q_lia).
  assert (Qle_bool c 1.0 = true) as -> by (apply Qle_bool_true; q_lia).
  done.
Qed.





(** * Further properties *)

(** ** predict: order of the checks *)

Lemma predict_step_unavailable env image_data w w1 :
  image_data <> [] ->
  is_model_available (self w) = false ->
  load_model env w = (Ok false, w1) ->
  predict env image_data w = (Ok (fallback_result "Model not available", false), w1).
Proof.
  intros Hne Hav Hload. unfold predict.
  destruct image_data as [|b rest]; [done|].
  unfold bind at 1, get_self. unfold bind at 1.
  rewrite Hav. cbn [negb]. rewrite Hload. cbn [negb].
  apply fallback_run.
Qed.

Lemma preprocess_image_short env image_data :
  len image_data < 100 -> preprocess_image env image_data = None.
Proof.
  intros Hlen. unfold preprocess_image.
  destruct image_data as [|b rest]; [done|].
  destruct (len (b :: rest) <? 100) eqn:H; [done|lia].
Qed.

(** X1. When the model is not available and cannot be loaded, predict
    answers every non-empty input, a valid image or not, with the fallback
    for "Model not available": the availability check comes before the
    validation of the image, which is never reached.  The world left behind
    is the one of the failed load attempt. *)
Theorem predict_unavailable_before_validation env image_data w w1 :
  image_data <> [] ->
  is_model_available (self w) = false ->
  load_model env w = (Ok false, w1) ->
  exists res,
    predict env image_data w = (Ok (res, false), w1) /\
    field "fallback_reason" res = Some (VStr "Model not available") /\
    field "disease" res = Some (VStr "healthy") /\
    field "success" res = Some (VBool false) /\
    field "error" res = None.
Proof.
  intros Hne Hav Hload. exists (fallback_result "Model not available").
  split; [by apply predict_step_unavailable|].
  repeat split; vm_compute; reflexivity.
Qed.

Lemma predict_unavailable_before_validation_witness :
  exists res w1,
    predict Demo.env_absent Demo.garbage Demo.world0 = (Ok (res, false), w1) /\
    field "fallback_reason" res = Some (VStr "Model not available") /\
    field "error" res = None.
Proof.
  destruct (load_model_absent Demo.env_absent Demo.world0 eq_refl)
    as (w1 & Hload & _); [intros p; reflexivity|].
  destruct (predict_unavailable_before_validation Demo.env_absent Demo.garbage
              Demo.world0 w1) as (res & Heq & Hr & _ & _ & He);
    [discriminate|reflexivity|exact Hload|].
  exists res, w1. exact (conj Heq (conj Hr He)).
Defined.

(** X2. An image that passes the coarse validation but has fewer than 100
    bytes is never classified: once the model is available, predict returns
    the fallback for "Image preprocessing failed" and does not call the
    model. *)
Theorem predict_short_valid_image env image_data w w1 :
  image_data <> [] ->
  model_ready env w w1 ->
  coarse_verdict env image_data = true ->
  len image_data < 100 ->
  exists res,
    predict env image_data w = (Ok (res, false), w1) /\
    field "fallback_reason" res = Some (VStr "Image preprocessing failed") /\
    field "success" res = Some (VBool false) /\
    exists evs, trace w1 = trace w ++ evs /\ no_model_call evs.
Proof.
  intros Hne Hready Hv Hlen.
  exists (fallback_result "Image preprocessing failed").
  split_and!; [|vm_compute; reflexivity..|by eapply model_ready_trace].
  rewrite (predict_step_ready env image_data w w1 Hne Hready), Hv.
  unfold predict_try. rewrite preprocess_image_short by done.
  apply fallback_run.
Qed.

Lemma predict_short_valid_image_witness :
  exists res,
    predict Demo.env0 [x00; xc8; xc8] Demo.world0
      = (Ok (res, false), snd (load_model Demo.env0 Demo.world0)) /\
    field "fallback_reason" res = Some (VStr "Image preprocessing failed").
Proof.
  destruct (predict_short_valid_image Demo.env0 [x00; xc8; xc8] Demo.world0
              (snd (load_model Demo.env0 Demo.world0)))
    as (res & Heq & Hr & _).
  - discriminate.
  - right. split; reflexivity.
  - reflexivity.
  - reflexivity.
  - exists res. exact (conj Heq Hr).
Defined.

(** ** predict: flag and confidence *)

Lemma fallback_result_threshold_met reason :
  field "confidence_threshold_met" (fallback_result reason) = Some (VBool false).
Proof. vm_compute. reflexivity. Qed.

Lemma error_result_invalid_threshold_met v :
  field "confidence_threshold_met" (error_result_invalid v) = None.
Proof. reflexivity. Qed.

Lemma try_outcome_flag env image_data w out w' :
  try_outcome env image_data w out w' ->
  field "confidence_threshold_met" (fst out) = Some (VBool (snd out)) /\
  (snd out = true -> field "success" (fst out) = Some (VBool true)) /\
  exists c, field "confidence" (fst out) = Some (VFloat c) /\ (0 <= c <= 1)%Q.
Proof.
  destruct 1 as [reason|reason x Hpre
                |x m row rest idx key top entries Hpre Hm Hp Hlen Hidx Hkey Htop Hsc];
    cbn [fst snd].
  1, 2: split_and!; [exact (fallback_result_threshold_met reason)|done|];
        exists 0.5%Q; split; [vm_compute; reflexivity|q_lia].
  destruct (success_outcome_fields env row key top entries)
    as (_ & Hc & Hs & Hmet & _).
  split_and!; [done|done|].
  eexists. split; [exact Hc|]. apply clamp_confidence_range.
Qed.

Lemma predict_outcome_flag env image_data w out w' :
  predict_outcome env image_data w out w' ->
  (snd out = true -> field "success" (fst out) = Some (VBool true)) /\
  (forall b, field "confidence_threshold_met" (fst out) = Some (VBool b) ->
             b = snd out) /\
  exists c, field "confidence" (fst out) = Some (VFloat c) /\ (0 <= c <= 1)%Q.
Proof.
  destruct 1 as [Hnil|w1 Hne Hav Hload|w1 Hne Hready Hv|w1 out w2 Hne Hready Hv Htry];
    cbn [fst snd].
  - split_and!; [done|intros b Hb; by vm_compute in Hb|].
    exists 0.0%Q. split; [vm_compute; reflexivity|q_lia].
  - split_and!; [done| |].
    + intros b Hb. rewrite fallback_result_threshold_met in Hb. congruence.
    + exists 0.5%Q. split; [vm_compute; reflexivity|q_lia].
  - split_and!; [done| |].
    + intros b Hb. rewrite error_result_invalid_threshold_met in Hb. congruence.
    + exists 0.0%Q. split; [reflexivity|q_lia].
  - destruct (try_outcome_flag _ _ _ _ _ Htry) as (Hmet & Hs & Hc).
    split_and!; [done| |done]. intros b Hb. rewrite Hmet in Hb. congruence.
Qed.

(** X3. The flag returned by predict is true only together with a successful
    inference: every error and fallback result comes with the flag false.
    Whenever the result has a confidence_threshold_met entry, the flag
    repeats it. *)
Theorem predict_flag_only_on_success env image_data w :
  exists res flag w',
    predict env image_data w = (Ok (res, flag), w') /\
    (flag = true -> field "success" res = Some (VBool true)) /\
    (field "success" res <> Some (VBool true) -> flag = false) /\
    (forall b, field "confidence_threshold_met" res = Some (VBool b) -> b = flag).
Proof.
  destruct (predict_outcomes env image_data w) as ([res flag] & w' & Heq & Hout).
  destruct (predict_outcome_flag _ _ _ _ _ Hout) as (Hs & Hmet & _).
  cbn [fst snd] in *. exists res, flag, w'. split_and!; [done..| |done].
  intros Hns. destruct flag; [|done]. by specialize (Hs eq_refl).
Qed.

Lemma predict_flag_only_on_success_witness :
  Demo.flag_of Demo.env0 Demo.jpeg_200x200 = true /\
  field "success" (Demo.result_of Demo.env0 Demo.jpeg_200x200) = Some (VBool true).
Proof.
  destruct (predict_flag_only_on_success Demo.env0 Demo.jpeg_200x200 Demo.world0)
    as (res & flag & w' & Heq & Hs & _).
  rewrite demo_run_ok in Heq. injection Heq as <- <- _.
  assert (Demo.flag_of Demo.env0 Demo.jpeg_200x200 = true) as Hflag
    by (vm_compute; reflexivity).
  exact (conj Hflag (Hs Hflag)).
Defined.

(** X4. On every path the result of predict carries a confidence in the
    closed interval [0, 1]: 0.0 on the error branches, 0.5 on the fallback
    paths, and the clamped top score after a successful inference, whatever
    values the model emits. *)
Theorem predict_confidence_unit_interval env image_data w :
  exists res flag w' c,
    predict env image_data w = (Ok (res, flag), w') /\
    field "confidence" res = Some (VFloat c) /\
    (0 <= c <= 1)%Q.
Proof.
  destruct (predict_outcomes env image_data w) as ([res flag] & w' & Heq & Hout).
  destruct (predict_outcome_flag _ _ _ _ _ Hout) as (_ & _ & c & Hc & Hrange).
  by exists res, flag, w', c.
Qed.

(** ** predict: the reported class *)

Lemma argmax_from_spec l : forall pre best m i,
  i = len pre ->
  0 <= best < i ->
  pre !! Z.to_nat best = Some m ->
  Forall (fun y => (y <= m)%Q) pre ->
  (forall (k : nat) y, Z.of_nat k < best -> pre !! k = Some y -> (y < m)%Q) ->
  let idx := argmax_from best m i l in
  let top := foldl (fun m y => if Qlt_bool m y then y else m) m l in
  (pre ++ l) !! Z.to_nat idx = Some top /\
  Forall (fun y => (y <= top)%Q) (pre ++ l) /\
  (forall (k : nat) y, Z.of_nat k < idx -> (pre ++ l) !! k = Some y -> (y < top)%Q).
Proof.
  induction l as [|y r IH]; intros pre best m i Hi Hbest Hm Hall Hbefore;
    cbn [argmax_from foldl]; cbn zeta.
  - rewrite app_nil_r. done.
  - assert (len (pre ++ [y]) = i + 1) as Hlen'.
    { unfold len in *. rewrite length_app. simpl. lia. }
    replace (pre ++ y :: r) with ((pre ++ [y]) ++ r) by (by rewrite <- app_assoc).
    destruct (Qlt_bool m y) eqn:Hmy.
    + apply Qlt_bool_true in Hmy.
      apply (IH (pre ++ [y]) i y (i + 1)); [lia|lia| | |].
      * rewrite lookup_app_r by (unfold len in Hi; lia).
        replace (Z.to_nat i - length pre)%nat with 0%nat by (unfold len in Hi; lia).
        done.
      * apply Forall_app. split; [|by repeat constructor; apply Qle_refl].
        eapply Forall_impl; [exact Hall|]. intros z Hz. cbn beta in *.
        apply Qlt_le_weak. by eapply Qle_lt_trans.
      * intros k z Hk Hz.
        rewrite lookup_app_l in Hz by (unfold len in Hi; lia).
        rewrite Forall_forall in Hall.
        eapply Qle_lt_trans; [|exact Hmy]. apply Hall.
        by eapply list_elem_of_lookup_2.
    + apply Qlt_bool_false in Hmy.
      apply (IH (pre ++ [y]) best m (i + 1)); [lia|lia| | |].
      * rewrite lookup_app_l; [done|]. unfold len in Hi; lia.
      * apply Forall_app. split; [done|by repeat constructor].
      * intros k z Hk Hz.
        rewrite lookup_app_l in Hz by (unfold len in Hi; lia). by eapply Hbefore.
Qed.

Lemma np_argmax_spec row idx top :
  np_argmax row = Ok idx ->
  np_max row = Ok top ->
  row !! Z.to_nat idx = Some top /\
  Forall (fun y => (y <= top)%Q) row /\
  (forall (k : nat) y, Z.of_nat k < idx -> row !! k = Some y -> (y < top)%Q).
Proof.
  destruct row as [|x r]; [done|]. cbn [np_argmax np_max].
  intros [= <-] [= <-].
  apply (argmax_from_spec r [x] 0 x 1); [done|lia|done| |].
  - repeat constructor. apply Qle_refl.
  - intros k y Hk. lia.
Qed.

Lemma lookup_zip_pair {A B} (l1 : list A) (l2 : list B) (i : nat) a b :
  l1 !! i = Some a -> l2 !! i = Some b -> zip l1 l2 !! i = Some (a, b).
Proof.
  revert l2 i. induction l1 as [|x l1 IH]; intros [|y l2] [|i]; try done.
  - by intros [= ->] [= ->].
  - cbn. apply IH.
Qed.

Lemma lookup_zip_snd {A B} (l1 : list A) (l2 : list B) (i : nat) a b :
  zip l1 l2 !! i = Some (a, b) -> l2 !! i = Some b.
Proof.
  revert l2 i. induction l1 as [|x l1 IH]; intros [|y l2] [|i]; try done.
  - by intros [= _ ->].
  - cbn. apply IH.
Qed.

Lemma predict_success_table env image_data w res flag w' :
  predict env image_data w = (Ok (res, flag), w') ->
  field "success" res = Some (VBool true) ->
  exists scores (i : nat) d q,
    all_scores res = Some scores /\
    field "disease" res = Some (VStr d) /\
    scores !! i = Some (d, q) /\
    class_names !! i = Some d /\
    (forall j d' q', scores !! j = Some (d', q') -> (q' <= q)%Q) /\
    (forall j d' q', (j < i)%nat -> scores !! j = Some (d', q') -> (q' < q)%Q) /\
    field "confidence" res = Some (VFloat (clamp_confidence q)).
Proof.
  intros Heq Hsucc.
  destruct (predict_outcomes env image_data w) as (out & w2 & Heq2 & Hout).
  rewrite Heq in Heq2. injection Heq2 as <- <-.
  assert (forall reason, field "success" (fallback_result reason)
                         <> Some (VBool true)) as Hfb.
  { intros reason. destruct (fallback_result_fields reason) as (_ & _ & -> & _).
    discriminate. }
  remember (res, flag) as out eqn:Hpair.
  destruct Hout as [Hnil|w1 Hne Hav Hload|w1 Hne Hr Hv|w1 out w3 Hne Hr Hv Htry];
    try (injection Hpair as <- <-).
  - by vm_compute in Hsucc.
  - by apply Hfb in Hsucc.
  - destruct (error_result_invalid_fields (validate_image_data env image_data))
      as (_ & _ & _ & Hs & _). rewrite Hs in Hsucc. discriminate.
  - destruct Htry as [reason|reason x Hpre
                     |x m row rest idx key top entries Hpre Hm Hp Hlen Hidx Hkey Htop Hsc].
    1, 2: injection Hpair as <- <-; exact (False_ind _ (Hfb reason Hsucc)).
    destruct (success_outcome_fields env row key top entries)
      as (Hd & Hc & _ & _ & Hall & _).
    rewrite Hpair in Hd, Hc, Hall. cbn [fst] in *.
    destruct (np_argmax_spec row idx top Hidx Htop) as (Hat & Hmax & Hfirst).
    exists (zip class_names row), (Z.to_nat idx), key, top.
    pose proof (np_argmax_bounds row idx Hidx) as Hb.
    split_and!; try done.
    + unfold all_scores. by rewrite Hall.
    + by apply lookup_zip_pair.
    + intros j d' q' Hj. apply lookup_zip_snd in Hj.
      rewrite Forall_forall in Hmax. apply Hmax.
      by eapply list_elem_of_lookup_2.
    + intros j d' q' Hlt Hj. apply lookup_zip_snd in Hj.
      apply (Hfirst j); [lia|done].
Qed.

(** X5. After a successful inference the reported disease is the class with
    the largest score in the score table; when several classes share the
    largest score it is the first of them in label order (every class
    before it has a strictly smaller score).  The reported confidence is
    that largest score clamped into [0, 1]. *)
Theorem predict_reports_first_argmax env image_data w res flag w' :
  predict env image_data w = (Ok (res, flag), w') ->
  field "success" res = Some (VBool true) ->
  exists scores (i : nat) d q,
    all_scores res = Some scores /\
    field "disease" res = Some (VStr d) /\
    scores !! i = Some (d, q) /\
    class_names !! i = Some d /\
    (forall j d' q', scores !! j = Some (d', q') -> (q' <= q)%Q) /\
    (forall j d' q', (j < i)%nat -> scores !! j = Some (d', q') -> (q' < q)%Q) /\
    field "confidence" res = Some (VFloat (clamp_confidence q)).
Proof. apply predict_success_table. Qed.

Lemma predict_reports_first_argmax_witness :
  exists scores (i : nat) d q,
    all_scores (Demo.result_of Demo.env0 Demo.jpeg_200x200) = Some scores /\
    field "disease" (Demo.result_of Demo.env0 Demo.jpeg_200x200) = Some (VStr d) /\
    scores !! i = Some (d, q) /\
    class_names !! i = Some d.
Proof.
  assert (field "success" (Demo.result_of Demo.env0 Demo.jpeg_200x200)
          = Some (VBool true)) as Hsucc by (vm_compute; reflexivity).
  destruct (predict_reports_first_argmax Demo.env0 Demo.jpeg_200x200
              Demo.world0 _ _ _ (demo_run_ok _ _) Hsucc)
    as (scores & i & d & q & Hsc & Hd & Hi & Hcls & _).
  exists scores, i, d, q. exact (conj Hsc (conj Hd (conj Hi Hcls))).
Defined.

Lemma clamp_confidence_above q : (1 < q)%Q -> clamp_confidence q = 1.0%Q.
Proof.
  intros Hq. unfold clamp_confidence, py_max, py_min.
  assert (Qle_bool q 1.0 = false) as -> by (apply Qle_bool_false; q_lia).
  rewrite andb_false_r. cbn [negb].
  assert (Qlt_bool q 1.0 = false) as -> by (apply Qlt_bool_false; q_lia).
  reflexivity.
Qed.

Lemma clamp_confidence_below q : (q < 0)%Q -> clamp_confidence q = 0.0%Q.
Proof.
  intros Hq. unfold clamp_confidence, py_max, py_min.
  assert (Qle_bool 0.0 q = false) as -> by (apply Qle_bool_false; q_lia).
  cbn [andb negb].
  assert (Qlt_bool q 1.0 = true) as -> by (apply Qlt_bool_true; q_lia).
  assert (Qlt_bool 0.0 q = false) as -> by (apply Qlt_bool_false; q_lia).
  reflexivity.
Qed.

(** X6. After a successful inference the score table keeps the raw scores of
    the model, while the reported confidence is clamped: it equals the table
    entry of the reported disease when that score lies in [0, 1], it is 1.0
    when the score exceeds 1 and 0.0 when the score is negative, so that
    confidence and table disagree for out-of-range model outputs. *)
Theorem predict_confidence_against_table env image_data w res flag w' :
  predict env image_data w = (Ok (res, flag), w') ->
  field "success" res = Some (VBool true) ->
  exists scores d q c,
    all_scores res = Some scores /\
    field "disease" res = Some (VStr d) /\
    (d, q) ∈ scores /\
    field "confidence" res = Some (VFloat c) /\
    ((0 <= q <= 1)%Q -> c = q) /\
    ((1 < q)%Q -> c = 1.0%Q /\ (c < q)%Q) /\
    ((q < 0)%Q -> c = 0.0%Q /\ (q < c)%Q).
Proof.
  intros Heq Hsucc.
  destruct (predict_success_table _ _ _ _ _ _ Heq Hsucc)
    as (scores & i & d & q & Hsc & Hd & Hi & _ & _ & _ & Hc).
  exists scores, d, q, (clamp_confidence q).
  split_and!; try done.
  - by eapply list_elem_of_lookup_2.
  - apply clamp_confidence_id.
  - intros Hq. rewrite clamp_confidence_above by done. split; [done|q_lia].
  - intros Hq. rewrite clamp_confidence_below by done. split; [done|q_lia].
Qed.

Lemma predict_confidence_against_table_witness :
  let env := Demo.env_with default_settings [Demo.model_file]
               [0.1; 0.1; 1.5; 0.1; 0.1]%Q in
  field "confidence" (Demo.result_of env Demo.jpeg_200x200) = Some (VFloat 1.0%Q) /\
  exists scores, all_scores (Demo.result_of env Demo.jpeg_200x200) = Some scores /\
                 ("healthy", 1.5%Q) ∈ scores.
Proof.
  intros env.
  assert (field "success" (Demo.result_of env Demo.jpeg_200x200)
          = Some (VBool true)) as Hsucc by (vm_compute; reflexivity).
  destruct (predict_confidence_against_table env Demo.jpeg_200x200
              Demo.world0 _ _ _ (demo_run_ok _ _) Hsucc)
    as (scores & d & q & c & Hsc & Hd & Hin & Hc & _).
  split; [vm_compute; reflexivity|].
  exists scores. split; [exact Hsc|].
  assert (all_scores (Demo.result_of env Demo.jpeg_200x200)
          = Some (zip class_names [0.1; 0.1; 1.5; 0.1; 0.1]%Q)) as Hsc'
    by (vm_compute; reflexivity).
  rewrite Hsc in Hsc'. injection Hsc' as ->.
  apply list_elem_of_In. simpl. tauto.
Defined.

(** ** predict: calls to the outside *)

Lemma try_outcome_trace env image_data w out w' :
  try_outcome env image_data w out w' ->
  self w' = self w /\
  (trace w' = trace w \/
   (trace w' = trace w ++ [EvModelPredict] /\
    exists x, preprocess_image env image_data = Some x)).
Proof. destruct 1; simpl; split; try done; eauto. Qed.

(** X7. Once the model is available predict never touches the file system
    again and never changes the classifier: the only call it may add to the
    trace is a single call of the model. *)
Theorem predict_available_no_filesystem env image_data w :
  is_model_available (self w) = true ->
  exists out w',
    predict env image_data w = (Ok out, w') /\
    self w' = self w /\
    (trace w' = trace w \/ trace w' = trace w ++ [EvModelPredict]).
Proof.
  intros Hav.
  destruct (predict_outcomes env image_data w) as (out & w' & Heq & Hout).
  exists out, w'. split; [done|].
  assert (forall w1, model_ready env w w1 -> w1 = w) as Hready.
  { intros w1 [[_ ->]|[Hna _]]; [done|congruence]. }
  destruct Hout as [Hnil|w1 Hne Hna Hload|w1 Hne Hr Hv|w1 out w2 Hne Hr Hv Htry].
  - by split; [|left].
  - congruence.
  - rewrite (Hready _ Hr). by split; [|left].
  - rewrite (Hready _ Hr) in Htry.
    destruct (try_outcome_trace _ _ _ _ _ Htry) as [Hs [Ht|[Ht _]]]; eauto.
Qed.

Lemma predict_available_no_filesystem_witness :
  let w := snd (load_model Demo.env0 Demo.world0) in
  exists out w',
    predict Demo.env0 Demo.jpeg_200x200 w = (Ok out, w') /\
    self w' = self w /\
    (trace w' = trace w \/ trace w' = trace w ++ [EvModelPredict]).
Proof.
  intros w.
  apply (predict_available_no_filesystem Demo.env0 Demo.jpeg_200x200 w).
  reflexivity.
Defined.

(** X8. predict calls the model at most once, after all its file-system
    calls, and only on input that passed the coarse validation and was
    preprocessed into an array. *)
Theorem predict_calls_model_at_most_once env image_data w :
  exists out w' evs calls,
    predict env image_data w = (Ok out, w') /\
    trace w' = trace w ++ evs ++ calls /\
    no_model_call evs /\
    (calls = [] \/
     (calls = [EvModelPredict] /\
      coarse_verdict env image_data = true /\
      exists x, preprocess_image env image_data = Some x)).
Proof.
  destruct (predict_outcomes env image_data w) as (out & w' & Heq & Hout).
  exists out, w'.
  destruct Hout as [Hnil|w1 Hne Hna Hload|w1 Hne Hr Hv|w1 out w2 Hne Hr Hv Htry].
  - exists [], []. split_and!; [done|by rewrite !app_nil_r|constructor|by left].
  - destruct (load_model_trace env w) as (evs & Ht & Hev). rewrite Hload in Ht.
    exists evs, []. split_and!; [done|by rewrite app_nil_r|done|by left].
  - destruct (model_ready_trace _ _ _ Hr) as (evs & Ht & Hev).
    exists evs, []. split_and!; [done|by rewrite app_nil_r|done|by left].
  - destruct (model_ready_trace _ _ _ Hr) as (evs & Ht & Hev).
    destruct (try_outcome_trace _ _ _ _ _ Htry) as [_ [Ht2|[Ht2 Hpre]]].
    + exists evs, []. split_and!; [done| |done|by left].
      by rewrite app_nil_r, Ht2.
    + exists evs, [EvModelPredict]. split_and!; [done| |done|right; done].
      by rewrite Ht2, Ht, <- app_assoc.
Qed.

(** ** load_model: retries *)

Lemma abspath_fst_indep env p w w' :
  fst (abspath env p w) = fst (abspath env p w').
Proof.
  unfold abspath. destruct (os_path_isabs p); unfold_m; [done|].
  by destruct (os_getcwd env).
Qed.

Lemma first_existing_fst_indep env paths : forall w w',
  fst (first_existing env paths w) = fst (first_existing env paths w').
Proof.
  induction paths as [|p rest IH]; intros w w'; [done|].
  rewrite !first_existing_cons. cbn zeta.
  destruct (os_path_exists env p); [|apply IH].
  match goal with |- context [abspath env p ?w1] =>
    match goal with |- context [fst (match abspath env p ?w2 with _ => _ end) = fst (match abspath env p w1 with _ => _ end)] =>
      pose proof (abspath_fst_indep env p w2 w1) as H;
      destruct (abspath env p w2) as [[q|e] wa];
      destruct (abspath env p w1) as [[q'|e'] wb] end end;
    simpl in *; congruence.
Qed.

Lemma resolve_model_path_fst_indep env w w' :
  fst (_resolve_model_path env w) = fst (_resolve_model_path env w').
Proof.
  unfold _resolve_model_path. unfold_m.
  destruct (os_getcwd env) as [cwd|e]; cbn beta iota; [|done].
  apply first_existing_fst_indep.
Qed.

Lemma resolve_model_path_trace_getcwd env w :
  exists evs, trace (snd (_resolve_model_path env w)) = trace w ++ EvGetcwd :: evs.
Proof.
  unfold _resolve_model_path. unfold_m.
  destruct (os_getcwd env) as [cwd|e]; cbn beta iota.
  - match goal with |- context [first_existing env ?l ?w1] =>
      destruct (first_existing_trace env l w1) as (evs & Ht & _) end.
    exists (EvGetcwd :: evs). simpl in *. by rewrite Ht, <- !app_assoc.
  - exists []. done.
Qed.

Lemma load_model_verdict env w :
  model_loaded (self w) = false ->
  exists w1,
    load_model env w =
      (Ok (fst (load_verdict env (fst (_resolve_model_path env w)))), w1) /\
    model_loaded (self w1) = fst (load_verdict env (fst (_resolve_model_path env w))) /\
    load_error (self w1) = snd (load_verdict env (fst (_resolve_model_path env w))) /\
    exists evs, trace w1 = trace w ++ EvGetcwd :: evs.
Proof.
  intros Hl.
  destruct (load_model_not_loaded env w Hl) as (b & w1 & Heq & Hout).
  destruct (resolve_model_path_trace_getcwd env w) as (evs & Ht).
  exists w1. rewrite Heq.
  destruct Hout as [e w2 Hr|w2 Hr|p w2 Hr Hex|p w2 e Hr Hex Hsz
                   |p w2 sz e Hr Hex Hsz Hk|p w2 sz m Hr Hex Hsz Hk];
    rewrite Hr in *; cbn [fst snd load_verdict self trace model_loaded load_error] in *;
    rewrite ?Hex, ?Hsz, ?Hk; cbn [fst snd];
    (split_and!; [done..|]); rewrite Ht, <- ?app_assoc; eauto.
Qed.

(** X9. A failed load is not remembered: while the model is not loaded,
    every call of load_model runs the whole attempt again, starting with a
    look at the working directory, and its flag and the resulting
    model_loaded and load_error depend on the environment only, not on the
    state left by earlier attempts.  So a load succeeds as soon as the model
    file becomes available. *)
Theorem load_model_retries_afresh env w w' :
  model_loaded (self w) = false ->
  model_loaded (self w') = false ->
  fst (load_model env w) = fst (load_model env w') /\
  model_loaded (self (snd (load_model env w))) =
    model_loaded (self (snd (load_model env w'))) /\
  load_error (self (snd (load_model env w))) =
    load_error (self (snd (load_model env w'))) /\
  exists evs, trace (snd (load_model env w)) = trace w ++ EvGetcwd :: evs.
Proof.
  intros Hl Hl'.
  destruct (load_model_verdict env w Hl) as (w1 & -> & Hm & He & Ht).
  destruct (load_model_verdict env w' Hl') as (w1' & -> & Hm' & He' & _).
  cbn [fst snd].
  rewrite Hm, Hm', He, He', (resolve_model_path_fst_indep env w w'). done.
Qed.

Lemma load_model_retries_afresh_witness :
  let failed := snd (load_model Demo.env_absent Demo.world0) in
  load_error (self failed) = Some "Model file not found in any expected location" /\
  fst (load_model Demo.env0 failed) = Ok true /\
  load_error (self (snd (load_model Demo.env0 failed))) = None.
Proof.
  intros failed.
  destruct (load_model_retries_afresh Demo.env0 failed Demo.world0)
    as (Hflag & _ & Herr & _); [reflexivity|reflexivity|].
  split; [reflexivity|]. split.
  - rewrite Hflag. reflexivity.
  - rewrite Herr. reflexivity.
Defined.

(** ** preprocess_image: what it returns whatever Pillow does *)

Lemma open_image_spec env image_data :
  open_image env image_data =
    match Image_open env image_data with
    | Ok image => Some image
    | Raise _ => None
    end.
Proof.
  unfold open_image. by destruct (Image_open env image_data).
Qed.

(** X10. Whenever preprocess_image returns an array, the array has shape
    (1, 224, 224, 3) and all its elements lie in [0.0, 1.0], the input had
    at least 100 bytes and opened as an image: the shape test of the code
    makes this hold for any behaviour of the imaging library. *)
Theorem preprocess_image_returns_checked_array env image_data arr :
  preprocess_image env image_data = Some arr ->
  shape arr = [1; 224; 224; 3] /\
  Forall (fun x => (0 <= x <= 1)%Q) (data arr) /\
  100 <= len image_data /\
  exists image, Image_open env image_data = Ok image.
Proof.
  unfold preprocess_image.
  destruct image_data as [|b rest] eqn:Hdata; [done|].
  rewrite <- Hdata. clear Hdata.
  destruct (len image_data <? 100) eqn:Hlen; [done|].
  rewrite open_image_spec.
  destruct (Image_open env image_data) as [image|e]; [|done].
  cbn [rbind].
  destruct (to_rgb env image) as [rgb|e]; [|done]. cbn [rbind].
  destruct (resize_lanczos env rgb) as [out|e]; [|done]. cbn [rbind].
  case_bool_decide as Hshape; cbn [negb]; [|done].
  intros [= <-]. split_and!.
  - cbn [np_expand_dims0 np_div shape]. by rewrite Hshape.
  - cbn [np_expand_dims0 np_div data]. unfold np_array.
    destruct (size out). cbn [data]. rewrite map_map.
    apply Forall_forall. intros x Hx.
    apply list_elem_of_fmap in Hx as (c & -> & _). apply byte_to_Q_range.
  - lia.
  - eauto.
Qed.

Lemma preprocess_image_returns_checked_array_witness :
  exists arr,
    preprocess_image Demo.env0 Demo.grey_png_60x60 = Some arr /\
    shape arr = [1; 224; 224; 3] /\
    100 <= len Demo.grey_png_60x60.
Proof.
  pose (arr := np_expand_dims0
                 (np_div (np_array (Demo.grey None "RGB" (224, 224))) 255.0%Q)).
  assert (preprocess_image Demo.env0 Demo.grey_png_60x60 = Some arr) as Heq
    by reflexivity.
  destruct (preprocess_image_returns_checked_array Demo.env0 Demo.grey_png_60x60
              arr Heq) as (Hshape & _ & Hlen & _).
  exists arr. exact (conj Heq (conj Hshape Hlen)).
Defined.

(** X11. preprocess_image gives None, and never an exception, for input of
    fewer than 100 bytes, for bytes that Image.open refuses (the second
    attempt of the code opens the same bytes again and fails in the same
    way), and when the conversion to RGB or the resampling raises. *)
Theorem preprocess_image_rejections env image_data :
  (len image_data < 100 -> preprocess_image env image_data = None) /\
  (forall e, Image_open env image_data = Raise e ->
             preprocess_image env image_data = None) /\
  (forall image e, Image_open env image_data = Ok image ->
                   to_rgb env image = Raise e ->
                   preprocess_image env image_data = None) /\
  (forall image rgb e, Image_open env image_data = Ok image ->
                       to_rgb env image = Ok rgb ->
                       Image_resize env rgb target_size = Raise e ->
                       preprocess_image env image_data = None).
Proof.
  split_and!.
  - apply preprocess_image_short.
  - intros e Hopen. unfold preprocess_image.
    destruct image_data as [|b rest]; [done|].
    rewrite open_image_spec, Hopen. by destruct (_ <? _).
  - intros image e Hopen Hrgb. unfold preprocess_image.
    destruct image_data as [|b rest]; [done|].
    rewrite open_image_spec, Hopen. cbn [rbind]. rewrite Hrgb.
    by destruct (_ <? _).
  - intros image rgb e Hopen Hrgb Hres. unfold preprocess_image.
    destruct image_data as [|b rest]; [done|].
    rewrite open_image_spec, Hopen. cbn [rbind]. rewrite Hrgb. cbn [rbind].
    rewrite resize_lanczos_eq, Hres. by destruct (_ <? _).
Qed.

Lemma preprocess_image_rejections_witness :
  preprocess_image Demo.env0 [x00; xc8; xc8] = None /\
  preprocess_image Demo.env0 Demo.garbage = None.
Proof.
  destruct (preprocess_image_rejections Demo.env0 [x00; xc8; xc8]) as (Hshort & _).
  destruct (preprocess_image_rejections Demo.env0 Demo.garbage) as (_ & Hopen & _).
  split.
  - apply Hshort. reflexivity.
  - apply (Hopen (Exn OSError "cannot identify image file")). reflexivity.
Defined.

(** ** validate_image_data: the validation record *)

Lemma validate_image_data_empty env :
  validate_image_data env [] =
    mkdict [("valid", VBool false); ("error", VStr "No image data provided");
            ("size", VInt 0)].
Proof. reflexivity. Qed.

Lemma validate_image_data_warning_entry env image_data :
  validate_image_data env image_data !! "warning" =
    match image_data, Image_open env image_data with
    | _ :: _, Ok image =>
        if coarse_verdict env image_data &&
           negb (bool_decide (format image ∈ supported_formats))
        then Some (VStr ("Unusual image format: " +:+
                         py_str (format_value (format image))))
        else None
    | _, _ => None
    end.
Proof.
  unfold validate_image_data, coarse_verdict.
  destruct image_data as [|c rest]; [reflexivity|].
  destruct (Image_open env (c :: rest)) as [image|e]; [|reflexivity].
  destruct (50 * 1024 * 1024 <? len (c :: rest)); [reflexivity|].
  destruct ((fst (size image) <? 50) || (snd (size image) <? 50)); [reflexivity|].
  destruct (negb _); reflexivity.
Qed.

Lemma validate_image_data_warning_nonempty env image_data :
  image_data <> [] ->
  validate_image_data env image_data !! "warning" =
    match Image_open env image_data with
    | Ok image =>
        if coarse_verdict env image_data &&
           negb (bool_decide (format image ∈ supported_formats))
        then Some (VStr ("Unusual image format: " +:+
                         py_str (format_value (format image))))
        else None
    | Raise _ => None
    end.
Proof.
  intros Hne. rewrite validate_image_data_warning_entry.
  by destruct image_data.
Qed.

(** X12. The record returned by validate_image_data always has a boolean
    [valid] entry; it has an [error] entry exactly when [valid] is False, and
    a [warning] entry only when [valid] is True, namely exactly when the
    image opened, passed the size and dimension tests and has a format
    outside the supported list. *)
Theorem validate_image_data_record env image_data :
  exists b,
    validate_image_data env image_data !! "valid" = Some (VBool b) /\
    (b = false <-> exists msg,
       validate_image_data env image_data !! "error" = Some (VStr msg)) /\
    (b = true <-> validate_image_data env image_data !! "error" = None) /\
    (is_Some (validate_image_data env image_data !! "warning") <->
       b = true /\ exists image, Image_open env image_data = Ok image /\
                                 format image ∉ supported_formats).
Proof.
  destruct image_data as [|c rest] eqn:Hdata.
  { exists false. rewrite validate_image_data_warning_entry.
    rewrite validate_image_data_empty.
    split_and!; [reflexivity| | |].
    - split; [intros _; eexists; reflexivity|done].
    - split; [done|intros H; discriminate H].
    - split; [intros [v Hv]; discriminate Hv|intros [? _]; done]. }
  rewrite <- Hdata. assert (image_data <> []) as Hne by (by subst).
  exists (coarse_verdict env image_data).
  rewrite validate_image_data_valid, validate_image_data_error by done.
  rewrite validate_image_data_warning_nonempty by done.
  pose proof (coarse_error_verdict env image_data) as Hcv.
  split_and!; [done| | |].
  - destruct (coarse_error env image_data) as [msg|] eqn:He; cbn [fmap option_fmap option_map].
    + split; [eauto|intros _].
      destruct (coarse_verdict env image_data); [|done].
      discriminate (proj1 Hcv eq_refl).
    + rewrite (proj2 Hcv eq_refl). split; [done|intros [msg H]; discriminate H].
  - split.
    + intros Hv. by rewrite (proj1 Hcv Hv).
    + intros He. apply Hcv. by destruct (coarse_error env image_data).
  - destruct (Image_open env image_data) as [image|e] eqn:Hopen.
    + destruct (coarse_verdict env image_data); cbn [andb].
      * case_bool_decide as Hfmt; cbn [negb].
        -- split; [intros [v Hv]; discriminate Hv|].
           intros (_ & image' & [= <-] & Hn). done.
        -- split; [intros _; split; [done|eauto]|intros _; eexists; reflexivity].
      * split; [intros [v Hv]; discriminate Hv|intros [? _]; done].
    + split; [intros [v Hv]; discriminate Hv|].
      intros (_ & image' & Himg & _). discriminate Himg.
Qed.

(** X13. The [size] entry of the validation record means two things: for
    bytes that open as an image it is the pair (width, height) of the image
    and the byte count is under [file_size]; for empty input and for bytes
    that do not open it is the byte count, and there is no [file_size]. *)
Theorem validate_image_data_size_entry env image_data :
  (forall image,
     image_data <> [] -> Image_open env image_data = Ok image ->
     validate_image_data env image_data !! "size" =
       Some (VTuple [VInt (fst (size image)); VInt (snd (size image))]) /\
     validate_image_data env image_data !! "file_size" =
       Some (VInt (len image_data))) /\
  ((image_data = [] \/ exists e, Image_open env image_data = Raise e) ->
     validate_image_data env image_data !! "size" = Some (VInt (len image_data)) /\
     validate_image_data env image_data !! "file_size" = None).
Proof.
  split.
  - intros image Hne Hopen. unfold validate_image_data.
    destruct image_data as [|c rest]; [done|]. rewrite Hopen.
    destruct (50 * 1024 * 1024 <? len (c :: rest)); [split; reflexivity|].
    destruct ((fst (size image) <? 50) || (snd (size image) <? 50));
      [split; reflexivity|].
    destruct (negb _); split; reflexivity.
  - intros [->|[e Hopen]]; [split; reflexivity|].
    unfold validate_image_data.
    destruct image_data as [|c rest]; [split; reflexivity|].
    rewrite Hopen. split; reflexivity.
Qed.

Lemma validate_image_data_size_entry_witness :
  validate_image_data Demo.env0 Demo.jpeg_40x200 !! "size"
    = Some (VTuple [VInt 40; VInt 200]) /\
  validate_image_data Demo.env0 Demo.garbage !! "size" = Some (VInt 100).
Proof.
  split.
  - apply (proj1 (validate_image_data_size_entry Demo.env0 Demo.jpeg_40x200)
             (Demo.grey (Some "JPEG") "RGB" (40, 200))).
    + discriminate.
    + reflexivity.
  - apply (proj2 (validate_image_data_size_entry Demo.env0 Demo.garbage)).
    right. exists (Exn OSError "cannot identify image file"). reflexivity.
Defined.

(** ** get_model_status and get_service_health *)

Lemma resolve_model_path_raises env w e :
  (exists w1, _resolve_model_path env w = (Raise e, w1)) <-> os_getcwd env = Raise e.
Proof.
  split.
  - intros [w1 Hr]. destruct (os_getcwd env) as [cwd|e'] eqn:Hcwd.
    + pose proof (resolve_model_path_find env cwd w Hcwd) as H.
      rewrite Hr in H. discriminate H.
    + revert Hr. unfold _resolve_model_path. unfold_m. rewrite Hcwd.
      cbn beta iota. congruence.
  - intros Hcwd. unfold _resolve_model_path. unfold_m. rewrite Hcwd.
    cbn beta iota. eauto.
Qed.

Lemma get_model_status_loaded env w :
  model_loaded (self w) = true ->
  get_model_status env w =
    (Ok (mkdict [("model_loaded", VBool true);
                 ("model_available", VBool (is_model_available (self w)));
                 ("load_error", format_value (load_error (self w)));
                 ("model_path", VStr "Loaded")]), w).
Proof. intros Hl. unfold get_model_status. unfold_m. by rewrite Hl. Qed.

Lemma get_model_status_not_loaded env w :
  model_loaded (self w) = false ->
  get_model_status env w =
    match _resolve_model_path env w with
    | (Ok p, w1) =>
        (Ok (mkdict [("model_loaded", VBool false);
                     ("model_available", VBool (is_model_available (self w)));
                     ("load_error", format_value (load_error (self w)));
                     ("model_path", format_value p)]), w1)
    | (Raise e, w1) => (Raise e, w1)
    end.
Proof.
  intros Hl. unfold get_model_status. unfold_m. rewrite Hl. cbn [negb].
  by destruct (_resolve_model_path env w) as [[p|e] w1].
Qed.

(** X14. get_model_status never changes the classifier.  When the model is
    loaded it makes no call to the file system and reports the path as
    "Loaded"; when the model is not loaded it resolves the model path anew
    and reports the path found or None, and it raises exactly when
    os.getcwd raises.  The [model_available] entry is is_model_available. *)
Theorem get_model_status_behaviour env w :
  self (snd (get_model_status env w)) = self w /\
  (model_loaded (self w) = true ->
     exists st, get_model_status env w = (Ok st, w) /\
                st !! "model_path" = Some (VStr "Loaded") /\
                st !! "model_available" = Some (VBool (is_model_available (self w)))) /\
  (model_loaded (self w) = false ->
     (forall e, (exists w1, get_model_status env w = (Raise e, w1))
                <-> os_getcwd env = Raise e) /\
     (forall p w1, _resolve_model_path env w = (Ok p, w1) ->
        exists st, get_model_status env w = (Ok st, w1) /\
                   st !! "model_path" = Some (format_value p) /\
                   st !! "model_loaded" = Some (VBool false) /\
                   st !! "model_available" =
                     Some (VBool (is_model_available (self w))))).
Proof.
  split_and!.
  - destruct (model_loaded (self w)) eqn:Hl.
    + by rewrite get_model_status_loaded.
    + rewrite get_model_status_not_loaded by done.
      pose proof (resolve_model_path_self env w) as Hs.
      by destruct (_resolve_model_path env w) as [[p|e] w1].
  - intros Hl. rewrite get_model_status_loaded by done.
    eexists. split; [reflexivity|]. split; reflexivity.
  - intros Hl. rewrite get_model_status_not_loaded by done. split.
    + intros e. rewrite <- (resolve_model_path_raises env w e).
      destruct (_resolve_model_path env w) as [[p|e'] w1]; split;
        intros [w2 H]; try discriminate H; injection H as -> ->; eauto.
    + intros p w1 ->. eexists. split; [reflexivity|]. split_and!; reflexivity.
Qed.

Lemma get_model_status_behaviour_witness :
  exists st,
    get_model_status Demo.env0 (snd (load_model Demo.env0 Demo.world0))
      = (Ok st, snd (load_model Demo.env0 Demo.world0)) /\
    st !! "model_path" = Some (VStr "Loaded").
Proof.
  destruct (proj1 (proj2 (get_model_status_behaviour Demo.env0
                            (snd (load_model Demo.env0 Demo.world0)))) eq_refl)
    as (st & Heq & Hp & _).
  exists st. exact (conj Heq Hp).
Defined.

Lemma get_service_health_from_status env getmtime_str w st w1 a :
  get_model_status env w = (Ok st, w1) ->
  st !! "model_available" = Some (VBool a) ->
  get_service_health env getmtime_str w =
    match getmtime_str (module_file env) with
    | Ok timestamp =>
        (Ok (<["confidence_margin" := VFloat (CONFIDENCE_MARGIN (settings env))]>
               (mkdict
                  [("service", VStr "ml_classifier");
                   ("status", VStr (if a then "healthy" else "degraded"));
                   ("model", VDict st);
                   ("class_count", VInt (len class_names));
                   ("supported_formats",
                    VList [VStr "JPEG"; VStr "JPG"; VStr "PNG"; VStr "BMP"; VStr "TIFF"]);
                   ("target_image_size", VTuple [VInt 224; VInt 224]);
                   ("confidence_threshold",
                    VFloat (CONFIDENCE_THRESHOLD (settings env)));
                   ("timestamp", VStr timestamp)])), w1)
    | Raise e => (Raise e, w1)
    end.
Proof.
  intros Hst Ha. unfold get_service_health.
  unfold bind at 1. rewrite Hst. unfold bind at 1, lift, getitem. rewrite Ha.
  unfold bind at 1. by destruct (getmtime_str (module_file env)).
Qed.

Lemma get_model_status_ok env w :
  model_loaded (self w) = true \/ (exists cwd, os_getcwd env = Ok cwd) ->
  exists st w1,
    get_model_status env w = (Ok st, w1) /\
    st !! "model_available" = Some (VBool (is_model_available (self w))) /\
    self w1 = self w /\
    (model_loaded (self w) = true -> w1 = w).
Proof.
  intros Hok. destruct (model_loaded (self w)) eqn:Hl.
  - rewrite get_model_status_loaded by done.
    eexists _, _. split; [reflexivity|]. split_and!; [reflexivity|done|done].
  - destruct Hok as [?|[cwd Hcwd]]; [done|].
    rewrite get_model_status_not_loaded by done.
    pose proof (resolve_model_path_find env cwd w Hcwd) as Hr.
    pose proof (resolve_model_path_self env w) as Hs.
    destruct (_resolve_model_path env w) as [[p|e] w1]; [|discriminate Hr].
    eexists _, _. split; [reflexivity|]. split_and!; [reflexivity|done|done].
Qed.

(** X15. get_service_health never changes the classifier.  When the
    modification time of the module can be read and either the model is
    loaded or the working directory can be read, it returns a record whose
    status is "healthy" exactly when is_model_available holds and "degraded"
    otherwise, with class_count 5 and the configured confidence threshold and
    margin; with a loaded model it makes no recorded file-system call.  It
    is not exception-free: it raises when the modification time cannot be
    read, and, with the model not loaded, when os.getcwd raises. *)
Theorem get_service_health_behaviour env getmtime_str w :
  (forall timestamp,
     getmtime_str (module_file env) = Ok timestamp ->
     model_loaded (self w) = true \/ (exists cwd, os_getcwd env = Ok cwd) ->
     exists h w1,
       get_service_health env getmtime_str w = (Ok h, w1) /\
       self w1 = self w /\
       (model_loaded (self w) = true -> w1 = w) /\
       h !! "status" =
         Some (VStr (if is_model_available (self w) then "healthy" else "degraded")) /\
       h !! "class_count" = Some (VInt 5) /\
       h !! "confidence_threshold" =
         Some (VFloat (CONFIDENCE_THRESHOLD (settings env))) /\
       h !! "confidence_margin" =
         Some (VFloat (CONFIDENCE_MARGIN (settings env))) /\
       h !! "timestamp" = Some (VStr timestamp)) /\
  (forall e,
     getmtime_str (module_file env) = Raise e ->
     model_loaded (self w) = true \/ (exists cwd, os_getcwd env = Ok cwd) ->
     exists w1, get_service_health env getmtime_str w = (Raise e, w1) /\
                self w1 = self w) /\
  (forall e,
     model_loaded (self w) = false ->
     os_getcwd env = Raise e ->
     exists w1, get_service_health env getmtime_str w = (Raise e, w1) /\
                self w1 = self w).
Proof.
  split_and!.
  - intros timestamp Hts Hok.
    destruct (get_model_status_ok env w Hok) as (st & w1 & Hst & Ha & Hs & Hw).
    rewrite (get_service_health_from_status _ _ _ _ _ _ Hst Ha), Hts.
    eexists _, _. split; [reflexivity|].
    split_and!; [done|done|reflexivity..].
  - intros e Hts Hok.
    destruct (get_model_status_ok env w Hok) as (st & w1 & Hst & Ha & Hs & Hw).
    rewrite (get_service_health_from_status _ _ _ _ _ _ Hst Ha), Hts. eauto.
  - intros e Hl Hcwd.
    destruct (proj2 (resolve_model_path_raises env w e) Hcwd) as [w1 Hr].
    pose proof (resolve_model_path_self env w) as Hs. rewrite Hr in Hs.
    exists w1. split; [|done].
    unfold get_service_health. unfold bind at 1.
    rewrite get_model_status_not_loaded by done. by rewrite Hr.
Qed.

Lemma get_service_health_behaviour_witness :
  let w := snd (load_model Demo.env0 Demo.world0) in
  exists h,
    get_service_health Demo.env0 (fun _ => Ok "1700000000.0") w = (Ok h, w) /\
    h !! "status" = Some (VStr "healthy").
Proof.
  intros w.
  destruct (proj1 (get_service_health_behaviour Demo.env0
                     (fun _ => Ok "1700000000.0") w) "1700000000.0" eq_refl
              (or_introl eq_refl))
    as (h & w1 & Heq & _ & Hw & Hstatus & _).
  rewrite (Hw eq_refl) in Heq. exists h. exact (conj Heq Hstatus).
Defined.

Lemma load_model_true_loaded env w w1 :
  load_model env w = (Ok true, w1) -> model_loaded (self w1) = true.
Proof.
  intros Hload. destruct (model_loaded (self w)) eqn:Hl.
  - rewrite load_model_loaded in Hload by done. congruence.
  - destruct (load_model_not_loaded env w Hl) as (b & w2 & Heq & Hout).
    rewrite Hload in Heq. injection Heq as <- <-.
    by apply load_outcome_state in Hout as (-> & _).
Qed.

Lemma load_model_false_not_loaded env w w1 :
  load_model env w = (Ok false, w1) -> model_loaded (self w1) = false.
Proof.
  intros Hload. destruct (model_loaded (self w)) eqn:Hl.
  - rewrite load_model_loaded in Hload by done. congruence.
  - destruct (load_model_not_loaded env w Hl) as (b & w2 & Heq & Hout).
    rewrite Hload in Heq. injection Heq as <- <-.
    by apply load_outcome_state in Hout as (-> & _).
Qed.

Lemma predict_success_available env image_data w res flag w' :
  predict env image_data w = (Ok (res, flag), w') ->
  field "success" res = Some (VBool true) ->
  is_model_available (self w') = true.
Proof.
  intros Heq Hsucc.
  destruct (predict_outcomes env image_data w) as (out & w2 & Heq2 & Hout).
  rewrite Heq in Heq2. injection Heq2 as <- <-.
  assert (forall reason, field "success" (fallback_result reason)
                         <> Some (VBool true)) as Hfb.
  { intros reason. destruct (fallback_result_fields reason) as (_ & _ & -> & _).
    discriminate. }
  remember (res, flag) as out eqn:Hpair.
  destruct Hout as [Hnil|w1 Hne Hav Hload|w1 Hne Hr Hv|w1 out w3 Hne Hr Hv Htry];
    try (injection Hpair as <- <-).
  - by vm_compute in Hsucc.
  - by apply Hfb in Hsucc.
  - destruct (error_result_invalid_fields (validate_image_data env image_data))
      as (_ & _ & _ & Hs & _). rewrite Hs in Hsucc. discriminate.
  - destruct Htry as [reason|reason x Hpre
                     |x m row rest idx key top entries Hpre Hm Hp Hlen Hidx Hkey Htop Hsc].
    1, 2: injection Hpair as <- <-; exact (False_ind _ (Hfb reason Hsucc)).
    unfold is_model_available. cbn [self]. rewrite Hm.
    destruct Hr as [[Hav ->]|[_ Hload]].
    + unfold is_model_available in Hav. by destruct (model_loaded (self w)).
    + by rewrite (load_model_true_loaded _ _ _ Hload).
Qed.

(** X16. The health probe agrees with what predict and load_model just did:
    right after a successful inference it reports "healthy", and right after
    a load attempt that returned False it reports "degraded" (given that the
    modification time and, for the second case, the working directory can be
    read). *)
Theorem health_follows_predict_and_load env getmtime_str timestamp :
  getmtime_str (module_file env) = Ok timestamp ->
  (forall image_data w res flag w',
     predict env image_data w = (Ok (res, flag), w') ->
     field "success" res = Some (VBool true) ->
     exists h, get_service_health env getmtime_str w' = (Ok h, w') /\
               h !! "status" = Some (VStr "healthy")) /\
  (forall w w1 cwd,
     load_model env w = (Ok false, w1) ->
     os_getcwd env = Ok cwd ->
     exists h w2, get_service_health env getmtime_str w1 = (Ok h, w2) /\
                  h !! "status" = Some (VStr "degraded")).
Proof.
  intros Hts. split.
  - intros image_data w res flag w' Heq Hsucc.
    pose proof (predict_success_available _ _ _ _ _ _ Heq Hsucc) as Hav.
    assert (model_loaded (self w') = true) as Hl.
    { unfold is_model_available in Hav. by destruct (model_loaded (self w')). }
    destruct (get_model_status_ok env w' (or_introl Hl))
      as (st & w1 & Hst & Ha & _ & Hw).
    rewrite (Hw Hl) in Hst.
    rewrite (get_service_health_from_status _ _ _ _ _ _ Hst Ha), Hts, Hav.
    eexists. split; reflexivity.
  - intros w w1 cwd Hload Hcwd.
    pose proof (load_model_false_not_loaded _ _ _ Hload) as Hl.
    assert (is_model_available (self w1) = false) as Hav.
    { unfold is_model_available. by rewrite Hl. }
    destruct (get_model_status_ok env w1 (or_intror (ex_intro _ cwd Hcwd)))
      as (st & w2 & Hst & Ha & _ & _).
    rewrite (get_service_health_from_status _ _ _ _ _ _ Hst Ha), Hts, Hav.
    eexists _, _. split; reflexivity.
Qed.

Lemma health_follows_predict_and_load_witness :
  exists h,
    get_service_health Demo.env0 (fun _ => Ok "1700000000.0")
      (Demo.world_of Demo.env0 Demo.jpeg_200x200)
      = (Ok h, Demo.world_of Demo.env0 Demo.jpeg_200x200) /\
    h !! "status" = Some (VStr "healthy").
Proof.
  assert (field "success" (Demo.result_of Demo.env0 Demo.jpeg_200x200)
          = Some (VBool true)) as Hsucc by (vm_compute; reflexivity).
  exact (proj1 (health_follows_predict_and_load Demo.env0
                  (fun _ => Ok "1700000000.0") "1700000000.0" eq_refl)
           _ _ _ _ _ (demo_run_ok _ _) Hsucc).
Defined.

(** ** The confidence decision, class by class *)

Lemma Qle_minus_plus (m a b : Q) : (m <= a - b)%Q <-> (b + m <= a)%Q.
Proof.
  split; intros H.
  - apply (Qplus_le_l _ _ (- b)).
    setoid_replace (b + m + - b)%Q with m using relation Qeq by ring. exact H.
  - apply (Qplus_le_l _ _ b).
    setoid_replace (a - b + b)%Q with a using relation Qeq by ring.
    setoid_replace (m + b)%Q with (b + m)%Q using relation Qeq by ring. exact H.
Qed.









(** X19. The decision is antitone in the two settings: with the same
    confidence and scores, lowering CONFIDENCE_THRESHOLD or CONFIDENCE_MARGIN
    never turns an accepted prediction into a rejected one. *)
Theorem threshold_and_margin_antitone env env' confidence row :
  (CONFIDENCE_THRESHOLD (settings env) <= CONFIDENCE_THRESHOLD (settings env'))%Q ->
  (CONFIDENCE_MARGIN (settings env) <= CONFIDENCE_MARGIN (settings env'))%Q ->
  threshold_and_margin env' confidence row = true ->
  threshold_and_margin env confidence row = true.
Proof.
  intros Ht Hm. unfold threshold_and_margin.
  destruct (Qle_bool (CONFIDENCE_THRESHOLD (settings env')) confidence) eqn:H';
    [|done].
  apply Qle_bool_true in H'.
  assert (Qle_bool (CONFIDENCE_THRESHOLD (settings env)) confidence = true) as ->.
  { apply Qle_bool_true. by eapply Qle_trans. }
  destruct (rev (np_sort row)) as [|s0 [|s1 rest]]; [done..|].
  cbn [andb]. destruct (float32_sub s0 s1) as [v| |]; cbn [float32_ge]; [|done..].
  rewrite !Qle_bool_true. intros Hle. by eapply Qle_trans.
Qed.

Lemma threshold_and_margin_antitone_witness :
  threshold_and_margin Demo.env0 0.6%Q [0.1; 0.1; 0.6; 0.1; 0.1]%Q = true.
Proof.
  apply (threshold_and_margin_antitone Demo.env0
           (Demo.env_with {| MODEL_PATH := "ml/model.h5";
                             CONFIDENCE_THRESHOLD := 0.6%Q;
                             CONFIDENCE_MARGIN := 0.5%Q |}
                          [] []) 0.6%Q [0.1; 0.1; 0.6; 0.1; 0.1]%Q).
  - q_lia.
  - q_lia.
  - reflexivity.
Defined.

(** ** The simple classifier and the conversion in create_scan *)

Lemma prediction_entries_table row :
  len row = len class_names ->
  rmapM (prediction_entry row) (seqZ 0 (len class_names)) =
    Ok (zip_with table_entry class_names row).
Proof.
  intros Hlen. destruct (len_five row Hlen) as (a & b & c & d & e & ->).
  vm_compute. reflexivity.
Qed.

Lemma fallback_result_table reason :
  exists row, class_table (fallback_result reason) row /\
              field "error" (fallback_result reason) = None.
Proof. exists [0.2; 0.2; 0.5; 0.2; 0.2]%Q. repeat split; vm_compute; reflexivity. Qed.

Lemma interpret_predictions_table env predictions w out w' :
  interpret_predictions env predictions w = (Ok out, w') ->
  exists row, class_table (fst out) row /\ field "error" (fst out) = None.
Proof.
  assert (forall reason, fallback reason w = (Ok out, w') ->
            exists row, class_table (fst out) row /\ field "error" (fst out) = None)
    as Hfb.
  { intros reason. rewrite fallback_run. intros [= <- _].
    apply fallback_result_table. }
  destruct predictions as [[|row rest]|]; cbn [interpret_predictions];
    try apply Hfb.
  destruct (len row =? len class_names) eqn:Hlen; cbn [negb]; [|apply Hfb].
  apply Z.eqb_eq in Hlen.
  destruct (np_argmax row) as [idx|e] eqn:Hidx.
  2: { destruct row; [|done]. by vm_compute in Hlen. }
  destruct (np_max row) as [top|e] eqn:Htop.
  2: { destruct row; [|done]. by vm_compute in Hlen. }
  pose proof (np_argmax_bounds row idx Hidx) as Hb. rewrite Hlen in Hb.
  destruct (list_getitem_ok class_names idx Hb) as (key & Hget & Hkey).
  unfold_m. rewrite Hget, (prediction_entries_table row Hlen).
  destruct (0 <=? idx) eqn:H0; [|lia].
  destruct (idx <? len class_names) eqn:H1; [|lia].
  cbn [andb]. intros [= <- _]. exists row. split; [split|].
  - unfold len in Hlen. lia.
  - reflexivity.
  - reflexivity.
Qed.

Lemma predict_try_table env image_data w out w' :
  predict_try env image_data w = (Ok out, w') ->
  exists row, class_table (fst out) row /\ field "error" (fst out) = None.
Proof.
  unfold predict_try.
  destruct (preprocess_image env image_data) as [x|] eqn:Hpre.
  2: { rewrite fallback_run. intros [= <- _]. apply fallback_result_table. }
  unfold bind at 1. unfold try_except, bind at 1.
  destruct (call_model_cases x w)
    as [(e & -> & Hm)|[(m & e & Hm & Hp & ->)|(m & predictions & Hm & Hp & ->)]].
  - unfold bind at 1. rewrite fallback_run. unfold ret.
    intros [= <- _]. apply fallback_result_table.
  - unfold bind at 1. rewrite fallback_run. unfold ret.
    intros [= <- _]. apply fallback_result_table.
  - unfold ret at 1. cbn beta iota. apply interpret_predictions_table.
Qed.

Lemma predict_result_cases env image_data w res flag w' :
  predict env image_data w = (Ok (res, flag), w') ->
  (image_data = [] /\ res = error_result_no_data) \/
  (image_data <> [] /\ coarse_verdict env image_data = false /\
   res = error_result_invalid (validate_image_data env image_data)) \/
  (image_data <> [] /\
   exists row, class_table res row /\ field "error" res = None).
Proof.
  intros Heq.
  destruct (predict_outcomes env image_data w) as (out & w2 & Heq2 & Hout).
  destruct Hout as [Hnil|w1 Hne Hav Hload|w1 Hne Hr Hv|w1 out w3 Hne Hr Hv Htry].
  - left. rewrite Heq in Heq2. injection Heq2 as -> _. done.
  - right; right. rewrite Heq in Heq2. injection Heq2 as -> _.
    split; [done|]. apply fallback_result_table.
  - right; left. rewrite Heq in Heq2. injection Heq2 as -> _. done.
  - right; right. split; [done|].
    rewrite (predict_step_ready env image_data w w1 Hne Hr), Hv in Heq.
    exact (predict_try_table env image_data w1 (res, flag) w' Heq).
Qed.

Lemma class_table_scores res row :
  class_table res row ->
  all_scores res = Some (zip class_names row) /\
  zip_with class_prediction class_names row =
    (fun p => class_prediction (fst p) (snd p)) <$> zip class_names row.
Proof.
  intros [Hlen Hfield]. unfold all_scores. rewrite Hfield.
  destruct row as [|a [|b [|c [|d' [|e [|f row]]]]]]; try discriminate Hlen.
  split; vm_compute; reflexivity.
Qed.

Lemma build_predictions_table mk res row :
  pydantic_contract mk ->
  class_table res row ->
  build_predictions mk res = Ok (zip_with class_prediction class_names row).
Proof.
  intros Hmk [Hlen Hfield].
  destruct res as [|b|z|q|s|l|l|d]; try discriminate Hfield.
  cbn [field] in Hfield.
  unfold build_predictions. cbn [subscript]. unfold getitem. rewrite Hfield.
  cbn [rbind iterate].
  destruct row as [|a [|b [|c [|d' [|e [|f row]]]]]]; try discriminate Hlen.
  cbn [zip_with class_names rmapM].
  repeat match goal with
  | |- context [rbind (subscript (table_entry ?k ?q) "disease") ?f] =>
      change (rbind (subscript (table_entry k q) "disease") f)
        with (mk (VStr k) (VFloat q)
                 (VStr (default ""%string (name <$> disease_info !! k))));
      rewrite Hmk
  end.
  reflexivity.
Qed.

Lemma build_predictions_missing mk res :
  (exists d, res = VDict d) ->
  field "all_predictions" res = None ->
  build_predictions mk res = Raise (Exn KeyError "'all_predictions'").
Proof.
  intros [d ->] Hfield. cbn [field] in Hfield.
  unfold build_predictions. cbn [subscript]. unfold getitem. by rewrite Hfield.
Qed.

(** X20. The conversion of create_scan (scans.py, lines 143-151) applied to
    a result of ml_service's predict: it raises KeyError 'all_predictions'
    on the two error dictionaries (so for every empty upload), and on every
    other result it returns one stored prediction per entry of the score
    table, in order, with the class's display name as description. *)
Theorem create_scan_predictions_after_predict mk env image_data w res flag w' :
  pydantic_contract mk ->
  predict env image_data w = (Ok (res, flag), w') ->
  (image_data = [] ->
   build_predictions mk res = Raise (Exn KeyError "'all_predictions'")) /\
  ((field "error" res <> None /\
    build_predictions mk res = Raise (Exn KeyError "'all_predictions'")) \/
   (field "error" res = None /\
    exists scores,
      all_scores res = Some scores /\
      length scores = 5%nat /\
      build_predictions mk res =
        Ok ((fun p => class_prediction (fst p) (snd p)) <$> scores))).
Proof.
  intros Hmk Heq.
  destruct (predict_result_cases env image_data w res flag w' Heq)
    as [[Hnil ->]|[(Hne & _ & ->)|(Hne & row & Htab & Herr)]].
  - assert (build_predictions mk error_result_no_data =
            Raise (Exn KeyError "'all_predictions'")) as Hb.
    { apply build_predictions_missing; [by eexists|]. by vm_compute. }
    split; [done|]. left. split; [by vm_compute|done].
  - split; [done|]. left. split; [discriminate|].
    apply build_predictions_missing; [by eexists|]. reflexivity.
  - split; [done|]. right. destruct (class_table_scores res row Htab) as [Hsc Hmap].
    split; [done|].
    exists (zip class_names row). split; [done|]. split.
    + destruct Htab as [Hlen _]. rewrite length_zip, Hlen. reflexivity.
    + rewrite <- Hmap. by apply build_predictions_table.
Qed.

Lemma create_scan_predictions_after_predict_witness :
  pydantic_contract ScanDemo.make_prediction /\
  exists scores,
    all_scores (Demo.result_of Demo.env0 Demo.jpeg_200x200) = Some scores /\
    build_predictions ScanDemo.make_prediction
      (Demo.result_of Demo.env0 Demo.jpeg_200x200) =
      Ok ((fun p => class_prediction (fst p) (snd p)) <$> scores).
Proof.
  assert (pydantic_contract ScanDemo.make_prediction) as Hmk
    by (intros d c s; reflexivity).
  split; [exact Hmk|].
  destruct (create_scan_predictions_after_predict ScanDemo.make_prediction
              Demo.env0 Demo.jpeg_200x200 Demo.world0 _ _ _ Hmk (demo_run_ok _ _))
    as [_ [[Herr _]|(_ & scores & Hsc & _ & Hb)]].
  - exfalso. apply Herr. vm_compute. reflexivity.
  - exists scores. exact (conj Hsc Hb).
Defined.

Lemma simple_fallback_ok reason :
  exists d,
    Simple._get_fallback_prediction reason = Ok (VDict d) /\
    d !! "disease" = Some (VStr "healthy") /\
    d !! "confidence" = Some (VFloat 0.5%Q) /\
    d !! "success" = Some (VBool false) /\
    d !! "fallback_reason" = Some (VStr reason) /\
    class_table (VDict d) [0.2; 0.2; 0.5; 0.2; 0.2]%Q.
Proof. eexists. repeat split; vm_compute; reflexivity. Qed.

(** X21. The classifier the API imports (ml_service_simple.py) answers
    every input, the empty one included, in every state, with the fallback
    for a healthy leaf: flag False, success False, confidence 0.5, state
    unchanged; the conversion of create_scan then stores the same five
    predictions (healthy at 0.5, every other class at 0.2) for every
    upload. *)
Theorem simple_predict_always_healthy mk tf image_data w :
  pydantic_contract mk ->
  exists res reason,
    Simple.predict tf image_data w = (Ok (res, false), w) /\
    field "disease" res = Some (VStr "healthy") /\
    field "confidence" res = Some (VFloat 0.5%Q) /\
    field "success" res = Some (VBool false) /\
    field "fallback_reason" res = Some (VStr reason) /\
    build_predictions mk res =
      Ok (zip_with class_prediction class_names [0.2; 0.2; 0.5; 0.2; 0.2]%Q).
Proof.
  intros Hmk. unfold Simple.predict. unfold_m.
  destruct (negb tf || negb (Simple.is_model_available tf (self w))).
  - destruct (simple_fallback_ok "ML model not available")
      as (d & -> & Hd & Hc & Hs & Hr & Htab).
    exists (VDict d), "ML model not available"%string.
    split_and!; try done. by apply build_predictions_table.
  - destruct (simple_fallback_ok "Model prediction not implemented")
      as (d & -> & Hd & Hc & Hs & Hr & Htab).
    exists (VDict d), "Model prediction not implemented"%string.
    split_and!; try done. by apply build_predictions_table.
Qed.

Lemma simple_predict_always_healthy_witness :
  pydantic_contract ScanDemo.make_prediction /\
  exists res,
    Simple.predict true [] Demo.world0 = (Ok (res, false), Demo.world0) /\
    field "disease" res = Some (VStr "healthy").
Proof.
  assert (pydantic_contract ScanDemo.make_prediction) as Hmk
    by (intros d c s; reflexivity).
  split; [exact Hmk|].
  destruct (simple_predict_always_healthy ScanDemo.make_prediction true []
              Demo.world0 Hmk) as (res & reason & Heq & Hd & _).
  exists res. exact (conj Heq Hd).
Defined.

Lemma simple_load_model_run tf w :
  exists msg,
    Simple.load_model tf w =
      (Ok false,
       {| self := {| model := model (self w); model_loaded := false;
                     load_error := Some msg |};
          trace := trace w |}).
Proof.
  unfold Simple.load_model. destruct tf; cbn [negb]; eexists; reflexivity.
Qed.

Lemma simple_predict_state tf image_data w :
  snd (Simple.predict tf image_data w) = w.
Proof.
  unfold Simple.predict. unfold_m.
  destruct (negb tf || negb (Simple.is_model_available tf (self w))).
  - by destruct (simple_fallback_ok "ML model not available") as (d & -> & _).
  - by destruct (simple_fallback_ok "Model prediction not implemented")
      as (d & -> & _).
Qed.

Lemma simple_reachable_no_model tf c :
  Simple.reachable tf c -> model c = None /\ model_loaded c = false.
Proof.
  induction 1 as [|w Hr IH|image_data w Hr IH].
  - done.
  - destruct (simple_load_model_run tf w) as (msg & ->). cbn. by destruct IH.
  - by rewrite simple_predict_state.
Qed.

(** X22. In every state the simple classifier can reach (construction,
    then any calls of load_model and predict) no model is held and none is
    flagged as loaded: is_model_available is False, load_model returns
    False, every prediction is the fallback with reason
    "ML model not available".  get_service_health nevertheless reports
    "healthy" whenever TensorFlow could be imported, beside
    model_loaded False. *)
Theorem simple_model_never_available tf cfg w :
  Simple.reachable tf (self w) ->
  Simple.is_model_available tf (self w) = false /\
  fst (Simple.load_model tf w) = Ok false /\
  Simple.reachable tf (self (snd (Simple.load_model tf w))) /\
  (forall image_data,
     exists res,
       Simple.predict tf image_data w = (Ok (res, false), w) /\
       field "fallback_reason" res = Some (VStr "ML model not available")) /\
  exists health,
    Simple.get_service_health tf cfg w = (Ok health, w) /\
    health !! "model_loaded" = Some (VBool false) /\
    health !! "status" = Some (VStr (if tf then "healthy" else "degraded")).
Proof.
  intros Hr. destruct (simple_reachable_no_model tf _ Hr) as [Hm Hl].
  assert (Simple.is_model_available tf (self w) = false) as Hav.
  { unfold Simple.is_model_available. rewrite Hl. by destruct tf. }
  split_and!.
  - done.
  - by destruct (simple_load_model_run tf w) as (msg & ->).
  - by constructor.
  - intros image_data. unfold Simple.predict. unfold_m. rewrite Hav.
    rewrite orb_true_r.
    destruct (simple_fallback_ok "ML model not available")
      as (d & -> & _ & _ & _ & Hreason & _).
    by exists (VDict d).
  - unfold Simple.get_service_health. unfold_m. eexists. split; [done|].
    rewrite Hl. by destruct tf.
Qed.

Lemma simple_model_never_available_witness :
  Simple.reachable true (self Demo.world0) /\
  Simple.is_model_available true (self Demo.world0) = false /\
  exists health,
    Simple.get_service_health true default_settings Demo.world0 =
      (Ok health, Demo.world0) /\
    health !! "status" = Some (VStr "healthy").
Proof.
  assert (Simple.reachable true (self Demo.world0)) as Hr by constructor.
  destruct (simple_model_never_available true default_settings Demo.world0 Hr)
    as (Hav & _ & _ & _ & health & Heq & _ & Hst).
  split; [exact Hr|]. split; [exact Hav|].
  exists health. exact (conj Heq Hst).
Defined.

Lemma fallback_generators_insert reason :
  exists d_simple,
    Simple._get_fallback_prediction reason = Ok (VDict d_simple) /\
    _get_fallback_prediction reason =
      Ok (VDict (<["description" :=
                   VStr "Unable to process image - defaulting to healthy classification"]>
                 d_simple)) /\
    d_simple !! "description" =
      Some (VStr "ML model not available - defaulting to healthy classification").
Proof.
  exists (match Simple._get_fallback_prediction reason with
          | Ok (VDict d) => d
          | _ => ∅
          end).
  split_and!; vm_compute; reflexivity.
Qed.

(** X23. For every reason the fallback generators of ml_service.py and of
    ml_service_simple.py return dictionaries that agree on every key but
    "description", on which they differ. *)
Theorem fallback_generators_agree reason :
  exists d_full d_simple,
    _get_fallback_prediction reason = Ok (VDict d_full) /\
    Simple._get_fallback_prediction reason = Ok (VDict d_simple) /\
    (forall k, k <> "description"%string -> d_full !! k = d_simple !! k) /\
    d_full !! "description" <> d_simple !! "description" /\
    d_full !! "description" <> None /\ d_simple !! "description" <> None.
Proof.
  destruct (fallback_generators_insert reason) as (d_simple & Hs & Hf & Hd).
  eexists _, d_simple. split; [exact Hf|]. split; [exact Hs|]. split_and!.
  - intros k Hk. by rewrite lookup_insert_ne.
  - rewrite lookup_insert_eq, Hd. discriminate.
  - rewrite lookup_insert_eq. discriminate.
  - rewrite Hd. discriminate.
Qed.

(** ** The checks of scans.py on file names and notes *)

Lemma string_ind2 (P : string -> Prop) :
  P EmptyString ->
  (forall c, P (String c EmptyString)) ->
  (forall c c' r, P r -> P (String c' r) -> P (String c (String c' r))) ->
  forall s, P s.
Proof.
  intros H0 H1 H2 s.
  assert (P s /\ forall c, P (String c s)) as [Hs _]; [|done].
  induction s as [|c' r [IH1 IH2]]; [by split|].
  split; [apply IH2|]. intros c. by apply H2.
Qed.

Lemma list_ascii_of_string_app s t :
  list_ascii_of_string (s +:+ t) = list_ascii_of_string s ++ list_ascii_of_string t.
Proof. induction s as [|c s IH]; [done|]. cbn. by rewrite <- IH. Qed.

Lemma list_ascii_length s : length (list_ascii_of_string s) = String.length s.
Proof. induction s as [|c s IH]; [done|]. cbn. by rewrite IH. Qed.

Lemma string_length_app s t :
  String.length (s +:+ t) = (String.length s + String.length t)%nat.
Proof. induction s as [|c s IH]; [done|]. cbn. by rewrite <- IH. Qed.

Lemma re_sub_class_free class repl s :
  free_of class repl -> free_of class (re_sub_class class repl s).
Proof.
  intros Hrepl. induction s as [|c s IH]; intros x Hx.
  - by apply elem_of_nil in Hx.
  - cbn [re_sub_class] in Hx. destruct (bool_decide (c ∈ class)) eqn:Hc.
    + rewrite list_ascii_of_string_app in Hx. apply elem_of_app in Hx as [Hx|Hx].
      * by apply Hrepl.
      * by apply IH.
    + apply bool_decide_eq_false in Hc. cbn in Hx.
      apply elem_of_cons in Hx as [->|Hx]; [done|by apply IH].
Qed.

Lemma re_sub_class_id class repl s :
  free_of class s -> re_sub_class class repl s = s.
Proof.
  induction s as [|c s IH]; intros Hfree; [done|]. cbn [re_sub_class].
  rewrite bool_decide_eq_false_2.
  - rewrite IH; [done|]. intros x Hx. apply Hfree. cbn. by right.
  - apply Hfree. cbn. by left.
Qed.

Lemma re_sub_class_char_length class c s :
  String.length (re_sub_class class (String c EmptyString) s) = String.length s.
Proof.
  induction s as [|x s IH]; [done|]. cbn [re_sub_class].
  destruct (bool_decide (x ∈ class)); rewrite ?string_length_app;
    cbn [String.length]; lia.
Qed.

Lemma re_sub_class_empty_length class s :
  (String.length (re_sub_class class EmptyString s) <= String.length s)%nat.
Proof.
  induction s as [|x s IH]; [done|]. cbn [re_sub_class].
  destruct (bool_decide (x ∈ class)); rewrite ?string_length_app;
    cbn [String.length]; lia.
Qed.

Lemma re_sub_dotdot_free class s :
  "_"%char ∉ class -> free_of class s -> free_of class (re_sub_dotdot s).
Proof.
  intros Hu. induction s as [|c|c c' r IH1 IH2] using string_ind2; intros Hfree.
  - done.
  - done.
  - cbn [re_sub_dotdot].
    destruct (Ascii.eqb c "." && Ascii.eqb c' ".").
    + intros x Hx. cbn in Hx. apply elem_of_cons in Hx as [->|Hx]; [done|].
      revert x Hx. apply IH1. intros x Hx. apply Hfree. cbn. right. by right.
    + intros x Hx. cbn [list_ascii_of_string] in Hx.
      apply elem_of_cons in Hx as [->|Hx].
      * apply Hfree. cbn. by left.
      * revert x Hx. apply IH2. intros x Hx. apply Hfree.
        cbn [list_ascii_of_string]. by right.
Qed.

Lemma re_sub_dotdot_head c r :
  c <> "."%char -> exists r', re_sub_dotdot (String c r) = String c r'.
Proof.
  intros Hc. apply Ascii.eqb_neq in Hc. cbn [re_sub_dotdot].
  destruct r as [|c' r']; [by eexists|]. rewrite Hc. cbn [andb]. by eexists.
Qed.

Lemma re_sub_dotdot_cons c c' r :
  re_sub_dotdot (String c (String c' r)) =
    if Ascii.eqb c "." && Ascii.eqb c' "."
    then String "_" (re_sub_dotdot r)
    else String c (re_sub_dotdot (String c' r)).
Proof. reflexivity. Qed.

Lemma no_dotdot_cons c c' r :
  no_dotdot (String c (String c' r)) =
    negb (Ascii.eqb c "." && Ascii.eqb c' ".") && no_dotdot (String c' r).
Proof. reflexivity. Qed.

Lemma re_sub_dotdot_no_dotdot s : no_dotdot (re_sub_dotdot s) = true.
Proof.
  induction s as [|c|c c' r IH1 IH2] using string_ind2; [done..|].
  rewrite re_sub_dotdot_cons.
  destruct (Ascii.eqb c ".") eqn:Hc, (Ascii.eqb c' ".") eqn:Hc'; cbn [andb].
  - destruct (re_sub_dotdot r) as [|x r'] eqn:Hr; [done|].
    rewrite no_dotdot_cons, IH1. reflexivity.
  - apply Ascii.eqb_neq in Hc'.
    destruct (re_sub_dotdot_head c' r Hc') as (r' & Hr').
    rewrite Hr' in *. apply Ascii.eqb_neq in Hc'.
    by rewrite no_dotdot_cons, IH2, Hc', andb_false_r.
  - destruct (re_sub_dotdot (String c' r)) as [|x r'] eqn:Hr; [done|].
    by rewrite no_dotdot_cons, IH2, Hc.
  - destruct (re_sub_dotdot (String c' r)) as [|x r'] eqn:Hr; [done|].
    by rewrite no_dotdot_cons, IH2, Hc.
Qed.

Lemma re_sub_dotdot_id s : no_dotdot s = true -> re_sub_dotdot s = s.
Proof.
  induction s as [|c|c c' r IH1 IH2] using string_ind2; [done..|].
  rewrite no_dotdot_cons, re_sub_dotdot_cons. intros [Hn Hr]%andb_true_iff.
  apply negb_true_iff in Hn. rewrite Hn. by rewrite IH2.
Qed.

Lemma re_sub_dotdot_length s :
  (String.length (re_sub_dotdot s) <= String.length s)%nat /\
  (s <> EmptyString -> re_sub_dotdot s <> EmptyString).
Proof.
  induction s as [|c|c c' r IH1 IH2] using string_ind2; [done..|].
  rewrite re_sub_dotdot_cons.
  destruct (Ascii.eqb c "." && Ascii.eqb c' "."); split; try done;
    cbn [String.length] in *; lia.
Qed.

Lemma underscore_not_special : "_"%char ∉ filename_specials.
Proof. apply (bool_decide_eq_false_1 _). vm_compute. reflexivity. Qed.

Lemma empty_extension_refused :
  py_lower (snd (os_path_splitext EmptyString)) ∉ ALLOWED_EXTENSIONS.
Proof. apply (bool_decide_eq_false_1 _). vm_compute. reflexivity. Qed.

Lemma validate_filename_inr order filename s :
  validate_filename order filename = inr s ->
  exists f,
    filename = Some f /\ f <> EmptyString /\
    py_lower (snd (os_path_splitext f)) ∈ ALLOWED_EXTENSIONS /\
    s = re_sub_dotdot (re_sub_class filename_specials "_" f) /\
    (String.length s <= 255)%nat.
Proof.
  unfold validate_filename.
  destruct filename as [[|c f]|]; try discriminate.
  destruct (bool_decide (_ ∈ ALLOWED_EXTENSIONS)) eqn:Hext; cbn [negb];
    [|discriminate].
  apply bool_decide_eq_true in Hext.
  destruct (255 <? _) eqn:Hlen; [discriminate|]. intros [= <-].
  exists (String c f). split_and!; try done.
  apply Z.ltb_ge in Hlen. unfold len in Hlen.
  rewrite list_ascii_length in Hlen.
  change (String.length
            (re_sub_dotdot (re_sub_class filename_specials "_" (String c f)))
          <= 255)%nat.
  lia.
Qed.

Lemma validate_filename_clean order f :
  free_of filename_specials f ->
  no_dotdot f = true ->
  (String.length f <= 255)%nat ->
  py_lower (snd (os_path_splitext f)) ∈ ALLOWED_EXTENSIONS ->
  validate_filename order (Some f) = inr f.
Proof.
  intros Hfree Hdots Hlen Hext. unfold validate_filename.
  destruct f as [|c f]; [by destruct empty_extension_refused|].
  rewrite (bool_decide_eq_true_2 _ Hext). cbn [negb].
  rewrite (re_sub_class_id _ _ _ Hfree), (re_sub_dotdot_id _ Hdots).
  unfold len. rewrite list_ascii_length.
  destruct (255 <? _) eqn:Hl; [|done]. apply Z.ltb_lt in Hl. lia.
Qed.

Lemma sanitized_name_safe f :
  let s := re_sub_dotdot (re_sub_class filename_specials "_" f) in
  free_of filename_specials s /\ no_dotdot s = true /\
  (String.length s <= String.length f)%nat /\
  (f <> EmptyString -> s <> EmptyString).
Proof.
  cbv zeta. split_and!.
  - apply re_sub_dotdot_free; [apply underscore_not_special|].
    apply re_sub_class_free. intros x Hx. cbn in Hx.
    apply elem_of_cons in Hx as [->|Hx]; [apply underscore_not_special|].
    by apply elem_of_nil in Hx.
  - apply re_sub_dotdot_no_dotdot.
  - etrans; [apply re_sub_dotdot_length|]. by rewrite re_sub_class_char_length.
  - intros Hne. apply re_sub_dotdot_length.
    intros Heq. apply Hne. apply (f_equal String.length) in Heq.
    rewrite re_sub_class_char_length in Heq. by destruct f.
Qed.

(** X24. A name returned by validate_filename (scans.py) holds none of the
    characters < > : double quote / backslash | ? * and no two dots in a
    row, is not empty, has at most 255 characters and is no longer than the
    name submitted, whose extension was one of the six allowed ones up to
    case. *)
Theorem validate_filename_result_safe order filename s :
  validate_filename order filename = inr s ->
  free_of filename_specials s /\
  no_dotdot s = true /\
  s <> EmptyString /\
  (String.length s <= 255)%nat /\
  exists f,
    filename = Some f /\
    (String.length s <= String.length f)%nat /\
    py_lower (snd (os_path_splitext f)) ∈ ALLOWED_EXTENSIONS.
Proof.
  intros Heq.
  destruct (validate_filename_inr order filename s Heq)
    as (f & -> & Hne & Hext & -> & Hlen).
  destruct (sanitized_name_safe f) as (Hfree & Hdots & Hle & Hnonempty).
  split_and!; try done; [by apply Hnonempty|]. by exists f.
Qed.

Lemma validate_filename_result_safe_witness :
  validate_filename ALLOWED_EXTENSIONS (Some "../../etc/leaf.PNG") =
    inr "____etc_leaf.PNG" /\
  free_of filename_specials "____etc_leaf.PNG" /\
  no_dotdot "____etc_leaf.PNG" = true.
Proof.
  assert (validate_filename ALLOWED_EXTENSIONS (Some "../../etc/leaf.PNG") =
          inr "____etc_leaf.PNG") as Heq by (vm_compute; reflexivity).
  destruct (validate_filename_result_safe ALLOWED_EXTENSIONS _ _ Heq)
    as (Hfree & Hdots & _).
  exact (conj Heq (conj Hfree Hdots)).
Defined.

(** X25. validate_filename returns unchanged every name that needs no
    sanitising: a name with an allowed extension, at most 255 characters,
    none of the special characters and no two dots in a row.  In particular
    a name it has returned is returned unchanged when submitted again,
    provided its extension is still an allowed one. *)
Theorem validate_filename_fixed_points order f :
  py_lower (snd (os_path_splitext f)) ∈ ALLOWED_EXTENSIONS ->
  (free_of filename_specials f ->
   no_dotdot f = true ->
   (String.length f <= 255)%nat ->
   validate_filename order (Some f) = inr f) /\
  (forall filename,
     validate_filename order filename = inr f ->
     validate_filename order (Some f) = inr f).
Proof.
  intros Hext. split.
  - intros Hfree Hdots Hlen. by apply validate_filename_clean.
  - intros filename Heq.
    destruct (validate_filename_inr order filename f Heq)
      as (f0 & -> & Hne & Hext0 & -> & Hlen).
    destruct (sanitized_name_safe f0) as (Hfree & Hdots & _).
    by apply validate_filename_clean.
Qed.

Lemma validate_filename_fixed_points_witness :
  py_lower (snd (os_path_splitext "____etc_leaf.PNG")) ∈ ALLOWED_EXTENSIONS /\
  validate_filename ALLOWED_EXTENSIONS (Some "____etc_leaf.PNG") =
    inr "____etc_leaf.PNG".
Proof.
  assert (py_lower (snd (os_path_splitext "____etc_leaf.PNG")) ∈ ALLOWED_EXTENSIONS)
    as Hext by (apply (bool_decide_eq_true_1 _); vm_compute; reflexivity).
  split; [exact Hext|].
  apply (proj2 (validate_filename_fixed_points ALLOWED_EXTENSIONS _ Hext)
           (Some "../../etc/leaf.PNG")).
  vm_compute. reflexivity.
Defined.

Lemma re_sub_class_empty_nil class s :
  re_sub_class class EmptyString s = EmptyString ->
  forall c, c ∈ list_ascii_of_string s -> c ∈ class.
Proof.
  induction s as [|x s IH]; intros Heq c Hc.
  - by apply elem_of_nil in Hc.
  - cbn [re_sub_class] in Heq. destruct (bool_decide (x ∈ class)) eqn:Hx;
      [|discriminate].
    apply bool_decide_eq_true in Hx. cbn in Hc.
    apply elem_of_cons in Hc as [->|Hc]; [done|]. by apply IH.
Qed.

(** X26. The notes block of create_scan (scans.py, lines 102-113): notes
    that are kept are not empty, hold none of the characters < > double
    quote and single quote, and have at most 1000 characters; notes are
    dropped (None) only when absent or when everything left after
    stripping is such a character; the request is refused, with status
    400, exactly when the stripped notes exceed 1000 characters, counted
    before those characters are removed. *)
Theorem create_scan_notes_result notes :
  match create_scan_notes notes with
  | inr (Some s) =>
      s <> EmptyString /\ free_of notes_specials s /\
      (String.length s <= 1000)%nat /\
      exists n, notes = Some n /\
                s = re_sub_class notes_specials "" (py_strip n) /\
                (String.length (py_strip n) <= 1000)%nat
  | inr None =>
      forall n, notes = Some n ->
        (String.length (py_strip n) <= 1000)%nat /\
        forall c, c ∈ list_ascii_of_string (py_strip n) -> c ∈ notes_specials
  | inl e =>
      status_code e = 400 /\
      exists n, notes = Some n /\ (1000 < String.length (py_strip n))%nat
  end.
Proof.
  unfold create_scan_notes. destruct notes as [n|]; [|by intros n [=]].
  unfold len. rewrite list_ascii_length.
  destruct (1000 <? _) eqn:Hlen.
  { apply Z.ltb_lt in Hlen. split; [done|]. exists n. split; [done|]. lia. }
  apply Z.ltb_ge in Hlen. cbn [truthy]. rewrite negb_involutive.
  destruct (String.eqb _ _) eqn:Hempty.
  - apply String.eqb_eq in Hempty. intros n' [= <-]. split; [lia|].
    by apply re_sub_class_empty_nil.
  - apply String.eqb_neq in Hempty. split_and!.
    + done.
    + apply re_sub_class_free. intros c Hc. by apply elem_of_nil in Hc.
    + pose proof (re_sub_class_empty_length notes_specials (py_strip n)). lia.
    + exists n. split_and!; [done..|lia].
Qed.
